(** * Plant Lore: the analysis page script (app.js)

    A shallow embedding of [src/app.js]: the loader run on DOMContentLoaded,
    the three view populators, the Venn chart renderer and the navigation
    controller, over an explicit model of the page they read and write.

    - JavaScript numbers are IEEE binary64 values ([float]); the products the
      script computes are [PrimFloat.mul], and [Number::toString] and
      [Number.prototype.toFixed] are written out after ECMA-262 on the exact
      value of the double.
    - [Number.prototype.toLocaleString] depends on the host's locale: it is a
      variable of the development, with the en-US formatting of ECMA-402 as an
      instance for the worked examples.
    - The script is effectful: it runs in a state-and-exception monad over the
      page.  An exception keeps the writes made before it, as in JavaScript. *)

From Stdlib Require Import ZArith QArith Qround Qabs Lqa String Ascii Floats DecimalString.
From stdpp Require Import base list strings gmap.

Set Warnings "-inexact-float,-register-all".
Local Open Scope Z_scope.

(** ** JavaScript numbers *)

Module JSNumber.

Definition number := float.
Bind Scope float_scope with number.

Definition str (l : list ascii) : string := string_of_list_ascii l.

(** Decimal digits of a non-negative integer, most significant first. *)
Definition digits (n : Z) : list ascii :=
  list_ascii_of_string (NilZero.string_of_uint (N.to_uint (Z.to_N n))).

Definition zeros (k : nat) : list ascii := replicate k "0"%char.

(** The real m·2^e, the magnitude of the finite double [S754_finite _ m e]. *)
Definition mag (m : positive) (e : Z) : Q :=
  if 0 <=? e then inject_Z (Z.pos m * 2 ^ e) else Z.pos m # Z.to_pos (2 ^ (- e)).

Definition pow10 (k : Z) : Q :=
  if 0 <=? k then inject_Z (10 ^ k) else 1 # Z.to_pos (10 ^ (- k)).

Definition Qlt_bool (a b : Q) : bool := negb (Qle_bool b a).

(** The integer n for which n - x is as close to zero as possible, the larger
    one when there are two (ECMA-262, Number.prototype.toFixed step 10.a). *)
Definition round_half_up (x : Q) : Z := Qfloor (x + (1 # 2))%Q.

(** The n with 10^(n-1) <= x < 10^n, reached from an estimate by log2. *)
Fixpoint exp10_up (fuel : nat) (x : Q) (n : Z) : Z :=
  match fuel with
  | O => n
  | S fuel => if Qle_bool (pow10 n) x then exp10_up fuel x (n + 1) else n
  end.

Fixpoint exp10_down (fuel : nat) (x : Q) (n : Z) : Z :=
  match fuel with
  | O => n
  | S fuel => if Qle_bool (pow10 (n - 1)) x then n else exp10_down fuel x (n - 1)
  end.

Definition exp10 (m : positive) (e : Z) : Z :=
  let x := mag m e in
  let est := ((Z.log2 (Z.pos m) + e) * 30103) / 100000 in
  exp10_up 4 x (exp10_down 4 x est).

(** The reals that round to the double m·2^e (nearest, ties to even): the gap
    below a power of two is half the gap above it. *)
Definition lower_gap (m : positive) (e : Z) : Q :=
  if (Z.pos m =? 2 ^ 52) && (-1074 <? e) then mag 1 (e - 2) else mag 1 (e - 1).

Definition rounds_to (m : positive) (e : Z) (y : Q) : bool :=
  let x := mag m e in
  let lo := (x - lower_gap m e)%Q in
  let hi := (x + mag 1 (e - 1))%Q in
  if Z.even (Z.pos m) then Qle_bool lo y && Qle_bool y hi
  else Qlt_bool lo y && Qlt_bool y hi.

(** A k-digit decimal s·10^(n-k) that reads back as the double, if there is
    one: of the two s around x the closer, the even one on a tie. *)
Definition candidate (m : positive) (e : Z) (n k : Z) : option (Z * Z) :=
  let x := mag m e in
  let p := n - k in
  let s0 := Qfloor (x * pow10 (- p))%Q in
  let s1 := s0 + 1 in
  let v0 := (inject_Z s0 * pow10 p)%Q in
  let v1 := (inject_Z s1 * pow10 p)%Q in
  let ok0 := (10 ^ (k - 1) <=? s0) && rounds_to m e v0 in
  let ok1 := rounds_to m e v1 in
  let up := if s1 =? 10 ^ k then (10 ^ (k - 1), n + 1) else (s1, n) in
  match ok0, ok1 with
  | true, false => Some (s0, n)
  | false, true => Some up
  | false, false => None
  | true, true =>
      let d0 := (x - v0)%Q in
      let d1 := (v1 - x)%Q in
      if Qlt_bool d0 d1 then Some (s0, n)
      else if Qlt_bool d1 d0 then Some up
      else if Z.even s0 then Some (s0, n) else Some up
  end.

(** The least k with a candidate (17 digits always suffice for a double). *)
Fixpoint shortest (fuel : nat) (m : positive) (e : Z) (n k : Z) : Z * Z :=
  match fuel with
  | O => (round_half_up (mag m e * pow10 (k - n))%Q, n)
  | S fuel =>
      match candidate m e n k with
      | Some r => r
      | None => shortest fuel m e n (k + 1)
      end
  end.

(** Number::toString, steps 6 to 10: the digits of s laid out around n. *)
Definition layout (ds : list ascii) (n : Z) : list ascii :=
  let k := Z.of_nat (length ds) in
  if (k <=? n) && (n <=? 21) then ds ++ zeros (Z.to_nat (n - k))
  else if (0 <? n) && (n <=? 21) then
    take (Z.to_nat n) ds ++ "."%char :: drop (Z.to_nat n) ds
  else if (-6 <? n) && (n <=? 0) then
    "0"%char :: "."%char :: zeros (Z.to_nat (- n)) ++ ds
  else
    let ex := n - 1 in
    let sign := if 0 <=? ex then "+"%char else "-"%char in
    let mant := match ds with
                | [d] => [d]
                | d :: rest => d :: "."%char :: rest
                | [] => []
                end in
    mant ++ "e"%char :: sign :: digits (Z.abs ex).

Definition toString_pos (m : positive) (e : Z) : list ascii :=
  let '(s, n) := shortest 17 m e (exp10 m e) 1 in
  layout (digits s) n.

(** Number::toString(x), radix 10: what string concatenation and template
    literals apply to a number. *)
Definition toString (x : number) : string :=
  match Prim2SF x with
  | S754_nan => "NaN"
  | S754_zero _ => "0"
  | S754_infinity false => "Infinity"
  | S754_infinity true => "-Infinity"
  | S754_finite false m e => str (toString_pos m e)
  | S754_finite true m e => str ("-"%char :: toString_pos m e)
  end.

(** Number.prototype.toFixed, step 10: the digits of n, padded with zeros to
    f + 1 of them, with a point before the last f. *)
Definition fixed_layout (f : nat) (n : Z) : list ascii :=
  let m := digits n in
  match f with
  | O => m
  | _ =>
      let m := zeros (S f - length m) ++ m in
      let k := length m in
      take (k - f) m ++ "."%char :: drop (k - f) m
  end.

Definition fixed_digits (f : nat) (x : Q) : list ascii :=
  fixed_layout f (round_half_up (x * pow10 (Z.of_nat f))%Q).

(** Number.prototype.toFixed(f) for the f the script passes (1, 2 and 3; the
    RangeError for f > 100 cannot arise).  A value that is not finite, or is
    10^21 or more, is printed by [toString] instead. *)
Definition toFixed (x : number) (f : nat) : string :=
  match Prim2SF x with
  | S754_finite s m e =>
      let v := mag m e in
      let body := if Qle_bool (pow10 21) v then toString_pos m e else fixed_digits f v in
      str (if s then "-"%char :: body else body)
  | S754_zero _ => str (fixed_digits f 0%Q)
  | _ => toString x
  end.

(** The exact value of a double below 10^21 in magnitude, if it is one. *)
Definition fixed_value (x : number) : option Q :=
  match Prim2SF x with
  | S754_finite s m e =>
      if Qle_bool (pow10 21) (mag m e) then None
      else Some (if s then - mag m e else mag m e)%Q
  | S754_zero _ => Some 0%Q
  | _ => None
  end.

Definition is_digit (c : ascii) : bool :=
  (48 <=? nat_of_ascii c)%nat && (nat_of_ascii c <=? 57)%nat.

(** Intl.NumberFormat of ECMA-402 with its default options (at most three
    fraction digits, rounding half away from zero, grouping by three) and the
    en-US symbols: the comma groups and the point separates.  It formats the
    exact value of the double; the theorems take the host's function as a
    variable, and this instance serves the integer counts of the worked
    examples. *)
Fixpoint group3 (rev_ds : list ascii) : list ascii :=
  match rev_ds with
  | a :: b :: c :: ((_ :: _) as rest) => a :: b :: c :: ","%char :: group3 rest
  | _ => rev_ds
  end.

Definition grouped (ds : list ascii) : list ascii := rev (group3 (rev ds)).

Fixpoint strip_zeros (rev_ds : list ascii) : list ascii :=
  match rev_ds with
  | "0"%char :: rest => strip_zeros rest
  | _ => rev_ds
  end.

Definition en_US_magnitude (x : Q) : list ascii :=
  let n := round_half_up (x * pow10 3)%Q in
  let int := grouped (digits (n / 1000)) in
  let fr := digits (n mod 1000) in
  let fr := rev (strip_zeros (rev (zeros (3 - length fr) ++ fr))) in
  match fr with
  | [] => int
  | _ => int ++ "."%char :: fr
  end.

Definition en_US_toLocaleString (x : number) : string :=
  match Prim2SF x with
  | S754_nan => "NaN"
  | S754_zero s => if s then "-0" else "0"
  | S754_infinity s => if s then "-∞" else "∞"
  | S754_finite s m e =>
      let body := en_US_magnitude (mag m e) in
      str (if s then "-"%char :: body else body)
  end.

End JSNumber.

Export JSNumber.

Arguments toString : simpl never.
Arguments toFixed : simpl never.

(** ** The analysis document (analysis.json) *)

Module Data.

Record WordCount := { word : string; count : number }.

Record SharedWord := { shared_word : string; combined_count : number }.

Record SentimentBreakdown :=
  { positive : number; negative : number; neutral : number; compound : number }.

Record TextStats :=
  { total_words : number;
    unique_words : number;
    lexical_diversity : number;
    sentiment : SentimentBreakdown;
    top_words : list WordCount }.

Record ComparisonStats :=
  { overlap_percentage : number;
    total_shared_words : number;
    unique_to_folkard : number;
    unique_to_shakespeare : number;
    top_shared_words : list SharedWord }.

(** [texts] is a JSON array: nothing fixes its length, and indexing past its
    end yields undefined. *)
Record AnalysisDocument :=
  { texts : list TextStats; comparison : ComparisonStats }.

End Data.

(** ** The page *)

(** Nodes the script creates.  [Markup] is content assigned through innerHTML,
    kept as the assigned string. *)
Inductive Node :=
| TextNode (data : string)
| Markup (html : string)
| ElementNode (tag : string) (attrs : list (string * string))
    (css : list (string * string)) (children : list Node).

(** An element of the host page, as far as the script reads or writes it. *)
Record Element := mkElement
  { elem_id : option string;
    classList : list string;
    dataset_view : option string;
    style : gmap string string;
    childNodes : list Node }.

Definition set_classList (f : list string → list string) (e : Element) : Element :=
  mkElement (elem_id e) (f (classList e)) (dataset_view e) (style e) (childNodes e).

Definition set_style (f : gmap string string → gmap string string) (e : Element) : Element :=
  mkElement (elem_id e) (classList e) (dataset_view e) (f (style e)) (childNodes e).

Definition set_childNodes (f : list Node → list Node) (e : Element) : Element :=
  mkElement (elem_id e) (classList e) (dataset_view e) (style e) (f (childNodes e)).

Inductive JsError := TypeError | SyntaxError.

Inductive ConsoleEntry :=
| ConsoleLog (msg : string) (data : Data.AnalysisDocument)
| ConsoleError (msg : string) (error : JsError).

(** The environment a click listener of [setupNavigation] closes over. *)
Record NavListener :=
  { nav_buttons : list nat; nav_views : list nat; nav_button : nat }.

(** The page: its elements in document order (an element's handle is its
    position), the click listeners by target, the console, the alerts shown,
    the URLs fetched, and the script's global [analysisData] (null at first). *)
Record Page := mkPage
  { elems : list Element;
    listeners : list (nat * NavListener);
    console : list ConsoleEntry;
    alerts : list string;
    requests : list string;
    analysisData : option Data.AnalysisDocument }.

Definition set_elements (f : list Element → list Element) (p : Page) : Page :=
  mkPage (f (elems p)) (listeners p) (console p) (alerts p) (requests p) (analysisData p).

(** ** The monad of the script *)

Inductive Completion (A : Type) :=
| Normal (a : A)
| Throw (e : JsError).
Arguments Normal {A} a.
Arguments Throw {A} e.

Definition Js (A : Type) : Type := Page → Completion A * Page.

#[global] Instance Js_ret : MRet Js := λ A a p, (Normal a, p).

#[global] Instance Js_bind : MBind Js := λ A B k m p,
  match m p with
  | (Normal a, p') => k a p'
  | (Throw e, p') => (Throw e, p')
  end.

Definition throw {A} (e : JsError) : Js A := λ p, (Throw e, p).

Definition try_catch {A} (body : Js A) (handler : JsError → Js A) : Js A := λ p,
  match body p with
  | (Normal a, p') => (Normal a, p')
  | (Throw e, p') => handler e p'
  end.

Fixpoint forEach {A} (l : list A) (f : A → Js unit) : Js unit :=
  match l with
  | [] => mret ()
  | x :: l => f x ;; forEach l f
  end.

(** ** The DOM operations the script uses *)

Fixpoint find_id (id : string) (els : list Element) : option nat :=
  match els with
  | [] => None
  | e :: els => if decide (elem_id e = Some id) then Some 0%nat else S <$> find_id id els
  end.

Definition find_class (c : string) (els : list Element) : list nat :=
  fst <$> filter (λ ie, c ∈ classList ie.2) (imap pair els).

(** document.getElementById: the first element with the id, or null. *)
Definition getElementById (id : string) : Js (option nat) := λ p,
  (Normal (find_id id (elems p)), p).

(** document.querySelectorAll('.c'): a static list, in document order. *)
Definition querySelectorAll (c : string) : Js (list nat) := λ p,
  (Normal (find_class c (elems p)), p).

(** A property write [h.prop = v]: a TypeError when h is null. *)
Definition update (h : option nat) (f : Element → Element) : Js unit :=
  match h with
  | None => throw TypeError
  | Some i => λ p, (Normal (), set_elements (alter f i) p)
  end.

(** Setting textContent replaces the children by one text node (none for the
    empty string). *)
Definition text_content (s : string) : list Node :=
  if decide (s = "") then [] else [TextNode s].

Definition set_textContent (h : option nat) (s : string) : Js unit :=
  update h (set_childNodes (λ _, text_content s)).

(** [h.style.prop = v].  The style holds the value as assigned: how the CSS
    engine reads it is outside this model. *)
Definition set_style_property (h : option nat) (prop v : string) : Js unit :=
  update h (set_style (insert prop v)).

Definition clear_innerHTML (h : option nat) : Js unit :=
  update h (set_childNodes (λ _, [])).

Definition appendChild (h : option nat) (n : Node) : Js unit :=
  update h (set_childNodes (λ kids, kids ++ [n])).

Definition classList_remove (h : nat) (c : string) : Js unit :=
  update (Some h) (set_classList (filter (λ x, x ≠ c))).

Definition classList_add (h : nat) (c : string) : Js unit :=
  update (Some h) (set_classList (λ l, if decide (c ∈ l) then l else l ++ [c])).

Definition get_dataset_view (h : nat) : Js (option string) := λ p,
  (Normal (elems p !! h ≫= dataset_view), p).

Definition addEventListener (h : nat) (l : NavListener) : Js unit := λ p,
  (Normal (),
   mkPage (elems p) (listeners p ++ [(h, l)]) (console p) (alerts p) (requests p)
     (analysisData p)).

Definition console_log (msg : string) (d : Data.AnalysisDocument) : Js unit := λ p,
  (Normal (),
   mkPage (elems p) (listeners p) (console p ++ [ConsoleLog msg d]) (alerts p)
     (requests p) (analysisData p)).

Definition console_error (msg : string) (e : JsError) : Js unit := λ p,
  (Normal (),
   mkPage (elems p) (listeners p) (console p ++ [ConsoleError msg e]) (alerts p)
     (requests p) (analysisData p)).

Definition alert (msg : string) : Js unit := λ p,
  (Normal (),
   mkPage (elems p) (listeners p) (console p) (alerts p ++ [msg]) (requests p)
     (analysisData p)).

Definition set_analysisData (d : Data.AnalysisDocument) : Js unit := λ p,
  (Normal (),
   mkPage (elems p) (listeners p) (console p) (alerts p) (requests p) (Some d)).

(** Reading a property of the global: a TypeError while it is null. *)
Definition get_analysisData : Js Data.AnalysisDocument := λ p,
  match analysisData p with
  | Some d => (Normal d, p)
  | None => (Throw TypeError, p)
  end.

(** ** Reading the page back *)

(** What document.getElementById(id) denotes on the page. *)
Definition element_by_id (id : string) (p : Page) : option Element :=
  i ← find_id id (elems p); elems p !! i.

Definition nodes_of (id : string) (p : Page) : option (list Node) :=
  childNodes <$> element_by_id id p.

Definition style_of (id prop : string) (p : Page) : option string :=
  e ← element_by_id id p; style e !! prop.

(** The page has an element for each of the ids. *)
Definition has_ids (ids : list string) (p : Page) : Prop :=
  Forall (λ id, is_Some (find_id id (elems p))) ids.

(** The element written through getElementById(id), when there is one. *)
Definition write (id : string) (f : Element → Element) (els : list Element) : list Element :=
  match find_id id els with
  | Some i => alter f i els
  | None => els
  end.

(** ** The network *)

(** A response body either fails to parse as JSON or parses to a document.
    A body that parses to another JSON value (null, an object without the
    document's fields) is not represented: the documents here have the
    fields of the data model, and any number of texts. *)
Inductive Body :=
| NotJson
| Json (d : Data.AnalysisDocument).

Record Response := { status : nat; body : Body }.

(** fetch either rejects (a transport error) or resolves with a response,
    whatever its status. *)
Inductive FetchOutcome :=
| NetworkError
| Responded (r : Response).

Definition Network := string → FetchOutcome.

Definition fetch (net : Network) (url : string) : Js Response := λ p,
  let p' := mkPage (elems p) (listeners p) (console p) (alerts p)
              (requests p ++ [url]) (analysisData p) in
  match net url with
  | NetworkError => (Throw TypeError, p')
  | Responded r => (Normal r, p')
  end.

(** response.json() *)
Definition json (r : Response) : Js Data.AnalysisDocument :=
  match body r with
  | NotJson => throw SyntaxError
  | Json d => mret d
  end.

(** ** D3 selections, as far as the chart uses them *)

(** The chart is built in place by chained calls on a selection; the calls are
    synchronous, so only the finished tree is observable and the chain is
    modelled as building that tree. *)
Module d3.

Definition create (tag : string) : Node := ElementNode tag [] [] [].

Fixpoint assoc_set (k v : string) (l : list (string * string)) : list (string * string) :=
  match l with
  | [] => [(k, v)]
  | (k', v') :: l => if String.eqb k' k then (k, v) :: l else (k', v') :: assoc_set k v l
  end.

Definition attr (name value : string) (n : Node) : Node :=
  match n with
  | ElementNode tag attrs css kids => ElementNode tag (assoc_set name value attrs) css kids
  | _ => n
  end.

Definition style (name value : string) (n : Node) : Node :=
  match n with
  | ElementNode tag attrs css kids => ElementNode tag attrs (assoc_set name value css) kids
  | _ => n
  end.

Definition text (s : string) (n : Node) : Node :=
  match n with
  | ElementNode tag attrs css _ => ElementNode tag attrs css (text_content s)
  | _ => n
  end.

Definition append (child : Node) (n : Node) : Node :=
  match n with
  | ElementNode tag attrs css kids => ElementNode tag attrs css (kids ++ [child])
  | _ => n
  end.

(** d3.select('#id').append(node): nothing happens on an empty selection. *)
Definition select_append (id : string) (n : Node) : Js unit :=
  h ← getElementById id;
  match h with
  | None => mret ()
  | Some _ => appendChild h n
  end.

End d3.

Notation "n |> f" := (f n) (at level 45, left associativity, only parsing).

(** ** app.js *)

Definition nl : string := String (ascii_of_nat 10) "".
Definition dq : string := String (ascii_of_nat 34) "".
Definition spaces (k : nat) : string := string_of_list_ascii (replicate k " "%char).

(** Reading a property of a value that may be undefined (an array item past
    the end): a TypeError on undefined. *)
Definition get {A B} (o : option A) (f : A → B) : Js B :=
  match o with
  | Some a => mret (f a)
  | None => throw TypeError
  end.

(** The listener [setupNavigation] attaches to [button]. *)
Definition navClick (navButtons views : list nat) (button : nat) : Js unit :=
  viewName ← get_dataset_view button;
  (* Update active button *)
  forEach navButtons (λ btn, classList_remove btn "active");;
  classList_add button "active";;
  (* Show corresponding view *)
  forEach views (λ view, set_style_property (Some view) "display" "none");;
  target ← getElementById ("view-" +:+ default "undefined" viewName);
  set_style_property target "display" "block".

Definition setupNavigation : Js unit :=
  navButtons ← querySelectorAll "nav-btn";
  views ← querySelectorAll "text-view";
  forEach navButtons (λ button,
    addEventListener button
      {| nav_buttons := navButtons; nav_views := views; nav_button := button |}).

(** A click on the element [target]: its listeners run in the order they were
    attached; an exception ends the listener that threw it and nothing else.
    The [console] of the page holds what the script logs: what the host
    reports of an exception no listener caught is not recorded. *)
Definition run_listener (l : NavListener) : Js unit :=
  navClick (nav_buttons l) (nav_views l) (nav_button l).

Definition click (target : nat) (p : Page) : Page :=
  foldl (λ q hl, if decide (hl.1 = target) then (run_listener hl.2 q).2 else q)
    p (listeners p).

(** The div a populator creates for one entry: class word-item, and the two
    spans assigned through innerHTML. *)
Definition word_item_html (w c : string) : string :=
  nl +:+ spaces 12 +:+ "<span class=" +:+ dq +:+ "word-text" +:+ dq +:+ ">" +:+ w +:+ "</span>"
  +:+ nl +:+ spaces 12 +:+ "<span class=" +:+ dq +:+ "word-count" +:+ dq +:+ ">" +:+ c +:+ "</span>"
  +:+ nl +:+ spaces 8.

Definition word_item (w c : string) : Node :=
  ElementNode "div" [("class", "word-item")] [] [Markup (word_item_html w c)].

Section App.

(** The host's Number.prototype.toLocaleString() under the page's locale. *)
Variable toLocaleString : number → string.

Definition populateFolkardView : Js unit :=
  analysisData ← get_analysisData;
  let folkardData := Data.texts analysisData !! 0%nat in
  (* Statistics *)
  e ← getElementById "folkard-total-words";
  v ← get folkardData Data.total_words;
  set_textContent e (toLocaleString v);;
  e ← getElementById "folkard-unique-words";
  v ← get folkardData Data.unique_words;
  set_textContent e (toLocaleString v);;
  e ← getElementById "folkard-lexical-diversity";
  v ← get folkardData Data.lexical_diversity;
  set_textContent e (toFixed (v * 100)%float 2 +:+ "%");;
  (* Sentiment *)
  sent ← get folkardData Data.sentiment;
  e ← getElementById "folkard-sent-pos";
  set_style_property e "width" (toString (Data.positive sent * 100)%float +:+ "%");;
  e ← getElementById "folkard-sent-pos-val";
  set_textContent e (toFixed (Data.positive sent * 100)%float 1 +:+ "%");;
  e ← getElementById "folkard-sent-neg";
  set_style_property e "width" (toString (Data.negative sent * 100)%float +:+ "%");;
  e ← getElementById "folkard-sent-neg-val";
  set_textContent e (toFixed (Data.negative sent * 100)%float 1 +:+ "%");;
  e ← getElementById "folkard-sent-neu";
  set_style_property e "width" (toString (Data.neutral sent * 100)%float +:+ "%");;
  e ← getElementById "folkard-sent-neu-val";
  set_textContent e (toFixed (Data.neutral sent * 100)%float 1 +:+ "%");;
  e ← getElementById "folkard-sent-compound";
  set_textContent e (toFixed (Data.compound sent) 3);;
  (* Top words *)
  topWordsContainer ← getElementById "folkard-top-words";
  top_words ← get folkardData Data.top_words;
  forEach (take 30 top_words) (λ item,
    let wordDiv := word_item (Data.word item) (toString (Data.count item)) in
    appendChild topWordsContainer wordDiv).

Definition populateShakespeareView : Js unit :=
  analysisData ← get_analysisData;
  let shakespeareData := Data.texts analysisData !! 1%nat in
  (* Statistics *)
  e ← getElementById "shakespeare-total-words";
  v ← get shakespeareData Data.total_words;
  set_textContent e (toLocaleString v);;
  e ← getElementById "shakespeare-unique-words";
  v ← get shakespeareData Data.unique_words;
  set_textContent e (toLocaleString v);;
  e ← getElementById "shakespeare-lexical-diversity";
  v ← get shakespeareData Data.lexical_diversity;
  set_textContent e (toFixed (v * 100)%float 2 +:+ "%");;
  (* Sentiment *)
  sent ← get shakespeareData Data.sentiment;
  e ← getElementById "shakespeare-sent-pos";
  set_style_property e "width" (toString (Data.positive sent * 100)%float +:+ "%");;
  e ← getElementById "shakespeare-sent-pos-val";
  set_textContent e (toFixed (Data.positive sent * 100)%float 1 +:+ "%");;
  e ← getElementById "shakespeare-sent-neg";
  set_style_property e "width" (toString (Data.negative sent * 100)%float +:+ "%");;
  e ← getElementById "shakespeare-sent-neg-val";
  set_textContent e (toFixed (Data.negative sent * 100)%float 1 +:+ "%");;
  e ← getElementById "shakespeare-sent-neu";
  set_style_property e "width" (toString (Data.neutral sent * 100)%float +:+ "%");;
  e ← getElementById "shakespeare-sent-neu-val";
  set_textContent e (toFixed (Data.neutral sent * 100)%float 1 +:+ "%");;
  e ← getElementById "shakespeare-sent-compound";
  set_textContent e (toFixed (Data.compound sent) 3);;
  (* Top words *)
  topWordsContainer ← getElementById "shakespeare-top-words";
  top_words ← get shakespeareData Data.top_words;
  forEach (take 30 top_words) (λ item,
    let wordDiv := word_item (Data.word item) (toString (Data.count item)) in
    appendChild topWordsContainer wordDiv).

(** The svg [createVennDiagram] draws, in the order of its append calls. *)
Definition vennSvg (comparison : Data.ComparisonStats) : Node :=
  let width := 600%float in
  let height := 400%float in
  let svg := d3.create "svg"
    |> d3.attr "width" (toString width)
    |> d3.attr "height" (toString height)
    |> d3.attr "viewBox" ("0 0 " +:+ toString width +:+ " " +:+ toString height)
    |> d3.style "max-width" "100%"
    |> d3.style "height" "auto" in
  (* Venn diagram circles *)
  let radius := 120%float in
  let circleSpacing := 80%float in
  (* Folkard circle (left) *)
  let folkardX := (width / 2 - circleSpacing)%float in
  let folkardY := (height / 2)%float in
  (* Shakespeare circle (right) *)
  let shakespeareX := (width / 2 + circleSpacing)%float in
  let shakespeareY := (height / 2)%float in
  svg
  (* Draw circles *)
  |> d3.append (d3.create "circle"
       |> d3.attr "cx" (toString folkardX)
       |> d3.attr "cy" (toString folkardY)
       |> d3.attr "r" (toString radius)
       |> d3.attr "class" "venn-circle"
       |> d3.style "fill" "#8A9A8B")
  |> d3.append (d3.create "circle"
       |> d3.attr "cx" (toString shakespeareX)
       |> d3.attr "cy" (toString shakespeareY)
       |> d3.attr "r" (toString radius)
       |> d3.attr "class" "venn-circle"
       |> d3.style "fill" "#B08F8F")
  (* Labels *)
  |> d3.append (d3.create "text"
       |> d3.attr "x" (toString (folkardX - 70)%float)
       |> d3.attr "y" (toString (folkardY - radius - 20)%float)
       |> d3.attr "class" "venn-label"
       |> d3.attr "text-anchor" "middle"
       |> d3.text "Folkard")
  |> d3.append (d3.create "text"
       |> d3.attr "x" (toString (shakespeareX + 70)%float)
       |> d3.attr "y" (toString (shakespeareY - radius - 20)%float)
       |> d3.attr "class" "venn-label"
       |> d3.attr "text-anchor" "middle"
       |> d3.text "Shakespeare")
  (* Counts *)
  |> d3.append (d3.create "text"
       |> d3.attr "x" (toString (folkardX - 70)%float)
       |> d3.attr "y" (toString folkardY)
       |> d3.attr "class" "venn-count"
       |> d3.attr "text-anchor" "middle"
       |> d3.text (toLocaleString (Data.unique_to_folkard comparison)))
  |> d3.append (d3.create "text"
       |> d3.attr "x" (toString (shakespeareX + 70)%float)
       |> d3.attr "y" (toString shakespeareY)
       |> d3.attr "class" "venn-count"
       |> d3.attr "text-anchor" "middle"
       |> d3.text (toLocaleString (Data.unique_to_shakespeare comparison)))
  (* Overlap count *)
  |> d3.append (d3.create "text"
       |> d3.attr "x" (toString (width / 2)%float)
       |> d3.attr "y" (toString (height / 2)%float)
       |> d3.attr "class" "venn-count"
       |> d3.attr "text-anchor" "middle"
       |> d3.style "fill" "#6B394A"
       |> d3.text (toLocaleString (Data.total_shared_words comparison)))
  |> d3.append (d3.create "text"
       |> d3.attr "x" (toString (width / 2)%float)
       |> d3.attr "y" (toString (height / 2 + 30)%float)
       |> d3.attr "class" "venn-label"
       |> d3.attr "text-anchor" "middle"
       |> d3.style "font-size" "12px"
       |> d3.text "Shared").

Definition createVennDiagram (comparison : Data.ComparisonStats) : Js unit :=
  container ← getElementById "overlap-chart";
  (* Clear existing content *)
  clear_innerHTML container;;
  d3.select_append "overlap-chart" (vennSvg comparison).

Definition populateComparisonView : Js unit :=
  analysisData ← get_analysisData;
  let comparison := Data.comparison analysisData in
  (* Overlap statistics *)
  e ← getElementById "overlap-percent";
  set_textContent e (toFixed (Data.overlap_percentage comparison) 2 +:+ "%");;
  e ← getElementById "overlap-detail";
  set_textContent e
    (toLocaleString (Data.total_shared_words comparison) +:+ " shared words • "
     +:+ toLocaleString (Data.unique_to_folkard comparison) +:+ " unique to Folkard • "
     +:+ toLocaleString (Data.unique_to_shakespeare comparison) +:+ " unique to Shakespeare");;
  (* Create Venn diagram visualization *)
  createVennDiagram comparison;;
  (* Shared words *)
  sharedWordsContainer ← getElementById "shared-words";
  forEach (take 30 (Data.top_shared_words comparison)) (λ item,
    let wordDiv :=
      word_item (Data.shared_word item) (toString (Data.combined_count item)) in
    appendChild sharedWordsContainer wordDiv).

(** The DOMContentLoaded listener: load the analysis data, then initialise
    the interface; any exception of the try block lands in the catch. *)
Definition onDOMContentLoaded (net : Network) : Js unit :=
  try_catch
    (response ← fetch net "analysis.json";
     data ← json response;
     set_analysisData data;;
     console_log "Analysis data loaded:" data;;
     (* Initialize interface *)
     populateFolkardView;;
     populateShakespeareView;;
     populateComparisonView;;
     setupNavigation)
    (λ error,
     console_error "Error loading analysis data:" error;;
     alert "Failed to load analysis data. Please ensure analysis.json exists.").

End App.

(** ** Vocabulary for the statements *)

(** A write keeps the id of the element it is applied to. *)
Class PreservesId (f : Element → Element) : Prop :=
  preserves_id : ∀ e, elem_id (f e) = elem_id e.

(** Writes by id, applied in order, and what they do to the element of one id. *)
Definition apply_writes (ws : list (string * (Element → Element))) (p : Page) : Page :=
  foldl (λ q w, set_elements (write w.1 w.2) q) p ws.

Fixpoint write_for (id : string) (ws : list (string * (Element → Element))) (e : Element)
  : Element :=
  match ws with
  | [] => e
  | w :: ws => write_for id ws (if String.eqb w.1 id then w.2 e else e)
  end.

Definition preserve_ids (ws : list (string * (Element → Element))) : Prop :=
  Forall (λ w, PreservesId w.2) ws.

Definition alter_all (f : Element → Element) (l : list nat) (els : list Element)
  : list Element :=
  foldl (λ acc h, alter f h acc) els l.

(** The ids a corpus populator addresses, and those of the comparison view. *)
Definition text_view_ids (prefix : string) : list string :=
  (λ s, prefix +:+ s) <$>
  [ "-total-words"; "-unique-words"; "-lexical-diversity"; "-sent-pos"; "-sent-pos-val";
    "-sent-neg"; "-sent-neg-val"; "-sent-neu"; "-sent-neu-val"; "-sent-compound";
    "-top-words" ].

Definition comparison_ids : list string :=
  [ "overlap-percent"; "overlap-detail"; "overlap-chart"; "shared-words" ].

Definition page_ids : list string :=
  text_view_ids "folkard" ++ text_view_ids "shakespeare" ++ comparison_ids.

(** The word-item nodes of a list of entries, in the list's order. *)
Definition word_nodes (l : list Data.WordCount) : list Node :=
  (λ item, word_item (Data.word item) (toString (Data.count item))) <$> l.

Definition shared_nodes (l : list Data.SharedWord) : list Node :=
  (λ item, word_item (Data.shared_word item) (toString (Data.combined_count item))) <$> l.

(** The document the spec describes has exactly two texts. *)
Definition well_formed (d : Data.AnalysisDocument) : Prop :=
  length (Data.texts d) = 2%nat.

(** The load fails in transport or in parsing: fetch rejects, or the body is
    not JSON. *)
Definition transport_or_parse_failure (net : Network) : Prop :=
  match net "analysis.json" with
  | NetworkError => True
  | Responded r => body r = NotJson
  end.

(** The fetch fails, or the response is not a document of the expected
    structure. *)
Definition load_failure (net : Network) : Prop :=
  match net "analysis.json" with
  | NetworkError => True
  | Responded r =>
      match body r with
      | NotJson => True
      | Json d => ¬ well_formed d
      end
  end.

(** The exception fetch or response.json() raises on such a failure. *)
Definition load_error (net : Network) : JsError :=
  match net "analysis.json" with
  | NetworkError => TypeError
  | Responded _ => SyntaxError
  end.

(** The page after the catch block alone: the error logged, the alert shown,
    one request made; elements, listeners and [analysisData] as before. *)
Definition failure_reported (e : JsError) (p : Page) : Page :=
  mkPage (elems p) (listeners p)
    (console p ++ [ConsoleError "Error loading analysis data:" e])
    (alerts p ++ ["Failed to load analysis data. Please ensure analysis.json exists."])
    (requests p ++ ["analysis.json"]) (analysisData p).

(** The page once the document is stored and logged, before any populator. *)
Definition loaded (d : Data.AnalysisDocument) (p : Page) : Page :=
  mkPage (elems p) (listeners p) (console p ++ [ConsoleLog "Analysis data loaded:" d])
    (alerts p) (requests p ++ ["analysis.json"]) (Some d).

(** *** Navigation *)

(** The container the listener of [button] shows, if the page has it. *)
Definition nav_target (button : nat) (els : list Element) : option nat :=
  find_id ("view-" +:+ default "undefined" (els !! button ≫= dataset_view)) els.

(** What a click on [button] does to the element at position j. *)
Definition nav_effect (navButtons views : list nat) (button : nat) (target : option nat)
    (j : nat) (e : Element) : Element :=
  let remove := filter (λ x, x ≠ "active") in
  let add (l : list string) := if decide ("active" ∈ l) then l else l ++ ["active"] in
  set_style
    (λ s, if decide (target = Some j) then <["display" := "block"]> s
          else if decide (j ∈ views) then <["display" := "none"]> s else s)
    (set_classList
       (λ l, let l' := if decide (j ∈ navButtons) then remove l else l in
             if decide (j = button) then add l' else l')
       e).

(** The listeners [setupNavigation] attaches: one per selector, each closing
    over the same two static lists. *)
Definition nav_listeners (els : list Element) : list (nat * NavListener) :=
  let navButtons := find_class "nav-btn" els in
  let views := find_class "text-view" els in
  (λ b, (b, {| nav_buttons := navButtons; nav_views := views; nav_button := b |}))
    <$> navButtons.

Definition add_listeners (ls : list (nat * NavListener)) (p : Page) : Page :=
  mkPage (elems p) (listeners p ++ ls) (console p) (alerts p) (requests p) (analysisData p).

(** *** Reading the chart *)

Definition attr_of (name : string) (n : Node) : option string :=
  match n with
  | ElementNode _ attrs _ _ => (λ r, r.2.2) <$> list_find (λ kv, kv.1 = name) attrs
  | _ => None
  end.

Definition tag_of (n : Node) : option string :=
  match n with
  | ElementNode tag _ _ _ => Some tag
  | _ => None
  end.

Definition children_of (n : Node) : list Node :=
  match n with
  | ElementNode _ _ _ kids => kids
  | _ => []
  end.

(** The centre (cx, cy) of a circle and the anchor (x, y) of a text. *)
Definition centre (n : Node) : option string * option string :=
  (attr_of "cx" n, attr_of "cy" n).

Definition anchor (n : Node) : option string * option string :=
  (attr_of "x" n, attr_of "y" n).



(** The script never unsets [analysisData] and never removes a console line. *)
Definition extends (p q : Page) : Prop :=
  analysisData q = analysisData p ∧ console p `prefix_of` console q.

Definition monotone {A} (m : Js A) : Prop := ∀ p, extends p (m p).2.

Definition appended (id : string) (new : list Node) (p p' : Page) : Prop :=
  nodes_of id p' = (λ kids, kids ++ new) <$> nodes_of id p.


(** [m], run twice in a row on [p], appends [new] to the container each time. *)
Definition appends_each_time (m : Js unit) (id : string) (new : list Node) (p : Page) : Prop :=
  ∃ p1 p2, m p = (Normal (), p1) ∧ m p1 = (Normal (), p2)
    ∧ appended id new p p1 ∧ appended id (new ++ new) p p2.

(** The bar's width and the label's text, both from the one product f·100. *)
Definition bar_and_label (bar label : string) (f : number) (p : Page) : Prop :=
  let y := (f * 100)%float in
  style_of bar "width" p = Some (toString y +:+ "%")
  ∧ nodes_of label p = Some [TextNode (toFixed y 1 +:+ "%")].

(** toFixed(1) of a value printed in fixed notation is the decimal n/10
    nearest to it, for an integer n. *)
Definition rounds_to_one_decimal (y : number) : Prop :=
  ∀ v, fixed_value y = Some v →
    ∃ n : Z,
      toFixed y 1 = str ((if Qlt_bool v 0 then ["-"%char] else []) ++ fixed_layout 1 n)
      ∧ (Qabs (inject_Z n / 10 - Qabs v) <= 1 # 20)%Q.

(** An integer part, a point, and exactly two fraction digits. *)
Definition two_decimals (s : string) : Prop :=
  ∃ int frac, s = str (int ++ "."%char :: frac)
    ∧ length frac = 2%nat ∧ int ≠ []
    ∧ forallb is_digit int = true ∧ forallb is_digit frac = true.

Section Specification.

Variable toLocaleString : number → string.

(** The two corpus populators are one function of the id prefix and of the
    index into [texts]. *)
Definition populateTextView (prefix : string) (index : nat) : Js unit :=
  analysisData ← get_analysisData;
  let data := Data.texts analysisData !! index in
  e ← getElementById (prefix +:+ "-total-words");
  v ← get data Data.total_words;
  set_textContent e (toLocaleString v);;
  e ← getElementById (prefix +:+ "-unique-words");
  v ← get data Data.unique_words;
  set_textContent e (toLocaleString v);;
  e ← getElementById (prefix +:+ "-lexical-diversity");
  v ← get data Data.lexical_diversity;
  set_textContent e (toFixed (v * 100)%float 2 +:+ "%");;
  sent ← get data Data.sentiment;
  e ← getElementById (prefix +:+ "-sent-pos");
  set_style_property e "width" (toString (Data.positive sent * 100)%float +:+ "%");;
  e ← getElementById (prefix +:+ "-sent-pos-val");
  set_textContent e (toFixed (Data.positive sent * 100)%float 1 +:+ "%");;
  e ← getElementById (prefix +:+ "-sent-neg");
  set_style_property e "width" (toString (Data.negative sent * 100)%float +:+ "%");;
  e ← getElementById (prefix +:+ "-sent-neg-val");
  set_textContent e (toFixed (Data.negative sent * 100)%float 1 +:+ "%");;
  e ← getElementById (prefix +:+ "-sent-neu");
  set_style_property e "width" (toString (Data.neutral sent * 100)%float +:+ "%");;
  e ← getElementById (prefix +:+ "-sent-neu-val");
  set_textContent e (toFixed (Data.neutral sent * 100)%float 1 +:+ "%");;
  e ← getElementById (prefix +:+ "-sent-compound");
  set_textContent e (toFixed (Data.compound sent) 3);;
  topWordsContainer ← getElementById (prefix +:+ "-top-words");
  top_words ← get data Data.top_words;
  forEach (take 30 top_words) (λ item,
    let wordDiv := word_item (Data.word item) (toString (Data.count item)) in
    appendChild topWordsContainer wordDiv).

(** The writes of a corpus populator, by id, in program order. *)
Definition text_view_writes (prefix : string) (t : Data.TextStats)
  : list (string * (Element → Element)) :=
  let sent := Data.sentiment t in
  let txt s := set_childNodes (λ _, text_content s) in
  let width s := set_style (insert "width" s) in
  [ (prefix +:+ "-total-words", txt (toLocaleString (Data.total_words t)));
    (prefix +:+ "-unique-words", txt (toLocaleString (Data.unique_words t)));
    (prefix +:+ "-lexical-diversity",
       txt (toFixed (Data.lexical_diversity t * 100)%float 2 +:+ "%"));
    (prefix +:+ "-sent-pos", width (toString (Data.positive sent * 100)%float +:+ "%"));
    (prefix +:+ "-sent-pos-val", txt (toFixed (Data.positive sent * 100)%float 1 +:+ "%"));
    (prefix +:+ "-sent-neg", width (toString (Data.negative sent * 100)%float +:+ "%"));
    (prefix +:+ "-sent-neg-val", txt (toFixed (Data.negative sent * 100)%float 1 +:+ "%"));
    (prefix +:+ "-sent-neu", width (toString (Data.neutral sent * 100)%float +:+ "%"));
    (prefix +:+ "-sent-neu-val", txt (toFixed (Data.neutral sent * 100)%float 1 +:+ "%"));
    (prefix +:+ "-sent-compound", txt (toFixed (Data.compound sent) 3));
    (prefix +:+ "-top-words",
       set_childNodes (λ kids, kids ++ word_nodes (take 30 (Data.top_words t)))) ].

(** The summary line of the comparison view. *)
Definition overlap_detail (c : Data.ComparisonStats) : string :=
  toLocaleString (Data.total_shared_words c) +:+ " shared words • "
  +:+ toLocaleString (Data.unique_to_folkard c) +:+ " unique to Folkard • "
  +:+ toLocaleString (Data.unique_to_shakespeare c) +:+ " unique to Shakespeare".

Definition chart_writes (c : Data.ComparisonStats) : list (string * (Element → Element)) :=
  [ ("overlap-chart", set_childNodes (λ _, []));
    ("overlap-chart", set_childNodes (λ kids, kids ++ [vennSvg toLocaleString c])) ].

Definition comparison_writes (c : Data.ComparisonStats)
  : list (string * (Element → Element)) :=
  [ ("overlap-percent",
       set_childNodes (λ _, text_content (toFixed (Data.overlap_percentage c) 2 +:+ "%")));
    ("overlap-detail", set_childNodes (λ _, text_content (overlap_detail c))) ]
  ++ chart_writes c
  ++ [ ("shared-words",
          set_childNodes (λ kids, kids ++ shared_nodes (take 30 (Data.top_shared_words c)))) ].

(** All the writes of a successful initialisation, in program order. *)
Definition page_writes (d : Data.AnalysisDocument) (t0 t1 : Data.TextStats)
  : list (string * (Element → Element)) :=
  text_view_writes "folkard" t0 ++ text_view_writes "shakespeare" t1
  ++ comparison_writes (Data.comparison d).

(** The interface initialisation of the try block, and the catch block. *)
Definition initialise : Js unit :=
  populateFolkardView toLocaleString;;
  populateShakespeareView toLocaleString;;
  populateComparisonView toLocaleString;;
  setupNavigation.

Definition report (error : JsError) : Js unit :=
  console_error "Error loading analysis data:" error;;
  alert "Failed to load analysis data. Please ensure analysis.json exists.".

End Specification.

(** ** A page and a document to run the script on *)

Module Sample.

Definition slot (id : string) : Element := mkElement (Some id) [] None ∅ [].

Definition nav_btn (view : string) (classes : list string) : Element :=
  mkElement None ("nav-btn" :: classes) (Some view) ∅ [].

Definition text_view (id : string) (display : gmap string string) : Element :=
  mkElement (Some id) ["text-view"] None display [].

(** Three selectors and three views, the Folkard one shown at first, and every
    slot the populators address. *)
Definition page_elements : list Element :=
  [ nav_btn "folkard" ["active"]; nav_btn "shakespeare" []; nav_btn "comparison" [];
    text_view "view-folkard" ∅;
    text_view "view-shakespeare" {[ "display" := "none" ]};
    text_view "view-comparison" {[ "display" := "none" ]} ]
  ++ (slot <$>
      [ "folkard-total-words"; "folkard-unique-words"; "folkard-lexical-diversity";
        "folkard-sent-pos"; "folkard-sent-pos-val"; "folkard-sent-neg";
        "folkard-sent-neg-val"; "folkard-sent-neu"; "folkard-sent-neu-val";
        "folkard-sent-compound"; "folkard-top-words";
        "shakespeare-total-words"; "shakespeare-unique-words";
        "shakespeare-lexical-diversity";
        "shakespeare-sent-pos"; "shakespeare-sent-pos-val"; "shakespeare-sent-neg";
        "shakespeare-sent-neg-val"; "shakespeare-sent-neu"; "shakespeare-sent-neu-val";
        "shakespeare-sent-compound"; "shakespeare-top-words";
        "overlap-percent"; "overlap-detail"; "overlap-chart"; "shared-words" ]).

Definition page : Page := mkPage page_elements [] [] [] [] None.

Definition folkard : Data.TextStats :=
  {| Data.total_words := 150000; Data.unique_words := 12000;
     Data.lexical_diversity := 0.08;
     Data.sentiment :=
       {| Data.positive := 0.2; Data.negative := 0.1; Data.neutral := 0.7;
          Data.compound := 0.15 |};
     Data.top_words := [ {| Data.word := "rose"; Data.count := 500 |} ] |}.

Definition shakespeare : Data.TextStats :=
  {| Data.total_words := 90000; Data.unique_words := 9000;
     Data.lexical_diversity := 0.1;
     Data.sentiment :=
       {| Data.positive := 0.07; Data.negative := 0.05; Data.neutral := 0.88;
          Data.compound := -0.25 |};
     Data.top_words :=
       [ {| Data.word := "flower"; Data.count := 300 |};
         {| Data.word := "garden"; Data.count := 120 |} ] |}.

Definition comparison : Data.ComparisonStats :=
  {| Data.overlap_percentage := 33.33; Data.total_shared_words := 2000;
     Data.unique_to_folkard := 5000; Data.unique_to_shakespeare := 3000;
     Data.top_shared_words :=
       [ {| Data.shared_word := "rose"; Data.combined_count := 640 |} ] |}.

Definition document : Data.AnalysisDocument :=
  {| Data.texts := [folkard; shakespeare]; Data.comparison := comparison |}.

(** A JSON body with the comparison and only the first of the two texts. *)
Definition one_text : Data.AnalysisDocument :=
  {| Data.texts := [folkard]; Data.comparison := comparison |}.

Definition serves (status : nat) (b : Body) : Network :=
  λ _, Responded {| status := status; body := b |}.

Definition offline : Network := λ _, NetworkError.

End Sample.

Definition sample_run : Completion () * Page :=
  onDOMContentLoaded en_US_toLocaleString (Sample.serves 200 (Json Sample.document))
    Sample.page.

(** ** Vocabulary for the further properties *)

(** The ten statistic slots of a corpus view, in the order the populator
    writes them; its eleventh id is the top-words container. *)
Definition statistic_ids (prefix : string) : list string :=
  (λ s, prefix +:+ s) <$>
  [ "-total-words"; "-unique-words"; "-lexical-diversity"; "-sent-pos"; "-sent-pos-val";
    "-sent-neg"; "-sent-neg-val"; "-sent-neu"; "-sent-neu-val"; "-sent-compound" ].

(** How many of the leading [ids] the page has: how far a script that writes
    to them in this order gets before getElementById returns null. *)
Fixpoint slots_found (ids : list string) (els : list Element) : nat :=
  match ids with
  | [] => 0
  | id :: ids => match find_id id els with Some _ => S (slots_found ids els) | None => 0 end
  end.

(** What a populator may do to an element: nothing but to its children and to
    its width, and nothing at all unless its id is one of the populator's. *)
Definition slot_write_only (ids : list string) (e e' : Element) : Prop :=
  elem_id e' = elem_id e ∧ classList e' = classList e ∧ dataset_view e' = dataset_view e
  ∧ (∀ k, k ≠ "width" → style e' !! k = style e !! k)
  ∧ (elem_id e ∉ Some <$> ids → e' = e).

(** [m] is such a script on every page, and leaves the rest of the page
    alone. *)
Definition writes_slots_only (ids : list string) (m : Js unit) : Prop :=
  ∀ p, let q := (m p).2 in
    Forall2 (slot_write_only ids) (elems p) (elems q)
    ∧ listeners q = listeners p ∧ console q = console p ∧ alerts q = alerts p
    ∧ requests q = requests p ∧ analysisData q = analysisData p.

(** A write of that kind. *)
Class SlotWrite (f : Element → Element) : Prop :=
  slot_write : ∀ e, elem_id (f e) = elem_id e ∧ classList (f e) = classList e
    ∧ dataset_view (f e) = dataset_view e
    ∧ ∀ k, k ≠ "width" → style (f e) !! k = style e !! k.

(** The elements aside, the page is as it was. *)
Definition same_session (p q : Page) : Prop :=
  listeners q = listeners p ∧ console q = console p ∧ alerts q = alerts p
  ∧ requests q = requests p ∧ analysisData q = analysisData p.

(** The catch block of the loader has run: the alert is shown and the
    exception is the last line of the console. *)
Definition reported_as_failed (p q : Page) : Prop :=
  alerts q = alerts p ++ ["Failed to load analysis data. Please ensure analysis.json exists."]
  ∧ ∃ e, last (console q) = Some (ConsoleError "Error loading analysis data:" e).

(** What a click may do to an element: nothing but to its display and to
    whether it is marked active. *)
Definition selection_only (e e' : Element) : Prop :=
  elem_id e' = elem_id e ∧ dataset_view e' = dataset_view e ∧ childNodes e' = childNodes e
  ∧ (∀ k, k ≠ "display" → style e' !! k = style e !! k)
  ∧ (∀ c, c ≠ "active" → c ∈ classList e' ↔ c ∈ classList e).

(** A style property set on a chart node. *)
Definition css_of (name : string) (n : Node) : option string :=
  match n with
  | ElementNode _ _ css _ => (λ r, r.2.2) <$> list_find (λ kv, kv.1 = name) css
  | _ => None
  end.

(** A sign or none, an integer part, a point and exactly f fraction digits. *)
Definition decimals (f : nat) (s : string) : Prop :=
  ∃ sign int frac, s = str (sign ++ int ++ "."%char :: frac)
    ∧ (sign = [] ∨ sign = ["-"%char])
    ∧ length frac = f ∧ int ≠ []
    ∧ forallb is_digit int = true ∧ forallb is_digit frac = true.

(** [m], run twice in a row on [p], leaves each of the slots [ids] after the
    second run as it was after the first. *)
Definition overwrites_each_time (m : Js unit) (ids : list string) (p : Page) : Prop :=
  ∃ p1 p2, m p = (Normal (), p1) ∧ m p1 = (Normal (), p2)
    ∧ Forall (λ id, is_Some (element_by_id id p1)
                    ∧ element_by_id id p2 = element_by_id id p1) ids.

(** A corpus populator ends normally exactly when the page has its ten
    statistic slots and, unless there is no word to show, its top-words
    container; otherwise it throws a TypeError. *)
Definition completes_iff_slots (m : Js unit) (prefix : string) (t : Data.TextStats)
    (p : Page) : Prop :=
  ((m p).1 = Normal () ∨ (m p).1 = Throw TypeError)
  ∧ ((m p).1 = Normal ()
     ↔ has_ids (statistic_ids prefix) p
       ∧ (Data.top_words t = [] ∨ is_Some (find_id (prefix +:+ "-top-words") (elems p)))).

Section FurtherSpecification.

Variable toLocaleString : number → string.

(** A corpus populator that throws has made the writes that come before the
    first statistic slot the page lacks, in program order, and no other: the
    slots from that one on are as they were. *)
Definition stops_at_first_missing_slot (m : Js unit) (prefix : string) (t : Data.TextStats)
    (p : Page) : Prop :=
  let ws := text_view_writes toLocaleString prefix t in
  let n := slots_found (statistic_ids prefix) (elems p) in
  ((m p).1 = Normal () → (m p).2 = apply_writes ws p)
  ∧ ((m p).1 = Throw TypeError →
     (m p).2 = apply_writes (take n ws) p
     ∧ ∀ id, id ∈ drop n (text_view_ids prefix) →
         element_by_id id (m p).2 = element_by_id id p).

(** The statistic slots of a corpus view. *)
Definition statistics_rendered (prefix : string) (t : Data.TextStats) (q : Page) : Prop :=
  let diversity := (Data.lexical_diversity t * 100)%float in
  let compound := Data.compound (Data.sentiment t) in
  nodes_of (prefix +:+ "-total-words") q
  = Some (text_content (toLocaleString (Data.total_words t)))
  ∧ nodes_of (prefix +:+ "-unique-words") q
    = Some (text_content (toLocaleString (Data.unique_words t)))
  ∧ nodes_of (prefix +:+ "-lexical-diversity") q = Some [TextNode (toFixed diversity 2 +:+ "%")]
  ∧ nodes_of (prefix +:+ "-sent-compound") q = Some [TextNode (toFixed compound 3)]
  ∧ (is_Some (fixed_value diversity) → decimals 2 (toFixed diversity 2))
  ∧ (is_Some (fixed_value compound) → decimals 3 (toFixed compound 3)).

(** The three populators in a row, as the try block runs them. *)
Definition populate : Js unit :=
  populateFolkardView toLocaleString;;
  populateShakespeareView toLocaleString;;
  populateComparisonView toLocaleString.

(** The response is a JSON document, and one of the populators throws on the
    page that holds it. *)
Definition populator_throws (net : Network) (p : Page) : Prop :=
  ∃ r d e, net "analysis.json" = Responded r ∧ body r = Json d
    ∧ (populate (loaded d p)).1 = Throw e.

End FurtherSpecification.

(** ** Pages that lack what the script expects *)

Module Broken.

(** The document loaded on a page with the first two Folkard slots only. *)
Definition two_slots : Page :=
  mkPage (Sample.slot <$> ["folkard-total-words"; "folkard-unique-words"]) [] [] [] []
    (Some Sample.document).

(** The document loaded on a page with the comparison view but for its chart
    container. *)
Definition no_chart : Page :=
  mkPage (Sample.slot <$> ["overlap-percent"; "overlap-detail"; "shared-words"]) [] [] [] []
    (Some Sample.document).

(** The sample page without the container of the shared words. *)
Definition no_shared_words : Page :=
  mkPage (filter (λ e, elem_id e ≠ Some "shared-words") Sample.page_elements) [] [] [] [] None.

(** A selector for a view the page does not have, beside one that it has. *)
Definition orphan : Page :=
  mkPage
    [ Sample.nav_btn "glossary" []; Sample.nav_btn "folkard" ["active"];
      Sample.text_view "view-folkard" ∅ ]
    [] [] [] [] None.

End Broken.

(** * Facts about number formatting *)

Section number_facts.

Lemma string_of_uint_digits (d : Decimal.uint) :
  forallb is_digit (list_ascii_of_string (NilEmpty.string_of_uint d)) = true.
Proof. induction d; simpl; auto. Qed.

Lemma digits_are_digits n : forallb is_digit (digits n) = true.
Proof.
  unfold digits, NilZero.string_of_uint.
  destruct (N.to_uint (Z.to_N n)); try apply string_of_uint_digits. done.
Qed.

Lemma digits_nonempty n : digits n ≠ [].
Proof.
  unfold digits, NilZero.string_of_uint. by destruct (N.to_uint (Z.to_N n)).
Qed.

Lemma zeros_are_digits k : forallb is_digit (zeros k) = true.
Proof. induction k; simpl; auto. Qed.

(** toFixed(f) with f > 0 prints an integer part, a point and exactly f
    fraction digits. *)
Lemma fixed_layout_shape f n :
  (0 < f)%nat →
  ∃ int frac, fixed_layout f n = int ++ "."%char :: frac
    ∧ length frac = f ∧ int ≠ []
    ∧ forallb is_digit int = true ∧ forallb is_digit frac = true.
Proof.
  intros Hf. unfold fixed_layout. destruct f as [|f]; [lia|].
  set (m := zeros (S (S f) - length (digits n)) ++ digits n).
  assert (Hm : (S (S f) ≤ length m)%nat).
  { unfold m. rewrite length_app. unfold zeros. rewrite length_replicate. lia. }
  assert (Hd : forallb is_digit m = true).
  { unfold m. by rewrite forallb_app, zeros_are_digits, digits_are_digits. }
  rewrite <- (take_drop (length m - S f) m) in Hd. rewrite forallb_app in Hd.
  apply andb_true_iff in Hd as [Hd1 Hd2].
  eexists _, _. split; [reflexivity|]. repeat split; try done.
  - rewrite length_drop. lia.
  - intros H%(f_equal length). rewrite length_take in H. simpl in H. lia.
Qed.

Lemma round_half_up_nearest (x : Q) :
  (Qabs (inject_Z (round_half_up x) - x) <= 1 # 2)%Q.
Proof.
  unfold round_half_up.
  pose proof (Qfloor_le (x + (1 # 2))) as H1.
  pose proof (Qlt_floor (x + (1 # 2))) as H2.
  rewrite inject_Z_plus in H2. change (inject_Z 1) with 1%Q in H2.
  apply Qabs_Qle_condition. split; lra.
Qed.

End number_facts.

Section float_facts.

Lemma mag_pos m e : (0 < mag m e)%Q.
Proof.
  unfold mag. case_match eqn:He.
  - apply Z.leb_le in He. unfold Qlt, inject_Z. cbn [Qnum Qden].
    pose proof (Z.pow_pos_nonneg 2 e). nia.
  - unfold Qlt. cbn [Qnum Qden]. lia.
Qed.

Lemma mag_neg_exp m e :
  (e < 0)%Z → mag m e = (Z.pos m # Z.to_pos (2 ^ (- e)))%Q.
Proof. intros. unfold mag. case_match eqn:He; [apply Z.leb_le in He; lia|done]. Qed.

Lemma Qabs_mag m e : Qabs (mag m e) = mag m e.
Proof.
  unfold mag. case_match eqn:He; [|done].
  apply Z.leb_le in He. unfold Qabs, inject_Z. f_equal. apply Z.abs_eq.
  apply Z.mul_nonneg_nonneg; [lia|]. by apply Z.pow_nonneg.
Qed.

Lemma Qabs_opp_mag m e : Qabs (- mag m e) = mag m e.
Proof.
  rewrite <- (Qabs_mag m e) at 2. unfold Qabs, Qopp.
  destruct (mag m e) as [n d]. simpl. f_equal. apply Z.abs_opp.
Qed.

Lemma Qlt_bool_iff a b : Qlt_bool a b = true ↔ (a < b)%Q.
Proof.
  unfold Qlt_bool. rewrite negb_true_iff. split.
  - intros H. apply Qnot_le_lt. intros Hle%Qle_bool_iff. congruence.
  - intros H. apply not_true_is_false. intros Hle%Qle_bool_iff. lra.
Qed.

(** What toFixed prints for a value it prints in fixed notation: a minus sign
    for a negative value, and the layout of the integer nearest to
    |v|·10^f. *)
Lemma toFixed_fixed x f v :
  fixed_value x = Some v →
  toFixed x f
  = str ((if Qlt_bool v 0 then ["-"%char] else []) ++ fixed_digits f (Qabs v)).
Proof.
  unfold fixed_value, toFixed. destruct (Prim2SF x) as [s|s| |s m e]; try done.
  - by intros [= <-].
  - destruct (Qle_bool (pow10 21) (mag m e)); [done|].
    pose proof (mag_pos m e) as Hpos. destruct s; intros [= <-].
    + rewrite Qabs_opp_mag.
      replace (Qlt_bool (- mag m e) 0) with true; [done|].
      symmetry. apply Qlt_bool_iff. lra.
    + rewrite Qabs_mag.
      replace (Qlt_bool (mag m e) 0) with false; [done|].
      symmetry. apply not_true_is_false. intros H%Qlt_bool_iff. lra.
Qed.

Lemma digits2_pos_bound m : (Z.pos m < 2 ^ Z.pos (digits2_pos m))%Z.
Proof.
  induction m as [m IH|m IH|]; simpl; rewrite ?Pos2Z.inj_succ, ?Z.pow_succ_r by lia; lia.
Qed.

(** A double between 0 and 100 is finite, and so printed in fixed notation. *)
Lemma percentage_fixed_value (x : number) :
  (0 <=? x)%float = true → (x <=? 100)%float = true →
  ∃ v, fixed_value x = Some v ∧ (0 <= v <= 100)%Q.
Proof.
  rewrite !leb_spec. pose proof (Prim2SF_valid x) as Hv. unfold fixed_value.
  assert (H0 : Prim2SF 0 = S754_zero false) by (vm_compute; reflexivity).
  assert (H100 : Prim2SF 100 = S754_finite false 7036874417766400 (-46)) by (vm_compute; reflexivity).
  rewrite H0, H100. clear H0 H100.
  destruct (Prim2SF x) as [s|s| |s m e].
  - intros _ _. exists 0%Q. split; [done|]. lra.
  - destruct s; intros H1 H2; [discriminate H1 | discriminate H2].
  - intros H; discriminate H.
  - destruct s; [intros H; discriminate H|]. intros _ Hle.
    assert (He : (e ≤ -46)%Z ∧ (e = -46 → Z.pos m ≤ 7036874417766400)%Z).
    { unfold SFleb, SFcompare in Hle.
      destruct (Z.compare_spec e (-46)) as [->|?|?]; [| split; lia | discriminate Hle].
      split; [lia|]. intros _.
      rewrite Pos.compare_cont_spec in Hle.
      assert (Hc : (m ?= 7036874417766400)%positive ≠ Gt).
      { intros Hgt. rewrite Hgt in Hle. discriminate Hle. }
      apply Pos.compare_le_iff in Hc. exact Hc. }
    destruct He as [He1 He2].
    assert (Hm : (Z.pos m < 2 ^ 53)%Z).
    { cbn [valid_binary] in Hv. unfold bounded, canonical_mantissa, fexp in Hv.
      apply andb_true_iff in Hv as [Hc _]. apply Z.eqb_eq in Hc.
      pose proof (digits2_pos_bound m) as Hd.
      eapply Z.lt_le_trans; [exact Hd|]. apply Z.pow_le_mono_r; [lia|].
      unfold prec in Hc. lia. }
    clear Hle Hv.
    assert (Hp : (0 < 2 ^ (- e))%Z) by (apply Z.pow_pos_nonneg; lia).
    assert (Hp' : (e < -46 → 2 ^ 47 ≤ 2 ^ (- e))%Z) by (intros; apply Z.pow_le_mono_r; lia).
    assert (Hle100 : (mag m e <= 100)%Q).
    { rewrite mag_neg_exp by lia. unfold Qle. cbn [Qnum Qden]. rewrite Z2Pos.id by lia.
      destruct (decide (e = -46)%Z) as [->|Hne].
      - specialize (He2 eq_refl). change (2 ^ (- -46))%Z with 70368744177664%Z. lia.
      - specialize (Hp' ltac:(lia)). change (2 ^ 47)%Z with 140737488355328%Z in Hp'.
        change (2 ^ 53)%Z with 9007199254740992%Z in Hm. lia. }
    assert (Hbig : Qle_bool (pow10 21) (mag m e) = false).
    { apply not_true_is_false. intros H%Qle_bool_iff.
      assert (H' : (pow10 21 <= 100)%Q) by (eapply Qle_trans; eassumption).
      vm_compute in H'. by apply H'. }
    rewrite Hbig. eexists. split; [reflexivity|].
    split; [apply Qlt_le_weak, mag_pos | exact Hle100].
Qed.

End float_facts.

(** The en-US formatting of a count: a non-negative integer is printed as its
    decimal digits in groups of three, with no fraction. *)
Lemma round_half_up_integer (x : Q) (z : Z) :
  (x == inject_Z z)%Q → round_half_up (x * pow10 3) = (z * 1000)%Z.
Proof.
  intros Hx. unfold round_half_up.
  assert (Hy : (x * pow10 3 + (1 # 2) == inject_Z (z * 1000) + (1 # 2))%Q).
  { rewrite Hx, inject_Z_mult. reflexivity. }
  rewrite Hy. clear Hy Hx.
  pose proof (Qfloor_le (inject_Z (z * 1000) + (1 # 2))) as H1.
  pose proof (Qlt_floor (inject_Z (z * 1000) + (1 # 2))) as H2.
  set (k := Qfloor _) in *. clearbody k.
  unfold Qle, Qlt, Qplus, inject_Z in H1, H2. cbn [Qnum Qden] in H1, H2. lia.
Qed.

Lemma en_US_integer_grouped (x : number) (m : positive) (e : Z) (N : Z) :
  Prim2SF x = S754_finite false m e → (mag m e == inject_Z N)%Q →
  en_US_toLocaleString x = str (grouped (digits N)).
Proof.
  intros Hx HN. unfold en_US_toLocaleString, en_US_magnitude. rewrite Hx.
  rewrite (round_half_up_integer _ N HN).
  rewrite Z.div_mul, Z.mod_mul by lia. reflexivity.
Qed.
(** * Facts about the page model *)

Section page_facts.

Implicit Types (p q : Page) (els : list Element) (f g : Element → Element) (id : string).

#[global] Instance set_childNodes_preserves_id h : PreservesId (set_childNodes h).
Proof. by intros []. Qed.
#[global] Instance set_style_preserves_id h : PreservesId (set_style h).
Proof. by intros []. Qed.
#[global] Instance set_classList_preserves_id h : PreservesId (set_classList h).
Proof. by intros []. Qed.
#[global] Instance compose_preserves_id f g :
  PreservesId f → PreservesId g → PreservesId (f ∘ g).
Proof. intros Hf Hg e. simpl. by rewrite Hf, Hg. Qed.

Lemma find_id_Some id els i :
  find_id id els = Some i → ∃ e, els !! i = Some e ∧ elem_id e = Some id.
Proof.
  revert i. induction els as [|e els IH]; intros i; simpl; [done|].
  case_decide.
  - intros [= <-]. eauto.
  - intros (j & Hj & ->)%fmap_Some. by apply IH.
Qed.

Lemma find_id_lt id els i : find_id id els = Some i → (i < length els)%nat.
Proof. intros (e & H & _)%find_id_Some. by eapply lookup_lt_Some. Qed.

Lemma find_id_inj id1 id2 els i :
  find_id id1 els = Some i → find_id id2 els = Some i → id1 = id2.
Proof.
  intros (e1 & H1 & E1)%find_id_Some (e2 & H2 & E2)%find_id_Some. congruence.
Qed.

Lemma find_id_alter id els f i `{!PreservesId f} :
  find_id id (alter f i els) = find_id id els.
Proof.
  revert i. induction els as [|e els IH]; intros [|i]; simpl; try done.
  - by rewrite preserves_id.
  - case_decide; [done|]. f_equal. apply IH.
Qed.

Lemma find_id_write id' id f els `{!PreservesId f} :
  find_id id' (write id f els) = find_id id' els.
Proof. unfold write. destruct (find_id id els); [|done]. by apply find_id_alter. Qed.

End page_facts.

Section write_facts.

Implicit Types (p q : Page) (els : list Element) (f g : Element → Element) (id : string).

Lemma elems_set_elements h p : elems (set_elements h p) = h (elems p).
Proof. done. Qed.

Lemma set_elements_id p : set_elements (λ els, els) p = p.
Proof. by destruct p. Qed.

Lemma set_elements_compose h1 h2 p :
  set_elements h2 (set_elements h1 p) = set_elements (h2 ∘ h1) p.
Proof. done. Qed.

Lemma element_by_id_write_eq id f p `{!PreservesId f} :
  element_by_id id (set_elements (write id f) p) = f <$> element_by_id id p.
Proof.
  unfold element_by_id. rewrite elems_set_elements, find_id_write by done.
  unfold write. destruct (find_id id (elems p)) as [i|] eqn:Hi; simpl; [|done].
  by rewrite list_lookup_alter_eq.
Qed.

Lemma element_by_id_write_ne id' id f p `{!PreservesId f} :
  id ≠ id' → element_by_id id' (set_elements (write id f) p) = element_by_id id' p.
Proof.
  intros Hne. unfold element_by_id. rewrite elems_set_elements, find_id_write by done.
  unfold write. destruct (find_id id (elems p)) as [i|] eqn:Hi; [|done].
  destruct (find_id id' (elems p)) as [j|] eqn:Hj; simpl; [|done].
  apply list_lookup_alter_ne. intros ->. by destruct Hne; eapply find_id_inj.
Qed.

Lemma has_ids_write ids id f p `{!PreservesId f} :
  has_ids ids (set_elements (write id f) p) ↔ has_ids ids p.
Proof.
  unfold has_ids. apply Forall_proper; [|done]. intros id'.
  by rewrite elems_set_elements, find_id_write.
Qed.

(** A property write through getElementById succeeds when the id is there. *)
Lemma update_by_id id f p :
  is_Some (find_id id (elems p)) →
  update (find_id id (elems p)) f p = (Normal (), set_elements (write id f) p).
Proof.
  intros [i Hi]. unfold write. rewrite Hi. simpl. unfold set_elements. by rewrite Hi.
Qed.

Lemma update_missing id f p :
  find_id id (elems p) = None → update (find_id id (elems p)) f p = (Throw TypeError, p).
Proof. by intros ->. Qed.

Lemma set_childNodes_compose h1 h2 e :
  set_childNodes h2 (set_childNodes h1 e) = set_childNodes (h2 ∘ h1) e.
Proof. done. Qed.

(** A forEach that appends one node per item to a container fetched before
    the loop appends them all, in order. *)
Lemma forEach_appendChild {A} (l : list A) (node : A → Node) i p :
  forEach l (λ x, appendChild (Some i) (node x)) p
  = (Normal (), set_elements (alter (set_childNodes (λ kids, kids ++ (node <$> l))) i) p).
Proof.
  revert p. induction l as [|x l IH]; intros p; simpl.
  - unfold mret, Js_ret. f_equal. rewrite <- (set_elements_id p) at 1.
    unfold set_elements. f_equal. symmetry. apply list_alter_id.
    intros []. unfold set_childNodes. simpl. by rewrite app_nil_r.
  - unfold mbind, Js_bind. simpl. rewrite IH. f_equal.
    unfold set_elements. simpl. f_equal.
    rewrite list_alter_alter_eq. apply list_alter_ext; [|done].
    intros e _. unfold set_childNodes. simpl. by rewrite <- app_assoc.
Qed.

Lemma forEach_appendChild_by_id {A} (l : list A) (node : A → Node) id p :
  is_Some (find_id id (elems p)) →
  forEach l (λ x, appendChild (find_id id (elems p)) (node x)) p
  = (Normal (), set_elements (write id (set_childNodes (λ kids, kids ++ (node <$> l)))) p).
Proof.
  intros [i Hi]. rewrite Hi, forEach_appendChild. unfold write, set_elements. by rewrite Hi.
Qed.

Lemma bind_run {A B} (m : Js A) (k : A → Js B) p a q :
  m p = (Normal a, q) → (m ≫= k) p = k a q.
Proof. unfold mbind, Js_bind. by intros ->. Qed.

Lemma bind_throw {A B} (m : Js A) (k : A → Js B) p e q :
  m p = (Throw e, q) → (m ≫= k) p = (Throw e, q).
Proof. unfold mbind, Js_bind. by intros ->. Qed.

Lemma set_textContent_by_id id s p :
  is_Some (find_id id (elems p)) →
  set_textContent (find_id id (elems p)) s p
  = (Normal (), set_elements (write id (set_childNodes (λ _, text_content s))) p).
Proof. apply update_by_id. Qed.

Lemma set_style_property_by_id id prop v p :
  is_Some (find_id id (elems p)) →
  set_style_property (find_id id (elems p)) prop v p
  = (Normal (), set_elements (write id (set_style (insert prop v))) p).
Proof. apply update_by_id. Qed.

Lemma clear_innerHTML_by_id id p :
  is_Some (find_id id (elems p)) →
  clear_innerHTML (find_id id (elems p)) p
  = (Normal (), set_elements (write id (set_childNodes (λ _, []))) p).
Proof. apply update_by_id. Qed.

Lemma is_Some_find_id_write id' id f p `{!PreservesId f} :
  is_Some (find_id id' (elems p)) →
  is_Some (find_id id' (elems (set_elements (write id f) p))).
Proof. by rewrite elems_set_elements, find_id_write. Qed.

End write_facts.

Ltac has_id := repeat apply is_Some_find_id_write; try apply _; assumption.

Ltac split_ids H :=
  unfold has_ids in H; cbn [fmap list_fmap] in H;
  repeat (let H' := fresh "Hid" in apply Forall_cons in H as [H' H]); clear H.

Ltac js_step :=
  etrans;
  [ apply bind_run;
    first [ reflexivity
          | apply set_textContent_by_id; has_id
          | apply set_style_property_by_id; has_id
          | apply clear_innerHTML_by_id; has_id ]
  | cbv beta ].


Section populate.
Variable toLocaleString : number → string.

Lemma populateFolkardView_eq :
  populateFolkardView toLocaleString = populateTextView toLocaleString "folkard" 0.
Proof. reflexivity. Qed.

Lemma populateShakespeareView_eq :
  populateShakespeareView toLocaleString = populateTextView toLocaleString "shakespeare" 1.
Proof. reflexivity. Qed.

Lemma populateTextView_run prefix k p doc t :
  analysisData p = Some doc →
  Data.texts doc !! k = Some t →
  has_ids (text_view_ids prefix) p →
  populateTextView toLocaleString prefix k p
  = (Normal (), apply_writes (text_view_writes toLocaleString prefix t) p).
Proof.
  intros Hdoc Ht Hids. unfold populateTextView. split_ids Hids.
  etrans; [apply bind_run; unfold get_analysisData; by rewrite Hdoc|]. cbv beta zeta.
  rewrite Ht. cbn [get].
  repeat js_step.
  by rewrite forEach_appendChild_by_id by has_id.
Qed.

Lemma apply_writes_app ws1 ws2 p :
  apply_writes (ws1 ++ ws2) p = apply_writes ws2 (apply_writes ws1 p).
Proof. apply foldl_app. Qed.

Lemma element_by_id_apply_writes id ws p :
  preserve_ids ws →
  element_by_id id (apply_writes ws p) = write_for id ws <$> element_by_id id p.
Proof.
  intros Hws. revert p. induction Hws as [|[id' f] ws Hf Hws IH]; intros p; simpl in *.
  - by destruct (element_by_id id p).
  - rewrite IH. destruct (String.eqb_spec id' id) as [->|Hid].
    + rewrite element_by_id_write_eq by done. by destruct (element_by_id id p).
    + by rewrite element_by_id_write_ne.
Qed.

Lemma find_id_apply_writes id ws p :
  preserve_ids ws → find_id id (elems (apply_writes ws p)) = find_id id (elems p).
Proof.
  intros Hws. revert p. induction Hws as [|[id' f] ws Hf Hws IH]; intros p; simpl in *; [done|].
  by rewrite IH, elems_set_elements, find_id_write.
Qed.

Lemma is_Some_find_id_apply_writes id ws p :
  preserve_ids ws →
  is_Some (find_id id (elems p)) → is_Some (find_id id (elems (apply_writes ws p))).
Proof. intros. by rewrite find_id_apply_writes. Qed.

Lemma has_ids_apply_writes ids ws p :
  preserve_ids ws → has_ids ids (apply_writes ws p) ↔ has_ids ids p.
Proof.
  intros Hws. unfold has_ids. apply Forall_proper; [|done]. intros id.
  by rewrite find_id_apply_writes.
Qed.

Lemma apply_writes_frame ws p :
  listeners (apply_writes ws p) = listeners p ∧ console (apply_writes ws p) = console p
  ∧ alerts (apply_writes ws p) = alerts p ∧ requests (apply_writes ws p) = requests p
  ∧ analysisData (apply_writes ws p) = analysisData p.
Proof.
  revert p. induction ws as [|w ws IH]; intros p; simpl; [done|].
  apply (IH (set_elements (write w.1 w.2) p)).
Qed.

Lemma text_view_writes_preserve prefix t : preserve_ids (text_view_writes toLocaleString prefix t).
Proof. repeat constructor; apply _. Qed.

End populate.

Section comparison.
Variable toLocaleString : number → string.

Lemma select_append_run id n p :
  d3.select_append id n p
  = (Normal (), set_elements (write id (set_childNodes (λ kids, kids ++ [n]))) p).
Proof.
  unfold d3.select_append. etrans; [apply bind_run; reflexivity|]. cbv beta.
  unfold write, set_elements. destruct (find_id id (elems p)) eqn:H; simpl.
  - done.
  - unfold mret, Js_ret. by destruct p.
Qed.

Lemma createVennDiagram_run c p :
  createVennDiagram toLocaleString c p
  = match find_id "overlap-chart" (elems p) with
    | Some _ => (Normal (), apply_writes (chart_writes toLocaleString c) p)
    | None => (Throw TypeError, p)
    end.
Proof.
  unfold createVennDiagram. etrans; [apply bind_run; reflexivity|]. cbv beta.
  destruct (find_id "overlap-chart" (elems p)) as [i|] eqn:Hi.
  - rewrite <- Hi. etrans; [apply bind_run, clear_innerHTML_by_id; by rewrite Hi|].
    cbv beta. by rewrite select_append_run.
  - done.
Qed.

Lemma chart_writes_preserve c : preserve_ids (chart_writes toLocaleString c).
Proof. repeat constructor; apply _. Qed.

Lemma comparison_writes_preserve c : preserve_ids (comparison_writes toLocaleString c).
Proof. repeat constructor; apply _. Qed.

Lemma populateComparisonView_run p doc :
  analysisData p = Some doc →
  has_ids comparison_ids p →
  populateComparisonView toLocaleString p
  = (Normal (), apply_writes (comparison_writes toLocaleString (Data.comparison doc)) p).
Proof.
  intros Hdoc Hids. unfold populateComparisonView. split_ids Hids.
  etrans; [apply bind_run; unfold get_analysisData; by rewrite Hdoc|]. cbv beta zeta.
  do 4 js_step.
  etrans; [apply bind_run; rewrite createVennDiagram_run|].
  { rewrite !elems_set_elements, !find_id_write by apply _.
    destruct Hid1 as [i ->]. reflexivity. }
  cbv beta. js_step.
  by rewrite forEach_appendChild_by_id by (apply is_Some_find_id_apply_writes; [apply chart_writes_preserve|has_id]).
Qed.

End comparison.

(** * Navigation *)

Section navigation.

Implicit Types (p q : Page) (els : list Element) (f g : Element → Element).

Lemma forEach_update (l : list nat) f p :
  forEach l (λ h, update (Some h) f) p = (Normal (), set_elements (alter_all f l) p).
Proof.
  revert p. induction l as [|h l IH]; intros p; simpl.
  - unfold mret, Js_ret. by destruct p.
  - unfold mbind, Js_bind. simpl. by rewrite IH.
Qed.

Lemma lookup_alter_all f l els j :
  (∀ e, f (f e) = f e) →
  alter_all f l els !! j = (if decide (j ∈ l) then f else id) <$> els !! j.
Proof.
  intros Hf. revert els. induction l as [|h l IH]; intros els.
  - rewrite decide_False by apply not_elem_of_nil.
    change (alter_all f [] els) with els. by rewrite option_fmap_id.
  - change (alter_all f (h :: l) els) with (alter_all f l (alter f h els)).
    rewrite IH. destruct (decide (h = j)) as [->|Hne].
    + rewrite list_lookup_alter_eq.
      destruct (decide (j ∈ j :: l)) as [_|Hn]; [|set_solver].
      destruct (els !! j) as [e|]; simpl; [|done].
      destruct (decide (j ∈ l)); simpl; by rewrite ?Hf.
    + rewrite list_lookup_alter_ne by done.
      destruct (els !! j) as [e|]; simpl; [|done]. f_equal.
      destruct (decide (j ∈ l)) as [Hin|Hnin].
      * by rewrite decide_True by (by right).
      * rewrite decide_False; [done|]. by intros [->|?]%elem_of_cons.
Qed.

Lemma find_id_imap id (h : nat → Element → Element) els :
  (∀ j e, elem_id (h j e) = elem_id e) → find_id id (imap h els) = find_id id els.
Proof.
  intros Hh. revert h Hh. induction els as [|e els IH]; intros h Hh; simpl; [done|].
  rewrite Hh. case_decide; [done|]. f_equal. apply IH. intros j e'. apply Hh.
Qed.

Lemma nav_effect_id nb vs b t j e : elem_id (nav_effect nb vs b t j e) = elem_id e.
Proof. by destruct e. Qed.

Lemma nav_effect_dataset nb vs b t j e :
  dataset_view (nav_effect nb vs b t j e) = dataset_view e.
Proof. by destruct e. Qed.

Lemma remove_active_add (l : list string) :
  filter (λ x, x ≠ "active") (if decide ("active" ∈ l) then l else l ++ ["active"])
  = filter (λ x, x ≠ "active") l.
Proof.
  case_decide; [done|]. rewrite filter_app. simpl.
  rewrite filter_cons_False, filter_nil by naive_solver. apply app_nil_r.
Qed.

Lemma remove_active_idemp (l : list string) :
  filter (λ x, x ≠ "active") (filter (λ x, x ≠ "active") l) = filter (λ x, x ≠ "active") l.
Proof. apply list_filter_filter_l. done. Qed.

Lemma add_active_idemp (l : list string) :
  let add (l : list string) := if decide ("active" ∈ l) then l else l ++ ["active"] in
  add (add l) = add l.
Proof.
  simpl. destruct (decide ("active" ∈ l)) as [Hin|Hnin].
  - by rewrite decide_True.
  - rewrite decide_True; [done|]. apply elem_of_app. right. by left.
Qed.

Lemma nav_effect_idemp nb vs b t j e :
  nav_effect nb vs b t j (nav_effect nb vs b t j e) = nav_effect nb vs b t j e.
Proof.
  destruct e as [i cl dv st kids]. unfold nav_effect, set_style, set_classList. simpl. f_equal.
  - destruct (decide (j ∈ nb)), (decide (j = b));
      rewrite ?remove_active_add, ?remove_active_idemp; try done.
    apply add_active_idemp.
  - repeat case_decide; try done; by rewrite insert_insert_eq.
Qed.

Lemma find_id_alter_all id f l els `{!PreservesId f} :
  find_id id (alter_all f l els) = find_id id els.
Proof.
  revert els. induction l as [|h l IH]; intros els; [done|].
  change (alter_all f (h :: l) els) with (alter_all f l (alter f h els)).
  by rewrite IH, find_id_alter.
Qed.

Lemma navClick_run nb vs b p :
  navClick nb vs b p
  = (match nav_target b (elems p) with Some _ => Normal () | None => Throw TypeError end,
     set_elements (imap (nav_effect nb vs b (nav_target b (elems p)))) p).
Proof.
  unfold navClick, classList_remove, classList_add, set_style_property.
  etrans; [apply bind_run; reflexivity|]. cbv beta.
  etrans; [apply bind_run, forEach_update|]. cbv beta.
  etrans; [apply bind_run; reflexivity|]. cbv beta.
  etrans; [apply bind_run, forEach_update|]. cbv beta.
  etrans; [apply bind_run; reflexivity|]. cbv beta.
  rewrite !elems_set_elements, find_id_alter_all, find_id_alter, find_id_alter_all by apply _.
  fold (nav_target b (elems p)).
  set (rm := set_classList (filter (λ x, x ≠ "active"))).
  set (add := set_classList (λ l, if decide ("active" ∈ l) then l else l ++ ["active"])).
  set (none := set_style <["display" := "none"]>).
  set (blk := set_style <["display" := "block"]>).
  assert (Hrm : ∀ e, rm (rm e) = rm e).
  { intros []. unfold rm, set_classList. simpl. by rewrite remove_active_idemp. }
  assert (Hnone : ∀ e, none (none e) = none e).
  { intros []. unfold none, set_style. simpl. by rewrite insert_insert_eq. }
  assert (Hlook : ∀ j t,
    (match t with Some i => alter blk i | None => λ l, l end
       (alter_all none vs (alter add b (alter_all rm nb (elems p))))) !! j
    = nav_effect nb vs b t j <$> elems p !! j).
  { intros j t.
    assert (alter_all none vs (alter add b (alter_all rm nb (elems p))) !! j
            = (λ e, (if decide (j ∈ vs) then none else id)
                      ((if decide (j = b) then add else id)
                         ((if decide (j ∈ nb) then rm else id) e))) <$> elems p !! j) as Hj.
    { rewrite lookup_alter_all by done. rewrite list_lookup_alter.
      destruct (decide (b = j)) as [->|Hbj]; rewrite lookup_alter_all by done.
      - rewrite (decide_True (P := j = j)) by done. by destruct (elems p !! j).
      - rewrite (decide_False (P := j = b)) by done. by destruct (elems p !! j). }
    assert ((match t with Some i => alter blk i | None => λ l, l end
               (alter_all none vs (alter add b (alter_all rm nb (elems p))))) !! j
            = (if decide (t = Some j) then blk else id)
              <$> alter_all none vs (alter add b (alter_all rm nb (elems p))) !! j) as ->.
    { destruct t as [i|].
      - rewrite list_lookup_alter. destruct (decide (i = j)) as [->|Hij].
        + by rewrite (decide_True (P := Some j = Some j)) by done.
        + rewrite (decide_False (P := Some i = Some j)) by congruence.
          by rewrite option_fmap_id.
      - rewrite decide_False by done. by rewrite option_fmap_id. }
    rewrite Hj. destruct (elems p !! j) as [[i cl dv st kids]|]; [|done]. simpl. f_equal.
    unfold nav_effect, blk, none, add, rm, set_style, set_classList. simpl.
    destruct (decide (t = Some j)), (decide (j ∈ vs)), (decide (j = b)), (decide (j ∈ nb));
      simpl; by rewrite ?insert_insert_eq. }
  destruct (nav_target b (elems p)) as [t|] eqn:Ht.
  - simpl. f_equal. unfold set_elements. simpl. f_equal.
    apply list_eq. intros j. rewrite list_lookup_imap. apply (Hlook j (Some t)).
  - simpl. unfold throw. f_equal. unfold set_elements. simpl. f_equal.
    apply list_eq. intros j. rewrite list_lookup_imap. apply (Hlook j None).
Qed.

Lemma nav_target_effect nb vs b t els :
  nav_target b (imap (nav_effect nb vs b t) els) = nav_target b els.
Proof.
  unfold nav_target. rewrite find_id_imap by (intros; apply nav_effect_id).
  rewrite list_lookup_imap. by destruct (els !! b) as [[]|].
Qed.

(** Running the listener twice is running it once. *)
Lemma navClick_idempotent nb vs b p :
  navClick nb vs b (navClick nb vs b p).2 = navClick nb vs b p.
Proof.
  rewrite !navClick_run. cbn [snd]. rewrite elems_set_elements, nav_target_effect.
  f_equal. destruct p as [els ls co al rq ad]. unfold set_elements. simpl. f_equal.
  apply list_eq. intros j. rewrite !list_lookup_imap.
  destruct (els !! j); simpl; [|done]. by rewrite nav_effect_idemp.
Qed.

End navigation.

Section setup.

Implicit Types (p q : Page) (els : list Element).

Lemma elem_of_find_class c els i :
  i ∈ find_class c els ↔ ∃ e, els !! i = Some e ∧ c ∈ classList e.
Proof.
  unfold find_class. rewrite list_elem_of_fmap. split.
  - intros ([j e] & -> & [Hc Hin]%list_elem_of_filter).
    apply elem_of_lookup_imap in Hin as (k & e' & [= -> ->] & Hk). eauto.
  - intros (e & Hi & Hc). exists (i, e). split; [done|].
    apply list_elem_of_filter. split; [done|]. apply elem_of_lookup_imap. eauto.
Qed.

Lemma NoDup_find_class c els : NoDup (find_class c els).
Proof.
  unfold find_class. apply NoDup_fmap_fst.
  - intros i e1 e2 [_ H1]%list_elem_of_filter [_ H2]%list_elem_of_filter.
    apply elem_of_lookup_imap in H1 as (k1 & e1' & [= -> ->] & Hk1).
    apply elem_of_lookup_imap in H2 as (k2 & e2' & [= -> ->] & Hk2). congruence.
  - apply NoDup_filter. apply (NoDup_fmap_1 fst).
    rewrite fmap_imap. simpl.
    rewrite (imap_ext _ (λ i _, i)) by done.
    rewrite imap_seq_0. rewrite list_fmap_id. apply NoDup_seq.
Qed.

Lemma forEach_addEventListener (l : list nat) (g : nat → NavListener) p :
  forEach l (λ b, addEventListener b (g b)) p
  = (Normal (), add_listeners ((λ b, (b, g b)) <$> l) p).
Proof.
  revert p. induction l as [|b l IH]; intros p; simpl.
  - unfold mret, Js_ret, add_listeners. rewrite app_nil_r. by destruct p.
  - unfold mbind, Js_bind. simpl. rewrite IH. unfold add_listeners. simpl.
    by rewrite <- app_assoc.
Qed.

Lemma setupNavigation_run p :
  setupNavigation p = (Normal (), add_listeners (nav_listeners (elems p)) p).
Proof.
  unfold setupNavigation.
  etrans; [apply bind_run; reflexivity|]. cbv beta.
  etrans; [apply bind_run; reflexivity|]. cbv beta.
  apply forEach_addEventListener.
Qed.

Lemma click_fold_no_match b (ls : list (nat * NavListener)) q :
  b ∉ ls.*1 →
  foldl (λ q hl, if decide (hl.1 = b) then (run_listener hl.2 q).2 else q) q ls = q.
Proof.
  revert q. induction ls as [|[h l] ls IH]; intros q Hb; simpl; [done|].
  simpl in Hb. apply not_elem_of_cons in Hb as [Hne Hb].
  rewrite decide_False by done. by apply IH.
Qed.

Lemma click_fold_unique b (l : list nat) (g : nat → NavListener) q :
  NoDup l → b ∈ l →
  foldl (λ q hl, if decide (hl.1 = b) then (run_listener hl.2 q).2 else q) q
    ((λ h, (h, g h)) <$> l)
  = (run_listener (g b) q).2.
Proof.
  intros Hnd. revert q. induction Hnd as [|h l Hh Hnd IH]; intros q Hb.
  { by apply elem_of_nil in Hb. }
  simpl. destruct (decide (h = b)) as [->|Hne].
  - apply click_fold_no_match. rewrite <- list_fmap_compose. simpl. by rewrite list_fmap_id.
  - apply IH. by apply elem_of_cons in Hb as [->|Hb].
Qed.

(** On a page whose only listeners are those of [setupNavigation], a click on
    a selector runs its one listener. *)
Lemma click_nav_listener b p nb vs :
  listeners p = (λ b, (b, {| nav_buttons := nb; nav_views := vs; nav_button := b |})) <$> nb →
  NoDup nb → b ∈ nb →
  click b p = (navClick nb vs b p).2.
Proof.
  intros Hls Hnd Hb. unfold click. rewrite Hls.
  by rewrite (click_fold_unique b nb
    (λ b, {| nav_buttons := nb; nav_views := vs; nav_button := b |})).
Qed.

Lemma click_other b p nb vs :
  listeners p = (λ b, (b, {| nav_buttons := nb; nav_views := vs; nav_button := b |})) <$> nb →
  b ∉ nb → click b p = p.
Proof.
  intros Hls Hb. unfold click. rewrite Hls. apply click_fold_no_match.
  rewrite <- list_fmap_compose. simpl. by rewrite list_fmap_id.
Qed.

End setup.

(** * The loader *)

Section monotone.

Lemma extends_refl p : extends p p.
Proof. by split. Qed.

Lemma extends_trans p q r : extends p q → extends q r → extends p r.
Proof. intros [H1 H2] [H3 H4]. split; [congruence|by etrans]. Qed.

Lemma monotone_ret {A} (a : A) : monotone (mret a).
Proof. intros p. apply extends_refl. Qed.

Lemma monotone_throw {A} e : monotone (@throw A e).
Proof. intros p. apply extends_refl. Qed.

Lemma monotone_bind {A B} (m : Js A) (k : A → Js B) :
  monotone m → (∀ a, monotone (k a)) → monotone (m ≫= k).
Proof.
  intros Hm Hk p. unfold mbind, Js_bind. specialize (Hm p).
  destruct (m p) as [[a|e] q]; simpl in *; [|done].
  eapply extends_trans; [exact Hm|apply Hk].
Qed.

Lemma monotone_try_catch {A} (m : Js A) (h : JsError → Js A) :
  monotone m → (∀ e, monotone (h e)) → monotone (try_catch m h).
Proof.
  intros Hm Hh p. unfold try_catch. specialize (Hm p).
  destruct (m p) as [[a|e] q]; simpl in *; [done|].
  eapply extends_trans; [exact Hm|apply Hh].
Qed.

Lemma monotone_forEach {A} (l : list A) (f : A → Js unit) :
  (∀ x, monotone (f x)) → monotone (forEach l f).
Proof.
  intros Hf. induction l as [|x l IH]; simpl.
  - apply monotone_ret.
  - apply monotone_bind; [apply Hf|]. intros _. apply IH.
Qed.

Lemma monotone_update h f : monotone (update h f).
Proof. destruct h; intros p; by split. Qed.

Lemma monotone_get {A B} (o : option A) (f : A → B) : monotone (get o f).
Proof. destruct o; intros p; apply extends_refl. Qed.

Lemma monotone_getElementById id : monotone (getElementById id).
Proof. intros p. apply extends_refl. Qed.

Lemma monotone_querySelectorAll c : monotone (querySelectorAll c).
Proof. intros p. apply extends_refl. Qed.

Lemma monotone_get_dataset_view h : monotone (get_dataset_view h).
Proof. intros p. apply extends_refl. Qed.

Lemma monotone_get_analysisData : monotone get_analysisData.
Proof. intros p. unfold get_analysisData. destruct (analysisData p); apply extends_refl. Qed.

Lemma monotone_addEventListener h l : monotone (addEventListener h l).
Proof. intros p. by split. Qed.

Lemma monotone_console_error msg e : monotone (console_error msg e).
Proof. intros p. split; [done|]. by apply prefix_app_r. Qed.

Lemma monotone_alert msg : monotone (alert msg).
Proof. intros p. by split. Qed.

End monotone.

Ltac monotone :=
  repeat first
    [ apply monotone_bind; [|intros ?]
    | apply monotone_forEach; intros ?
    | apply monotone_update
    | apply monotone_get
    | apply monotone_getElementById
    | apply monotone_querySelectorAll
    | apply monotone_get_dataset_view
    | apply monotone_get_analysisData
    | apply monotone_addEventListener
    | apply monotone_console_error
    | apply monotone_alert
    | apply monotone_ret
    | apply monotone_throw
    | match goal with |- monotone (match ?h with _ => _ end) => destruct h end ].

Section loader.
Variable toLocaleString : number → string.

Lemma monotone_populateTextView prefix k : monotone (populateTextView toLocaleString prefix k).
Proof. unfold populateTextView. monotone. Qed.

Lemma monotone_createVennDiagram c : monotone (createVennDiagram toLocaleString c).
Proof. unfold createVennDiagram, d3.select_append. monotone. Qed.

Lemma monotone_populateComparisonView : monotone (populateComparisonView toLocaleString).
Proof.
  unfold populateComparisonView. monotone.
Qed.

Lemma monotone_setupNavigation : monotone setupNavigation.
Proof. unfold setupNavigation. monotone. Qed.

Lemma monotone_initialise : monotone (initialise toLocaleString).
Proof.
  unfold initialise. rewrite populateFolkardView_eq, populateShakespeareView_eq.
  repeat (apply monotone_bind; [|intros _]);
    auto using monotone_populateTextView, monotone_populateComparisonView,
      monotone_setupNavigation.
Qed.

Lemma monotone_report e : monotone (report e).
Proof. unfold report. monotone. Qed.

(** The listener, by the outcome of the load: on a failure of fetch or of
    response.json() only the catch block runs; otherwise the document is stored
    and logged, and the interface is initialised under the same catch. *)
Lemma onDOMContentLoaded_unfold net p :
  onDOMContentLoaded toLocaleString net p
  = match net "analysis.json" with
    | NetworkError => (Normal (), failure_reported TypeError p)
    | Responded r =>
        match body r with
        | NotJson => (Normal (), failure_reported SyntaxError p)
        | Json d => try_catch (initialise toLocaleString) report (loaded d p)
        end
    end.
Proof.
  unfold onDOMContentLoaded, try_catch.
  unfold mbind at 1, Js_bind at 1, fetch at 1.
  destruct (net "analysis.json") as [|r]; [done|].
  unfold mbind at 1, Js_bind at 1, json at 1.
  destruct (body r) as [|d]; [done|]. reflexivity.
Qed.

Lemma onDOMContentLoaded_failure net p :
  transport_or_parse_failure net →
  onDOMContentLoaded toLocaleString net p = (Normal (), failure_reported (load_error net) p).
Proof.
  unfold transport_or_parse_failure, load_error. rewrite onDOMContentLoaded_unfold.
  destruct (net "analysis.json") as [|r]; [done|]. by intros ->.
Qed.

End loader.

Section loaded.
Variable toLocaleString : number → string.

Lemma has_ids_app ids1 ids2 p : has_ids (ids1 ++ ids2) p ↔ has_ids ids1 p ∧ has_ids ids2 p.
Proof. apply Forall_app. Qed.

Lemma has_ids_app_3 ids1 ids2 ids3 p :
  has_ids (ids1 ++ ids2 ++ ids3) p → has_ids ids1 p ∧ has_ids ids2 p ∧ has_ids ids3 p.
Proof. intros [? [? ?]%has_ids_app]%has_ids_app. done. Qed.

Lemma page_writes_preserve d t0 t1 : preserve_ids (page_writes toLocaleString d t0 t1).
Proof.
  unfold page_writes, preserve_ids. rewrite !Forall_app.
  split; [apply text_view_writes_preserve|].
  split; [apply text_view_writes_preserve|apply comparison_writes_preserve].
Qed.

(** With the document stored and every slot on the page, the initialisation
    runs to its end: the writes of the three populators, then the listeners. *)
Lemma initialise_run d t0 t1 p :
  analysisData p = Some d →
  Data.texts d !! 0%nat = Some t0 → Data.texts d !! 1%nat = Some t1 →
  has_ids page_ids p →
  initialise toLocaleString p
  = (Normal (),
     let q := apply_writes (page_writes toLocaleString d t0 t1) p in
     add_listeners (nav_listeners (elems q)) q).
Proof.
  intros Hd H0 H1 (Hf & Hs & Hc)%has_ids_app_3. unfold initialise.
  rewrite populateFolkardView_eq, populateShakespeareView_eq.
  etrans; [apply bind_run, (populateTextView_run _ _ _ _ d t0); done|]. cbv beta.
  etrans; [apply bind_run, (populateTextView_run _ _ _ _ d t1)|].
  { by rewrite (proj2 (proj2 (proj2 (proj2 (apply_writes_frame _ _))))). }
  { done. }
  { apply has_ids_apply_writes; [apply text_view_writes_preserve|done]. }
  cbv beta.
  etrans; [apply bind_run, (populateComparisonView_run _ _ d)|].
  { by rewrite !(proj2 (proj2 (proj2 (proj2 (apply_writes_frame _ _))))). }
  { do 2 (apply has_ids_apply_writes; [apply text_view_writes_preserve|]). done. }
  cbv beta. rewrite setupNavigation_run. unfold page_writes.
  by rewrite !apply_writes_app.
Qed.

End loaded.

Ltac eval_write_for :=
  lazy beta iota zeta delta
    [write_for fst snd app String.append String.eqb Ascii.eqb Bool.eqb
     page_writes comparison_writes chart_writes text_view_writes].

Section rendering.
Variable toLocaleString : number → string.

Lemma write_for_app id ws1 ws2 e :
  write_for id (ws1 ++ ws2) e = write_for id ws2 (write_for id ws1 e).
Proof. revert e. induction ws1 as [|w ws1 IH]; intros e; simpl; [done|]. apply IH. Qed.

Lemma nodes_of_apply_writes id ws p :
  preserve_ids ws →
  nodes_of id (apply_writes ws p) = (λ e, childNodes (write_for id ws e)) <$> element_by_id id p.
Proof.
  intros Hws. unfold nodes_of. rewrite element_by_id_apply_writes by done.
  by rewrite <- option_fmap_compose.
Qed.

Lemma style_of_apply_writes id prop ws p :
  preserve_ids ws →
  style_of id prop (apply_writes ws p)
  = element_by_id id p ≫= λ e, style (write_for id ws e) !! prop.
Proof.
  intros Hws. unfold style_of. rewrite element_by_id_apply_writes by done.
  by destruct (element_by_id id p).
Qed.

Lemma page_writes_folkard_top_words d t0 t1 e :
  childNodes (write_for "folkard-top-words" (page_writes toLocaleString d t0 t1) e)
  = childNodes e ++ word_nodes (take 30 (Data.top_words t0)).
Proof. eval_write_for. by destruct e. Qed.

Lemma page_writes_shakespeare_top_words d t0 t1 e :
  childNodes (write_for "shakespeare-top-words" (page_writes toLocaleString d t0 t1) e)
  = childNodes e ++ word_nodes (take 30 (Data.top_words t1)).
Proof. eval_write_for. by destruct e. Qed.

Lemma page_writes_shared_words d t0 t1 e :
  childNodes (write_for "shared-words" (page_writes toLocaleString d t0 t1) e)
  = childNodes e ++ shared_nodes (take 30 (Data.top_shared_words (Data.comparison d))).
Proof. eval_write_for. by destruct e. Qed.

End rendering.

Section claims_rendering.
Variable toLocaleString : number → string.

Lemma loaded_run net p r d t0 t1 :
  net "analysis.json" = Responded r → body r = Json d →
  Data.texts d !! 0%nat = Some t0 → Data.texts d !! 1%nat = Some t1 →
  has_ids page_ids p →
  onDOMContentLoaded toLocaleString net p
  = (Normal (),
     let q := apply_writes (page_writes toLocaleString d t0 t1) (loaded d p) in
     add_listeners (nav_listeners (elems q)) q).
Proof.
  intros Hnet Hbody H0 H1 Hids. rewrite onDOMContentLoaded_unfold, Hnet, Hbody.
  unfold try_catch. by rewrite (initialise_run _ d t0 t1).
Qed.

Lemma nodes_of_add_listeners id ls q :
  nodes_of id (add_listeners ls q) = nodes_of id q.
Proof. done. Qed.

Lemma nodes_of_loaded id (h : Element → list Node) d p :
  h <$> element_by_id id (loaded d p) = h <$> element_by_id id p.
Proof. done. Qed.

Lemma word_nodes_take l :
  (length l ≤ 30)%nat → word_nodes (take 30 l) = word_nodes l.
Proof. intros. by rewrite take_ge. Qed.

Lemma shared_nodes_take l :
  (length l ≤ 30)%nat → shared_nodes (take 30 l) = shared_nodes l.
Proof. intros. by rewrite take_ge. Qed.

(** C3: after a successful load, each of the three top-words containers holds
    what it held before followed by one word-item per entry of its list, in
    the list's order, for the first 30 entries; a list of at most 30 entries
    is rendered whole, with nothing added, and the run ends without an alert. *)
Theorem top_words_rendered_in_given_order net p r d t0 t1 :
  net "analysis.json" = Responded r → body r = Json d →
  Data.texts d !! 0%nat = Some t0 → Data.texts d !! 1%nat = Some t1 →
  has_ids page_ids p →
  let run := onDOMContentLoaded toLocaleString net p in
  let shared := Data.top_shared_words (Data.comparison d) in
  run.1 = Normal () ∧ alerts run.2 = alerts p
  ∧ appended "folkard-top-words" (word_nodes (take 30 (Data.top_words t0))) p run.2
  ∧ appended "shakespeare-top-words" (word_nodes (take 30 (Data.top_words t1))) p run.2
  ∧ appended "shared-words" (shared_nodes (take 30 shared)) p run.2
  ∧ ((length (Data.top_words t0) ≤ 30)%nat →
     appended "folkard-top-words" (word_nodes (Data.top_words t0)) p run.2)
  ∧ ((length (Data.top_words t1) ≤ 30)%nat →
     appended "shakespeare-top-words" (word_nodes (Data.top_words t1)) p run.2)
  ∧ ((length shared ≤ 30)%nat → appended "shared-words" (shared_nodes shared) p run.2).
Proof.
  intros Hnet Hbody H0 H1 Hids run shared. subst run.
  rewrite (loaded_run net p r d t0 t1) by done. cbn [fst snd].
  set (q := apply_writes _ _).
  assert (Hq : ∀ id, nodes_of id (add_listeners (nav_listeners (elems q)) q)
                     = (λ e, childNodes (write_for id (page_writes toLocaleString d t0 t1) e))
                       <$> element_by_id id p).
  { intros id. rewrite nodes_of_add_listeners. unfold q.
    rewrite nodes_of_apply_writes by apply page_writes_preserve. apply nodes_of_loaded. }
  assert (Hf : appended "folkard-top-words" (word_nodes (take 30 (Data.top_words t0))) p
                 (add_listeners (nav_listeners (elems q)) q)).
  { unfold appended. rewrite Hq. unfold nodes_of. rewrite <- option_fmap_compose.
    apply option_fmap_ext. intros e. apply page_writes_folkard_top_words. }
  assert (Hs : appended "shakespeare-top-words" (word_nodes (take 30 (Data.top_words t1))) p
                 (add_listeners (nav_listeners (elems q)) q)).
  { unfold appended. rewrite Hq. unfold nodes_of. rewrite <- option_fmap_compose.
    apply option_fmap_ext. intros e. apply page_writes_shakespeare_top_words. }
  assert (Hc : appended "shared-words" (shared_nodes (take 30 shared)) p
                 (add_listeners (nav_listeners (elems q)) q)).
  { unfold appended. rewrite Hq. unfold nodes_of. rewrite <- option_fmap_compose.
    apply option_fmap_ext. intros e. apply page_writes_shared_words. }
  split_and!; try done.
  - intros Hl. by rewrite <- word_nodes_take.
  - intros Hl. by rewrite <- word_nodes_take.
  - intros Hl. by rewrite <- shared_nodes_take.
Qed.

End claims_rendering.

Section claims_populators.
Variable toLocaleString : number → string.

Lemma text_content_nonempty s : s ≠ "" → text_content s = [TextNode s].
Proof. intros. unfold text_content. by rewrite decide_False. Qed.

Lemma append_nonempty_r (a b : string) : b ≠ "" → a +:+ b ≠ "".
Proof. destruct a; simpl; [done|]. discriminate. Qed.

Lemma text_content_percent s : text_content (s +:+ "%") = [TextNode (s +:+ "%")].
Proof. apply text_content_nonempty, append_nonempty_r. discriminate. Qed.

Lemma text_content_overlap_detail c :
  text_content (overlap_detail toLocaleString c) = [TextNode (overlap_detail toLocaleString c)].
Proof.
  apply text_content_nonempty. unfold overlap_detail.
  apply append_nonempty_r. discriminate.
Qed.

Lemma is_Some_element_by_id id p :
  is_Some (find_id id (elems p)) → is_Some (element_by_id id p).
Proof.
  intros [i Hi]. unfold element_by_id. rewrite Hi. simpl.
  apply find_id_Some in Hi as (e & -> & _). by eexists.
Qed.

Lemma has_ids_element ids id p :
  has_ids ids p → id ∈ ids → is_Some (element_by_id id p).
Proof.
  intros Hids Hin. apply is_Some_element_by_id.
  unfold has_ids in Hids. rewrite Forall_forall in Hids. by apply Hids.
Qed.

Lemma toFixed_rounds_to_one_decimal y : rounds_to_one_decimal y.
Proof.
  intros v Hv. rewrite (toFixed_fixed y 1 v Hv). unfold fixed_digits.
  eexists. split; [reflexivity|].
  pose proof (round_half_up_nearest (Qabs v * pow10 (Z.of_nat 1))) as H.
  change (pow10 (Z.of_nat 1)) with (inject_Z 10) in *.
  set (n := round_half_up _) in *. clearbody n.
  apply Qabs_Qle_condition in H as [H1 H2].
  apply Qabs_Qle_condition.
  change (inject_Z 10) with 10%Q in *.
  change (inject_Z n / 10)%Q with (inject_Z n * (1 # 10))%Q.
  set (a := Qabs v) in *. set (b := inject_Z n) in *. clearbody a b.
  split; lra.
Qed.

Lemma toFixed_percentage_two_decimals x :
  (0 <=? x)%float = true → (x <=? 100)%float = true → two_decimals (toFixed x 2).
Proof.
  intros H0 H100. destruct (percentage_fixed_value x H0 H100) as (v & Hv & Hge & _).
  rewrite (toFixed_fixed x 2 v Hv).
  replace (Qlt_bool v 0) with false.
  2:{ symmetry. apply not_true_is_false. intros H%Qlt_bool_iff. lra. }
  unfold fixed_digits. rewrite app_nil_l.
  destruct (fixed_layout_shape 2 (round_half_up (Qabs v * pow10 (Z.of_nat 2)))) 
    as (int & frac & -> & ?); [lia|].
  by exists int, frac.
Qed.

End claims_populators.

Section claims_populators2.
Variable toLocaleString : number → string.

Lemma apply_writes_analysisData ws p : analysisData (apply_writes ws p) = analysisData p.
Proof. apply apply_writes_frame. Qed.

(** A list of writes whose only write to [id] appends [new], applied once and
    then once more. *)
Lemma appended_twice id ws new p :
  preserve_ids ws →
  (∀ e, childNodes (write_for id ws e) = childNodes e ++ new) →
  appended id new p (apply_writes ws p)
  ∧ appended id (new ++ new) p (apply_writes ws (apply_writes ws p)).
Proof.
  intros Hws Hnew. unfold appended.
  rewrite <- apply_writes_app.
  rewrite !nodes_of_apply_writes by (done || by apply Forall_app).
  unfold nodes_of. rewrite <- !option_fmap_compose. split.
  - apply option_fmap_ext. intros e. apply Hnew.
  - apply option_fmap_ext. intros e. simpl.
    by rewrite write_for_app, !Hnew, app_assoc.
Qed.

Lemma text_view_appends prefix k id p d t :
  analysisData p = Some d → Data.texts d !! k = Some t →
  has_ids (text_view_ids prefix) p →
  (∀ e, childNodes (write_for id (text_view_writes toLocaleString prefix t) e)
        = childNodes e ++ word_nodes (take 30 (Data.top_words t))) →
  appends_each_time (populateTextView toLocaleString prefix k) id
    (word_nodes (take 30 (Data.top_words t))) p.
Proof.
  intros Hd Ht Hids Hw.
  exists (apply_writes (text_view_writes toLocaleString prefix t) p),
    (apply_writes (text_view_writes toLocaleString prefix t)
       (apply_writes (text_view_writes toLocaleString prefix t) p)).
  split; [by apply (populateTextView_run _ _ _ _ d)|].
  split.
  { apply (populateTextView_run _ _ _ _ d); [by rewrite apply_writes_analysisData|done|].
    by apply has_ids_apply_writes; [apply text_view_writes_preserve|]. }
  apply appended_twice; [apply text_view_writes_preserve|done].
Qed.

(** C9: no populator clears its top-words container.  Run twice in a row on
    the same document, each of the three appends its word-items both times,
    so the container ends with what it held, then the items, then the items
    again; each run adds min(|list|, 30) of them. *)
Theorem populators_append_without_clearing p d t0 t1 :
  analysisData p = Some d →
  Data.texts d !! 0%nat = Some t0 → Data.texts d !! 1%nat = Some t1 →
  has_ids page_ids p →
  let shared := Data.top_shared_words (Data.comparison d) in
  appends_each_time (populateFolkardView toLocaleString) "folkard-top-words"
    (word_nodes (take 30 (Data.top_words t0))) p
  ∧ appends_each_time (populateShakespeareView toLocaleString) "shakespeare-top-words"
      (word_nodes (take 30 (Data.top_words t1))) p
  ∧ appends_each_time (populateComparisonView toLocaleString) "shared-words"
      (shared_nodes (take 30 shared)) p
  ∧ length (word_nodes (take 30 (Data.top_words t0))) = (length (Data.top_words t0) `min` 30)%nat
  ∧ length (word_nodes (take 30 (Data.top_words t1))) = (length (Data.top_words t1) `min` 30)%nat
  ∧ length (shared_nodes (take 30 shared)) = (length shared `min` 30)%nat.
Proof.
  intros Hd H0 H1 (Hf & Hs & Hc)%has_ids_app_3 shared. split_and!.
  - rewrite populateFolkardView_eq. apply (text_view_appends _ _ _ _ d); [done..|].
    intros e. eval_write_for. by destruct e.
  - rewrite populateShakespeareView_eq. apply (text_view_appends _ _ _ _ d); [done..|].
    intros e. eval_write_for. by destruct e.
  - set (ws := comparison_writes toLocaleString (Data.comparison d)).
    exists (apply_writes ws p), (apply_writes ws (apply_writes ws p)).
    split; [by apply populateComparisonView_run|].
    split.
    { apply populateComparisonView_run; [by rewrite apply_writes_analysisData|].
      by apply has_ids_apply_writes; [apply comparison_writes_preserve|]. }
    apply appended_twice; [apply comparison_writes_preserve|].
    intros e. unfold ws. eval_write_for. by destruct e.
  - unfold word_nodes. by rewrite length_fmap, length_take, Nat.min_comm.
  - unfold word_nodes. by rewrite length_fmap, length_take, Nat.min_comm.
  - unfold shared_nodes. by rewrite length_fmap, length_take, Nat.min_comm.
Qed.

End claims_populators2.

Section claims_formatting.
Variable toLocaleString : number → string.

Lemma style_of_written id prop ws p (v : string) :
  preserve_ids ws → is_Some (find_id id (elems p)) →
  (∀ e, style (write_for id ws e) !! prop = Some v) →
  style_of id prop (apply_writes ws p) = Some v.
Proof.
  intros Hws Hid Hv. rewrite style_of_apply_writes by done.
  destruct (is_Some_element_by_id _ _ Hid) as [e ->]. apply Hv.
Qed.

Lemma nodes_of_written id ws p (l : list Node) :
  preserve_ids ws → is_Some (find_id id (elems p)) →
  (∀ e, childNodes (write_for id ws e) = l) →
  nodes_of id (apply_writes ws p) = Some l.
Proof.
  intros Hws Hid Hl. rewrite nodes_of_apply_writes by done.
  destruct (is_Some_element_by_id _ _ Hid) as [e ->]. simpl. by rewrite Hl.
Qed.

Lemma has_ids_elem ids id p : has_ids ids p → id ∈ ids → is_Some (find_id id (elems p)).
Proof. unfold has_ids. rewrite Forall_forall. auto. Qed.

Ltac write_read :=
  intros ?e; lazy beta iota zeta delta
    [write_for fst snd app String.append String.eqb Ascii.eqb Bool.eqb
     page_writes comparison_writes chart_writes text_view_writes];
  rewrite ?text_content_percent, ?text_content_overlap_detail;
  first [ by destruct e | destruct e; apply lookup_insert_eq ].

Ltac in_ids := unfold text_view_ids, comparison_ids; cbn [fmap list_fmap String.append];
  solve [ repeat first [ by left | right ] ].

Ltac has_elem :=
  match goal with
  | H : has_ids _ _ |- _ => eapply has_ids_elem; [exact H | in_ids]
  end.

(** C4: each corpus populator sets, for each of the three fractions f, the
    bar's width to the number f·100 followed by a percent sign and the label
    to toFixed(1) of the same product followed by a percent sign; and
    toFixed(1) of a value it prints in fixed notation is that value rounded to
    the nearest tenth. *)
Theorem sentiment_width_and_label_agree p d t0 t1 :
  analysisData p = Some d →
  Data.texts d !! 0%nat = Some t0 → Data.texts d !! 1%nat = Some t1 →
  has_ids page_ids p →
  ∃ p0 p1,
    populateFolkardView toLocaleString p = (Normal (), p0)
    ∧ populateShakespeareView toLocaleString p = (Normal (), p1)
    ∧ bar_and_label "folkard-sent-pos" "folkard-sent-pos-val"
        (Data.positive (Data.sentiment t0)) p0
    ∧ bar_and_label "folkard-sent-neg" "folkard-sent-neg-val"
        (Data.negative (Data.sentiment t0)) p0
    ∧ bar_and_label "folkard-sent-neu" "folkard-sent-neu-val"
        (Data.neutral (Data.sentiment t0)) p0
    ∧ bar_and_label "shakespeare-sent-pos" "shakespeare-sent-pos-val"
        (Data.positive (Data.sentiment t1)) p1
    ∧ bar_and_label "shakespeare-sent-neg" "shakespeare-sent-neg-val"
        (Data.negative (Data.sentiment t1)) p1
    ∧ bar_and_label "shakespeare-sent-neu" "shakespeare-sent-neu-val"
        (Data.neutral (Data.sentiment t1)) p1
    ∧ ∀ f : number, rounds_to_one_decimal (f * 100)%float.
Proof.
  intros Hd H0 H1 (Hf & Hs & Hc)%has_ids_app_3.
  exists (apply_writes (text_view_writes toLocaleString "folkard" t0) p),
    (apply_writes (text_view_writes toLocaleString "shakespeare" t1) p).
  rewrite populateFolkardView_eq, populateShakespeareView_eq.
  split; [by apply (populateTextView_run _ _ _ _ d)|].
  split; [by apply (populateTextView_run _ _ _ _ d)|].
  pose proof (text_view_writes_preserve toLocaleString "folkard" t0) as Hp0.
  pose proof (text_view_writes_preserve toLocaleString "shakespeare" t1) as Hp1.
  split_and!; try (intros f; apply toFixed_rounds_to_one_decimal);
    (split;
     [ apply style_of_written; [done | has_elem | write_read]
     | apply nodes_of_written; [done | has_elem | write_read] ]).
Qed.

(** C6: the comparison populator sets the overlap slot to toFixed(2) of
    overlap_percentage followed by a percent sign (for a percentage between 0
    and 100: an integer part, a point and exactly two digits) and the detail
    slot to the one summary line made of the three counts, each formatted by
    toLocaleString, joined by the fixed words. *)
Theorem overlap_statistics_rendered p d :
  analysisData p = Some d →
  has_ids comparison_ids p →
  let c := Data.comparison d in
  ∃ p1,
    populateComparisonView toLocaleString p = (Normal (), p1)
    ∧ nodes_of "overlap-percent" p1
      = Some [TextNode (toFixed (Data.overlap_percentage c) 2 +:+ "%")]
    ∧ nodes_of "overlap-detail" p1
      = Some [TextNode
                (toLocaleString (Data.total_shared_words c) +:+ " shared words • "
                 +:+ toLocaleString (Data.unique_to_folkard c) +:+ " unique to Folkard • "
                 +:+ toLocaleString (Data.unique_to_shakespeare c)
                 +:+ " unique to Shakespeare")]
    ∧ ((0 <=? Data.overlap_percentage c)%float = true →
       (Data.overlap_percentage c <=? 100)%float = true →
       two_decimals (toFixed (Data.overlap_percentage c) 2)).
Proof.
  intros Hd Hids c.
  exists (apply_writes (comparison_writes toLocaleString c) p).
  split; [by apply populateComparisonView_run|].
  pose proof (comparison_writes_preserve toLocaleString c) as Hp.
  split_and!.
  - apply nodes_of_written; [done | has_elem | write_read].
  - fold (overlap_detail toLocaleString c).
    apply nodes_of_written; [done | has_elem | write_read].
  - apply toFixed_percentage_two_decimals.
Qed.

End claims_formatting.

Section claims_chart.
Variable toLocaleString : number → string.

Lemma chart_node_written c e :
  childNodes (write_for "overlap-chart" (chart_writes toLocaleString c) e)
  = [vennSvg toLocaleString c].
Proof.
  lazy beta iota zeta delta
    [write_for fst snd String.eqb Ascii.eqb Bool.eqb chart_writes].
  by destruct e.
Qed.

Lemma write_found id f els i : find_id id els = Some i → write id f els = alter f i els.
Proof. unfold write. by intros ->. Qed.

Lemma write_missing id f els : find_id id els = None → write id f els = els.
Proof. unfold write. by intros ->. Qed.

Lemma chart_writes_twice c p :
  apply_writes (chart_writes toLocaleString c) (apply_writes (chart_writes toLocaleString c) p)
  = apply_writes (chart_writes toLocaleString c) p.
Proof.
  unfold apply_writes, chart_writes. cbn [foldl fst snd].
  destruct p as [els ls co al rq ad]. unfold set_elements. cbn [elems listeners console
    alerts requests analysisData]. f_equal.
  destruct (find_id "overlap-chart" els) as [i|] eqn:Hi.
  - repeat (rewrite (write_found _ _ _ i)
              by (by rewrite ?find_id_write, ?find_id_alter by apply _)).
    rewrite !list_alter_alter_eq. apply list_alter_ext; [|done].
    intros [] _. reflexivity.
  - repeat rewrite (write_missing _ _ els) by done. done.
Qed.

(** C5: the chart renderer is idempotent.  Rendering the same comparison
    again on the page the first rendering left yields that page, with the
    same outcome; and where the page has the chart container, the container
    then holds the one svg and nothing else, whatever it held before. *)
Theorem createVennDiagram_idempotent c p :
  createVennDiagram toLocaleString c (createVennDiagram toLocaleString c p).2
  = createVennDiagram toLocaleString c p
  ∧ (is_Some (find_id "overlap-chart" (elems p)) →
     (createVennDiagram toLocaleString c p).1 = Normal ()
     ∧ nodes_of "overlap-chart" (createVennDiagram toLocaleString c p).2
       = Some [vennSvg toLocaleString c]).
Proof.
  rewrite (createVennDiagram_run toLocaleString c p).
  destruct (find_id "overlap-chart" (elems p)) as [i|] eqn:Hi.
  - cbn [fst snd]. split.
    + rewrite createVennDiagram_run.
      rewrite find_id_apply_writes, Hi by apply chart_writes_preserve.
      by rewrite chart_writes_twice.
    + intros _. split; [done|].
      apply nodes_of_written; [apply chart_writes_preserve|by rewrite Hi|].
      apply chart_node_written.
  - cbn [fst snd]. split.
    + by rewrite createVennDiagram_run, Hi.
    + by intros [? ?].
Qed.

End claims_chart.

(** The svg written out: everything in it is fixed but the three counts. *)
Lemma vennSvg_tree (toLocaleString : number → string) c :
  vennSvg toLocaleString c
  = ElementNode "svg"
      [("width", "600"); ("height", "400"); ("viewBox", "0 0 600 400")]
      [("max-width", "100%"); ("height", "auto")]
      [ ElementNode "circle"
          [("cx", "220"); ("cy", "200"); ("r", "120"); ("class", "venn-circle")]
          [("fill", "#8A9A8B")] [];
        ElementNode "circle"
          [("cx", "380"); ("cy", "200"); ("r", "120"); ("class", "venn-circle")]
          [("fill", "#B08F8F")] [];
        ElementNode "text"
          [("x", "150"); ("y", "60"); ("class", "venn-label"); ("text-anchor", "middle")]
          [] [TextNode "Folkard"];
        ElementNode "text"
          [("x", "450"); ("y", "60"); ("class", "venn-label"); ("text-anchor", "middle")]
          [] [TextNode "Shakespeare"];
        ElementNode "text"
          [("x", "150"); ("y", "200"); ("class", "venn-count"); ("text-anchor", "middle")]
          [] (text_content (toLocaleString (Data.unique_to_folkard c)));
        ElementNode "text"
          [("x", "450"); ("y", "200"); ("class", "venn-count"); ("text-anchor", "middle")]
          [] (text_content (toLocaleString (Data.unique_to_shakespeare c)));
        ElementNode "text"
          [("x", "300"); ("y", "200"); ("class", "venn-count"); ("text-anchor", "middle")]
          [("fill", "#6B394A")] (text_content (toLocaleString (Data.total_shared_words c)));
        ElementNode "text"
          [("x", "300"); ("y", "230"); ("class", "venn-label"); ("text-anchor", "middle")]
          [("font-size", "12px")] [TextNode "Shared"] ].
Proof.
  unfold vennSvg, d3.text.
  generalize (text_content (toLocaleString (Data.unique_to_folkard c))).
  generalize (text_content (toLocaleString (Data.unique_to_shakespeare c))).
  generalize (text_content (toLocaleString (Data.total_shared_words c))).
  intros shared second first. vm_compute. reflexivity.
Qed.

Section claims_geometry.
Variable toLocaleString : number → string.




End claims_geometry.

Section claims_counts.
Variable toLocaleString : number → string.

(** C2 (as the code has it): the renderer leaves one svg in the chart
    container; its fifth and sixth children are the two counts, the text of
    toLocaleString of unique_to_folkard and of unique_to_shakespeare; each is
    anchored at its circle's height (y = 200 = cy) but 70 outwards of the
    circle's centre: x = 150 against cx = 220 on the left, x = 450 against
    cx = 380 on the right. *)
Theorem counts_drawn_beside_circle_centres c p :
  is_Some (find_id "overlap-chart" (elems p)) →
  ∃ svg circle1 circle2 count1 count2,
    nodes_of "overlap-chart" (createVennDiagram toLocaleString c p).2 = Some [svg]
    ∧ children_of svg !! 0%nat = Some circle1 ∧ children_of svg !! 1%nat = Some circle2
    ∧ children_of svg !! 4%nat = Some count1 ∧ children_of svg !! 5%nat = Some count2
    ∧ children_of count1 = text_content (toLocaleString (Data.unique_to_folkard c))
    ∧ children_of count2 = text_content (toLocaleString (Data.unique_to_shakespeare c))
    ∧ centre circle1 = (Some "220", Some "200") ∧ anchor count1 = (Some "150", Some "200")
    ∧ centre circle2 = (Some "380", Some "200") ∧ anchor count2 = (Some "450", Some "200")
    ∧ toString (220 - 70) = "150" ∧ toString (380 + 70) = "450".
Proof.
  intros Hid. eexists _, _, _, _, _. split.
  { rewrite createVennDiagram_run. destruct Hid as [i Hi]. rewrite Hi. cbn [snd].
    apply nodes_of_written; [apply chart_writes_preserve|by rewrite Hi|].
    intros e. rewrite chart_node_written. by rewrite vennSvg_tree. }
  cbn [children_of]. split_and!; try reflexivity; by vm_compute.
Qed.

End claims_counts.

Section claims_navigation.

Implicit Types (p q : Page) (els : list Element).

(** The listeners of [setupNavigation] on a page that had none. *)
Lemma setupNavigation_listeners p0 :
  listeners p0 = [] → listeners (setupNavigation p0).2 = nav_listeners (elems p0).
Proof.
  intros Hl. rewrite setupNavigation_run. unfold add_listeners. cbn [snd listeners].
  by rewrite Hl.
Qed.

Lemma click_listeners els0 q b :
  listeners q = nav_listeners els0 → listeners (click b q) = listeners q.
Proof.
  intros Hls. destruct (decide (b ∈ find_class "nav-btn" els0)) as [Hb|Hb].
  - rewrite (click_nav_listener b q _ _ Hls) by (done || apply NoDup_find_class).
    by rewrite navClick_run.
  - by rewrite (click_other b q _ _ Hls).
Qed.

Lemma click_idempotent els0 q b :
  listeners q = nav_listeners els0 → click b (click b q) = click b q.
Proof.
  intros Hls. pose proof (click_listeners els0 q b Hls) as Hls'. rewrite Hls in Hls'.
  destruct (decide (b ∈ find_class "nav-btn" els0)) as [Hb|Hb].
  - rewrite (click_nav_listener b (click b q) _ _ Hls') by (done || apply NoDup_find_class).
    rewrite (click_nav_listener b q _ _ Hls) by (done || apply NoDup_find_class).
    by rewrite navClick_idempotent.
  - by rewrite (click_other b (click b q) _ _ Hls').
Qed.

(** C7: on a page whose click listeners are those [setupNavigation] attached
    (when the page had elements [els0]), a click on the selector of view V,
    whose container view-V the page has, leaves that selector the only one
    marked active, shows container V and hides every other view container.
    The listeners stay as they are, so this holds at every later click too;
    and clicking any selector again right after changes nothing: the page
    after the second click is the page after the first. *)
Theorem navigation_selects_one_view els0 q :
  listeners q = nav_listeners els0 →
  let selectors := find_class "nav-btn" els0 in
  let views := find_class "text-view" els0 in
  (∀ b, listeners (click b q) = listeners q ∧ click b (click b q) = click b q)
  ∧ ∀ b V t,
      b ∈ selectors →
      elems q !! b ≫= dataset_view = Some V →
      find_id ("view-" +:+ V) (elems q) = Some t →
      let q' := click b q in
      (∀ j e, j ∈ selectors → elems q' !! j = Some e → "active" ∈ classList e ↔ j = b)
      ∧ (∃ e, elems q' !! t = Some e ∧ style e !! "display" = Some "block")
      ∧ (∀ j e, j ∈ views → j ≠ t → elems q' !! j = Some e →
           style e !! "display" = Some "none").
Proof.
  intros Hls selectors views. split.
  { intros b. split; [by apply (click_listeners els0)|by apply (click_idempotent els0)]. }
  intros b V t Hb HV Ht q'. subst q'.
  rewrite (click_nav_listener b q _ _ Hls) by (done || apply NoDup_find_class).
  rewrite navClick_run. cbn [snd]. rewrite elems_set_elements.
  assert (Htarget : nav_target b (elems q) = Some t).
  { unfold nav_target. by rewrite HV. }
  rewrite Htarget. fold selectors views.
  split_and!.
  - intros j e Hj. rewrite list_lookup_imap.
    destruct (elems q !! j) as [[i cl dv st kids]|]; [|done]. intros [= <-].
    unfold nav_effect, set_style, set_classList. cbn [classList].
    rewrite (decide_True (P := j ∈ selectors)) by done.
    destruct (decide (j = b)) as [->|Hne].
    + split; [done|intros _]. case_decide; [done|]. apply elem_of_app. right. by left.
    + split; [|done]. by intros [? _]%list_elem_of_filter.
  - apply find_id_Some in Ht as (e & He & _). eexists. rewrite list_lookup_imap, He.
    split; [done|]. destruct e. unfold nav_effect, set_style, set_classList. cbn [style].
    rewrite decide_True by done. apply lookup_insert_eq.
  - intros j e Hj Hne. rewrite list_lookup_imap.
    destruct (elems q !! j) as [[i cl dv st kids]|]; [|done]. intros [= <-].
    unfold nav_effect, set_style, set_classList. cbn [style].
    rewrite decide_False by congruence. rewrite decide_True by done. apply lookup_insert_eq.
Qed.

End claims_navigation.

Section claims_loader.
Variable toLocaleString : number → string.

(** C1 (as the code has it): when fetch rejects or the body does not parse as
    JSON, the listener ends in its catch block having done nothing else: one
    alert and one console error carrying the exception, the one request and no
    second one, and the elements, the listeners and [analysisData] exactly as
    they were, so no populator has written to any slot. *)
Theorem load_failure_reported_without_side_effects net p :
  transport_or_parse_failure net →
  let run := onDOMContentLoaded toLocaleString net p in
  run.1 = Normal ()
  ∧ alerts run.2
    = alerts p ++ ["Failed to load analysis data. Please ensure analysis.json exists."]
  ∧ console run.2
    = console p ++ [ConsoleError "Error loading analysis data:" (load_error net)]
  ∧ requests run.2 = requests p ++ ["analysis.json"]
  ∧ elems run.2 = elems p
  ∧ listeners run.2 = listeners p
  ∧ analysisData run.2 = analysisData p.
Proof.
  intros Hfail run. subst run.
  rewrite (onDOMContentLoaded_failure toLocaleString net p Hfail).
  unfold failure_reported. cbn [fst snd]. by split_and!.
Qed.

Lemma loaded_then_monotone d p :
  extends (loaded d p) (try_catch (initialise toLocaleString) report (loaded d p)).2.
Proof.
  apply monotone_try_catch; [apply monotone_initialise|apply monotone_report].
Qed.

End claims_loader.

(** * Further properties of the script *)

(** ** The populators, slot by slot *)

Lemma set_elements_write_missing id f p :
  find_id id (elems p) = None → set_elements (write id f) p = p.
Proof. intros H. unfold set_elements, write. rewrite H. by destruct p. Qed.

Lemma find_id_cases id p :
  is_Some (find_id id (elems p)) ∨ find_id id (elems p) = None.
Proof. destruct (find_id id (elems p)); [left; by eexists | by right]. Qed.

(** One statement of a populator: with the slot on the page the write goes
    through; without it the statement throws and the script stops there. *)
Ltac slot_cases id p :=
  let Hs := fresh "Hslot" in
  let Hn := fresh "Hnone" in
  destruct (find_id_cases id p) as [Hs|Hn];
  [ js_step;
    let i := fresh "i" in
    let Hi := fresh "Hi" in
    pose proof Hs as [i Hi]; rewrite Hi; cbv beta iota; clear i Hi
  | rewrite ?elems_set_elements, ?find_id_write by apply _;
    rewrite !Hn; reflexivity ].

Ltac trace_step p :=
  lazymatch goal with
  | |- (set_textContent (find_id ?id _) _ ≫= _) _ = _ => slot_cases id p
  | |- (set_style_property (find_id ?id _) _ _ ≫= _) _ = _ => slot_cases id p
  | |- (clear_innerHTML (find_id ?id _) ≫= _) _ = _ => slot_cases id p
  | |- (_ ≫= _) _ = _ => etrans; [apply bind_run; reflexivity|]; cbv beta
  end.

Section trace.
Variable toLocaleString : number → string.

(** A corpus populator on a loaded document, by the slots the page has: it
    makes its writes in program order up to the first statistic slot that is
    missing and throws there; past the tenth it appends the words, and throws
    only if there is a word and no container. *)
Lemma populateTextView_trace prefix k p doc t :
  analysisData p = Some doc → Data.texts doc !! k = Some t →
  let ws := text_view_writes toLocaleString prefix t in
  let n := slots_found (statistic_ids prefix) (elems p) in
  populateTextView toLocaleString prefix k p
  = if decide (n = 10%nat) then
      match find_id (prefix +:+ "-top-words") (elems p), take 30 (Data.top_words t) with
      | None, _ :: _ => (Throw TypeError, apply_writes (take 10 ws) p)
      | _, _ => (Normal (), apply_writes ws p)
      end
    else (Throw TypeError, apply_writes (take n ws) p).
Proof.
  intros Hdoc Ht ws n. subst ws n. unfold populateTextView.
  etrans; [apply bind_run; unfold get_analysisData; by rewrite Hdoc|]. cbv beta zeta.
  rewrite Ht. cbn [get].
  unfold text_view_writes, statistic_ids. cbn [take slots_found fst snd fmap list_fmap].
  repeat trace_step p.
  set (q := set_elements _ _).
  destruct (find_id_cases (prefix +:+ "-top-words") p) as [Hs|Hn].
  - rewrite forEach_appendChild_by_id by (subst q; has_id).
    destruct Hs as [i ->]. reflexivity.
  - assert (Hq : find_id (prefix +:+ "-top-words") (elems q) = None).
    { subst q. by rewrite ?elems_set_elements, ?find_id_write by apply _. }
    rewrite Hn, Hq. destruct (take 30 (Data.top_words t)) as [|item l]; [|reflexivity].
    cbn [forEach]. unfold apply_writes. cbn [foldl fst snd]. fold q.
    by rewrite set_elements_write_missing.
Qed.

End trace.

Section trace_comparison.
Variable toLocaleString : number → string.

(** The comparison populator likewise: the two overlap slots, the chart (two
    writes to its container), then the shared words. *)
Lemma populateComparisonView_trace p doc :
  analysisData p = Some doc →
  let c := Data.comparison doc in
  let ws := comparison_writes toLocaleString c in
  let n := slots_found ["overlap-percent"; "overlap-detail"; "overlap-chart"] (elems p) in
  populateComparisonView toLocaleString p
  = if decide (n = 3%nat) then
      match find_id "shared-words" (elems p), take 30 (Data.top_shared_words c) with
      | None, _ :: _ => (Throw TypeError, apply_writes (take 4 ws) p)
      | _, _ => (Normal (), apply_writes ws p)
      end
    else (Throw TypeError, apply_writes (take n ws) p).
Proof.
  intros Hdoc c ws n. subst ws n. unfold populateComparisonView.
  etrans; [apply bind_run; unfold get_analysisData; by rewrite Hdoc|]. cbv beta zeta.
  fold c. unfold comparison_writes, chart_writes. cbn [app take slots_found fst snd].
  do 4 trace_step p.
  set (q := set_elements _ _).
  assert (Hq : ∀ id, find_id id (elems q) = find_id id (elems p)).
  { intros id. unfold q. by rewrite !elems_set_elements, !find_id_write by apply _. }
  destruct (find_id_cases "overlap-chart" p) as [Hs|Hn].
  - etrans; [apply bind_run; rewrite createVennDiagram_run, Hq|].
    { destruct Hs as [i ->]. reflexivity. }
    cbv beta. pose proof Hs as [i Hi]. rewrite Hi. cbv beta iota. clear i Hi.
    etrans; [apply bind_run; reflexivity|]. cbv beta.
    set (q' := apply_writes _ q).
    assert (Hq' : ∀ id, find_id id (elems q') = find_id id (elems p)).
    { intros id. unfold q'. rewrite find_id_apply_writes by apply chart_writes_preserve.
      apply Hq. }
    destruct (find_id_cases "shared-words" p) as [Hs'|Hn'].
    + rewrite forEach_appendChild_by_id by (by rewrite Hq').
      destruct Hs' as [i ->]. reflexivity.
    + rewrite Hq', Hn'.
      destruct (take 30 (Data.top_shared_words c)) as [|item l]; [|reflexivity].
      cbn [forEach].
      rewrite <- (set_elements_write_missing "shared-words"
                    (set_childNodes (λ kids, kids ++ shared_nodes [])) q')
        by (by rewrite Hq').
      reflexivity.
  - etrans; [apply bind_throw; rewrite createVennDiagram_run, Hq, Hn; reflexivity|].
    by rewrite Hn.
Qed.

End trace_comparison.

Section populator_errors.
Variable toLocaleString : number → string.

Lemma populateTextView_no_document prefix k p :
  analysisData p = None → populateTextView toLocaleString prefix k p = (Throw TypeError, p).
Proof.
  intros H. unfold populateTextView. apply bind_throw. unfold get_analysisData. by rewrite H.
Qed.

Lemma populateTextView_no_text prefix k p d :
  analysisData p = Some d → Data.texts d !! k = None →
  populateTextView toLocaleString prefix k p = (Throw TypeError, p).
Proof.
  intros Hd Hk. unfold populateTextView.
  etrans; [apply bind_run; unfold get_analysisData; by rewrite Hd|]. cbv beta zeta.
  rewrite Hk. reflexivity.
Qed.

Lemma populateComparisonView_no_document p :
  analysisData p = None → populateComparisonView toLocaleString p = (Throw TypeError, p).
Proof.
  intros H. unfold populateComparisonView. apply bind_throw. unfold get_analysisData. by rewrite H.
Qed.

Lemma slots_found_all ids p : slots_found ids (elems p) = length ids ↔ has_ids ids p.
Proof.
  unfold has_ids. induction ids as [|id ids IH]; simpl.
  - split; [constructor|done].
  - rewrite Forall_cons. destruct (find_id id (elems p)) as [i|].
    + rewrite <- IH. split; [intros [= ?]; split; [by eexists|done] | intros [_ ->]; done].
    + split; [done|]. by intros [[? ?] _].
Qed.

Lemma take_S_nil {A} n (l : list A) : take (S n) l = [] ↔ l = [].
Proof. by destruct l. Qed.

Lemma populateTextView_completes prefix k p d t :
  analysisData p = Some d → Data.texts d !! k = Some t →
  completes_iff_slots (populateTextView toLocaleString prefix k) prefix t p.
Proof.
  intros Hd Ht. unfold completes_iff_slots.
  rewrite (populateTextView_trace toLocaleString prefix k p d t Hd Ht). cbv zeta.
  pose proof (slots_found_all (statistic_ids prefix) p) as Hall.
  change (length (statistic_ids prefix)) with 10%nat in Hall.
  destruct (decide (slots_found (statistic_ids prefix) (elems p) = 10%nat)) as [Hn|Hn].
  - apply Hall in Hn.
    destruct (find_id (prefix +:+ "-top-words") (elems p)) as [i|] eqn:Hi.
    + cbn [fst]. split; [by left|]. split; [|done]. intros _. split; [done|]. right. by eexists.
    + destruct (take 30 (Data.top_words t)) as [|item l] eqn:Hl; cbn [fst].
      * apply take_S_nil in Hl. split; [by left|]. split; [|done]. intros _. split; [done|by left].
      * split; [by right|]. split; [done|]. intros [_ [Hnil|[? ?]]]; [|done].
        by rewrite Hnil in Hl.
  - cbn [fst]. split; [by right|]. split; [done|]. intros [Hids _]. by apply Hall in Hids.
Qed.

Lemma write_for_not_in id ws e : id ∉ ws.*1 → write_for id ws e = e.
Proof.
  revert e. induction ws as [|[id' f] ws IH]; intros e Hid; simpl in *; [done|].
  apply not_elem_of_cons in Hid as [Hne Hid].
  destruct (String.eqb_spec id' id) as [->|_]; [done|]. by apply IH.
Qed.

Lemma preserve_ids_take n ws : preserve_ids ws → preserve_ids (take n ws).
Proof. apply Forall_take. Qed.

Lemma element_by_id_not_written id ws p :
  preserve_ids ws → id ∉ ws.*1 → element_by_id id (apply_writes ws p) = element_by_id id p.
Proof.
  intros Hws Hid. rewrite element_by_id_apply_writes by done.
  destruct (element_by_id id p) as [e|]; [|done]. simpl. by rewrite write_for_not_in.
Qed.

Lemma text_view_ids_NoDup prefix : NoDup (text_view_ids prefix).
Proof.
  unfold text_view_ids. apply (NoDup_fmap_2 _). apply (bool_decide_unpack _). by vm_compute.
Qed.

Lemma NoDup_drop_not_take {A} n (l : list A) x : NoDup l → x ∈ drop n l → x ∉ take n l.
Proof.
  intros Hnd Hd Ht. rewrite <- (take_drop n l) in Hnd.
  apply NoDup_app in Hnd as (_ & Hdis & _). by apply (Hdis x).
Qed.

Lemma populateTextView_stops prefix k p d t :
  analysisData p = Some d → Data.texts d !! k = Some t →
  stops_at_first_missing_slot toLocaleString (populateTextView toLocaleString prefix k) prefix t p.
Proof.
  intros Hd Ht. unfold stops_at_first_missing_slot.
  rewrite (populateTextView_trace toLocaleString prefix k p d t Hd Ht). cbv zeta.
  set (ws := text_view_writes toLocaleString prefix t).
  set (n := slots_found (statistic_ids prefix) (elems p)).
  assert (Hrest : ∀ id, id ∈ drop n (text_view_ids prefix) →
            element_by_id id (apply_writes (take n ws) p) = element_by_id id p).
  { intros id Hid. apply element_by_id_not_written.
    - apply preserve_ids_take, text_view_writes_preserve.
    - rewrite fmap_take. change (ws.*1) with (text_view_ids prefix).
      apply NoDup_drop_not_take; [apply text_view_ids_NoDup|done]. }
  destruct (decide (n = 10%nat)) as [Hn|Hn].
  - rewrite Hn in Hrest.
    destruct (find_id (prefix +:+ "-top-words") (elems p)) as [i|].
    + cbn [fst snd]. split; [done|]. intros [=].
    + destruct (take 30 (Data.top_words t)); cbn [fst snd].
      * split; [done|]. intros [=].
      * split; [intros [=]|]. intros _. by rewrite Hn.
  - cbn [fst snd]. split; [intros [=]|]. done.
Qed.

End populator_errors.

Section populator_theorems.
Variable toLocaleString : number → string.

(** X4: a populator run before the document is loaded, or for a corpus the
    document does not have, throws a TypeError and writes nothing. *)
Theorem populators_throw_without_their_data p :
  (analysisData p = None →
     populateFolkardView toLocaleString p = (Throw TypeError, p)
     ∧ populateShakespeareView toLocaleString p = (Throw TypeError, p)
     ∧ populateComparisonView toLocaleString p = (Throw TypeError, p))
  ∧ (∀ d, analysisData p = Some d →
       (Data.texts d !! 0%nat = None →
          populateFolkardView toLocaleString p = (Throw TypeError, p))
       ∧ (Data.texts d !! 1%nat = None →
            populateShakespeareView toLocaleString p = (Throw TypeError, p))).
Proof.
  rewrite populateFolkardView_eq, populateShakespeareView_eq. split.
  - intros Hnone. split_and!.
    + by apply populateTextView_no_document.
    + by apply populateTextView_no_document.
    + by apply populateComparisonView_no_document.
  - intros d Hd. split; intros Hk; by apply (populateTextView_no_text _ _ _ _ d).
Qed.

(** X5: run on a loaded document, each corpus populator ends normally exactly
    when the page has its ten statistic slots and, unless the corpus has no
    top word, its top-words container; in every other case it throws a
    TypeError.  A missing top-words container is no error when there is
    nothing to append to it. *)
Theorem corpus_populators_complete_iff_slots p d t0 t1 :
  analysisData p = Some d →
  Data.texts d !! 0%nat = Some t0 → Data.texts d !! 1%nat = Some t1 →
  completes_iff_slots (populateFolkardView toLocaleString) "folkard" t0 p
  ∧ completes_iff_slots (populateShakespeareView toLocaleString) "shakespeare" t1 p.
Proof.
  intros Hd H0 H1. rewrite populateFolkardView_eq, populateShakespeareView_eq.
  split; by apply (populateTextView_completes _ _ _ _ d).
Qed.

(** X6: a corpus populator that throws leaves a partly populated view: the
    page then is the page with the writes made that come before the first
    statistic slot it lacks (all ten, when only the top-words container is
    missing), in program order, and every slot from that one on is as it
    was.  One that ends normally has made all its writes. *)
Theorem corpus_populators_stop_at_first_missing_slot p d t0 t1 :
  analysisData p = Some d →
  Data.texts d !! 0%nat = Some t0 → Data.texts d !! 1%nat = Some t1 →
  stops_at_first_missing_slot toLocaleString (populateFolkardView toLocaleString) "folkard" t0 p
  ∧ stops_at_first_missing_slot toLocaleString (populateShakespeareView toLocaleString)
      "shakespeare" t1 p.
Proof.
  intros Hd H0 H1. rewrite populateFolkardView_eq, populateShakespeareView_eq.
  split; by apply (populateTextView_stops _ _ _ _ d).
Qed.

End populator_theorems.

(** ** What the populators leave alone *)

Section frame.
Variable toLocaleString : number → string.

#[local] Instance set_childNodes_slot_write h : SlotWrite (set_childNodes h).
Proof. by intros []. Qed.

#[local] Instance set_width_slot_write v : SlotWrite (set_style (insert "width" v)).
Proof.
  intros []. split_and!; try done. intros k Hk. simpl. by rewrite lookup_insert_ne.
Qed.

#[export] Instance slot_write_only_refl ids : Reflexive (slot_write_only ids).
Proof. by intros e. Qed.

#[export] Instance slot_write_only_trans ids : Transitive (slot_write_only ids).
Proof.
  intros e1 e2 e3 (Hi & Hc & Hd & Hs & He) (Hi' & Hc' & Hd' & Hs' & He').
  split_and!; try congruence.
  - intros k Hk. by rewrite Hs', Hs.
  - intros Hn. rewrite He' by (by rewrite Hi). by apply He.
Qed.

Lemma write_slot_only ids id f els `{!SlotWrite f} :
  id ∈ ids → Forall2 (slot_write_only ids) els (write id f els).
Proof.
  intros Hid. unfold write. destruct (find_id id els) as [i|] eqn:Hi.
  - apply Forall2_alter_r; [reflexivity|].
    intros e e' He He' _. assert (e' = e) as -> by congruence.
    destruct (slot_write e) as (? & ? & ? & ?). split_and!; try done.
    intros Hn. destruct Hn. apply find_id_Some in Hi as (e0 & He0 & Hid0).
    assert (e0 = e) as -> by congruence. rewrite Hid0. by apply list_elem_of_fmap_2.
  - reflexivity.
Qed.

Lemma apply_writes_slot_only ids ws p :
  Forall (λ w, w.1 ∈ ids ∧ SlotWrite w.2) ws →
  Forall2 (slot_write_only ids) (elems p) (elems (apply_writes ws p)).
Proof.
  intros Hws. revert p. induction Hws as [|[id f] ws [Hid Hf] Hws IH]; intros p; simpl in *.
  - reflexivity.
  - etrans; [apply (write_slot_only ids id f (elems p)); done|].
    apply (IH (set_elements (write id f) p)).
Qed.

Ltac in_list := cbn [fmap list_fmap]; solve [ repeat first [ by left | right ] ].

Lemma text_view_writes_slots prefix t :
  Forall (λ w, w.1 ∈ text_view_ids prefix ∧ SlotWrite w.2)
    (text_view_writes toLocaleString prefix t).
Proof.
  unfold text_view_writes, text_view_ids.
  repeat (apply Forall_cons; split; [split; [in_list|apply _]|]). constructor.
Qed.

Lemma comparison_writes_slots c :
  Forall (λ w, w.1 ∈ comparison_ids ∧ SlotWrite w.2) (comparison_writes toLocaleString c).
Proof.
  unfold comparison_writes, chart_writes, comparison_ids. cbn [app].
  repeat (apply Forall_cons; split; [split; [in_list|apply _]|]). constructor.
Qed.

Lemma writes_slots_only_intro ids (m : Js unit) :
  (∀ p, ∃ ws, Forall (λ w, w.1 ∈ ids ∧ SlotWrite w.2) ws
             ∧ (m p).2 = apply_writes ws p) →
  writes_slots_only ids m.
Proof.
  intros Hm p. destruct (Hm p) as (ws & Hws & Hq). cbv zeta. rewrite Hq.
  split; [by apply apply_writes_slot_only|]. apply apply_writes_frame.
Qed.

Lemma populateTextView_slots_only prefix k :
  writes_slots_only (text_view_ids prefix) (populateTextView toLocaleString prefix k).
Proof.
  apply writes_slots_only_intro. intros p.
  destruct (analysisData p) as [d|] eqn:Hd.
  2:{ exists []. split; [constructor|]. by rewrite populateTextView_no_document. }
  destruct (Data.texts d !! k) as [t|] eqn:Ht.
  2:{ exists []. split; [constructor|]. by rewrite (populateTextView_no_text _ _ _ _ d). }
  destruct (populateTextView_completes toLocaleString prefix k p d t Hd Ht) as [Hout _].
  destruct (populateTextView_stops toLocaleString prefix k p d t Hd Ht) as [Hn Ht'].
  destruct Hout as [Hout|Hout].
  - eexists. split; [|by apply Hn]. apply text_view_writes_slots.
  - eexists. split; [|by apply Ht']. apply Forall_take, text_view_writes_slots.
Qed.

Lemma populateComparisonView_slots_only :
  writes_slots_only comparison_ids (populateComparisonView toLocaleString).
Proof.
  apply writes_slots_only_intro. intros p.
  destruct (analysisData p) as [d|] eqn:Hd.
  2:{ exists []. split; [constructor|]. by rewrite populateComparisonView_no_document. }
  rewrite (populateComparisonView_trace toLocaleString p d Hd). cbv zeta.
  pose proof (comparison_writes_slots (Data.comparison d)) as Hws.
  repeat case_match; eexists; (split; [|reflexivity]);
    first [ exact Hws | apply Forall_take, Hws ].
Qed.

(** X9: whatever the page and the document, and whether it ends normally or
    throws, a populator changes no element but those carrying one of its own
    ids, and of those only the children and the width: ids, class lists,
    data-view attributes and every other style property stay as they are, and
    so do the listeners, the console and the alerts. *)
Theorem populators_write_their_own_slots_only :
  writes_slots_only (text_view_ids "folkard") (populateFolkardView toLocaleString)
  ∧ writes_slots_only (text_view_ids "shakespeare") (populateShakespeareView toLocaleString)
  ∧ writes_slots_only comparison_ids (populateComparisonView toLocaleString).
Proof.
  rewrite populateFolkardView_eq, populateShakespeareView_eq. split_and!.
  - apply populateTextView_slots_only.
  - apply populateTextView_slots_only.
  - apply populateComparisonView_slots_only.
Qed.

End frame.

(** ** The statistic slots *)

Section number_shape.

Lemma str_nonempty l : l ≠ [] → str l ≠ "".
Proof. by destruct l. Qed.

Lemma fixed_layout_nonempty f n : fixed_layout f n ≠ [].
Proof.
  unfold fixed_layout. destruct f; [apply digits_nonempty|].
  intros H%(f_equal length). rewrite length_app in H. simpl in H. lia.
Qed.

Lemma layout_nonempty ds n : ds ≠ [] → layout ds n ≠ [].
Proof.
  intros Hds. unfold layout. repeat case_match; subst;
    intros Hlen%(f_equal length); rewrite ?length_app in Hlen; simpl in Hlen;
    try lia; destruct ds; simpl in *; try done; lia.
Qed.

Lemma toString_pos_nonempty m e : toString_pos m e ≠ [].
Proof.
  unfold toString_pos. destruct (shortest _ _ _ _ _) as [s n].
  apply layout_nonempty, digits_nonempty.
Qed.

Lemma toFixed_nonempty x f : toFixed x f ≠ "".
Proof.
  unfold toFixed, toString. destruct (Prim2SF x) as [s|[]| |[] m e]; try done;
    try (apply str_nonempty; try done; unfold fixed_digits; try apply fixed_layout_nonempty).
  case_match; [apply toString_pos_nonempty|apply fixed_layout_nonempty].
Qed.

Lemma toFixed_decimals x f :
  (0 < f)%nat → is_Some (fixed_value x) → decimals f (toFixed x f).
Proof.
  intros Hf [v Hv]. rewrite (toFixed_fixed x f v Hv). unfold fixed_digits.
  destruct (fixed_layout_shape f (round_half_up (Qabs v * pow10 (Z.of_nat f))) Hf)
    as (int & frac & -> & ? & ? & ? & ?).
  eexists _, int, frac. split; [reflexivity|]. split_and!; try done.
  destruct (Qlt_bool v 0); [by right|by left].
Qed.

End number_shape.

Ltac slot_read :=
  intros ?e; lazy beta iota zeta delta
    [write_for fst snd app firstn String.append String.eqb Ascii.eqb Bool.eqb
     page_writes comparison_writes chart_writes text_view_writes];
  rewrite ?text_content_percent, ?text_content_overlap_detail;
  first [ by destruct e | destruct e; apply lookup_insert_eq ].

Ltac in_slot_ids :=
  unfold statistic_ids, text_view_ids, comparison_ids; cbn [fmap list_fmap String.append];
  solve [ repeat first [ by left | right ] ].

Ltac slot_there :=
  match goal with
  | H : has_ids _ _ |- _ => eapply has_ids_elem; [exact H | in_slot_ids]
  end.

Section statistics.
Variable toLocaleString : number → string.

Lemma populateTextView_statistics_written prefix k p d t :
  analysisData p = Some d → Data.texts d !! k = Some t → has_ids (statistic_ids prefix) p →
  (populateTextView toLocaleString prefix k p).2
  = apply_writes (text_view_writes toLocaleString prefix t) p
  ∨ (populateTextView toLocaleString prefix k p).2
    = apply_writes (take 10 (text_view_writes toLocaleString prefix t)) p.
Proof.
  intros Hd Ht Hids.
  destruct (populateTextView_completes toLocaleString prefix k p d t Hd Ht) as [Hout _].
  destruct (populateTextView_stops toLocaleString prefix k p d t Hd Ht) as [Hn Hthrow].
  destruct Hout as [Hout|Hout]; [left; by apply Hn|right].
  destruct (Hthrow Hout) as [-> _]. apply slots_found_all in Hids. by rewrite Hids.
Qed.

Lemma nodes_of_written_either id ws ws' p q (l : list Node) :
  q = apply_writes ws p ∨ q = apply_writes ws' p →
  preserve_ids ws → preserve_ids ws' → is_Some (find_id id (elems p)) →
  (∀ e, childNodes (write_for id ws e) = l) → (∀ e, childNodes (write_for id ws' e) = l) →
  nodes_of id q = Some l.
Proof. intros [-> | ->] ? ? ? ? ?; by apply nodes_of_written. Qed.

Ltac read_statistic Hq Hp Hp' :=
  rewrite <- ?(text_content_nonempty _ (toFixed_nonempty _ 3));
  eapply nodes_of_written_either;
    [exact Hq | exact Hp | exact Hp' | slot_there | slot_read | slot_read].

(** X7: a corpus populator run on a page with its ten statistic slots leaves
    the two word counts formatted by toLocaleString, the lexical diversity as
    toFixed(2) of diversity·100 followed by a percent sign, and the compound
    score as toFixed(3), whether or not it can then render the words; a
    value printed in fixed notation shows exactly two, respectively three,
    fraction digits. *)
Theorem statistics_rendered_in_their_slots p d t0 t1 :
  analysisData p = Some d →
  Data.texts d !! 0%nat = Some t0 → Data.texts d !! 1%nat = Some t1 →
  has_ids (statistic_ids "folkard") p → has_ids (statistic_ids "shakespeare") p →
  statistics_rendered toLocaleString "folkard" t0 (populateFolkardView toLocaleString p).2
  ∧ statistics_rendered toLocaleString "shakespeare" t1
      (populateShakespeareView toLocaleString p).2.
Proof.
  intros Hd H0 H1 Hf Hs. rewrite populateFolkardView_eq, populateShakespeareView_eq.
  pose proof (populateTextView_statistics_written "folkard" 0 p d t0 Hd H0 Hf) as Hq0.
  pose proof (populateTextView_statistics_written "shakespeare" 1 p d t1 Hd H1 Hs) as Hq1.
  pose proof (text_view_writes_preserve toLocaleString "folkard" t0) as Hp0.
  pose proof (text_view_writes_preserve toLocaleString "shakespeare" t1) as Hp1.
  pose proof (preserve_ids_take 10 _ Hp0) as Hp0'.
  pose proof (preserve_ids_take 10 _ Hp1) as Hp1'.
  unfold statistics_rendered. cbv zeta. split.
  - split_and!; try (apply toFixed_decimals; lia); read_statistic Hq0 Hp0 Hp0'.
  - split_and!; try (apply toFixed_decimals; lia); read_statistic Hq1 Hp1 Hp1'.
Qed.

End statistics.

Section rerun.
Variable toLocaleString : number → string.

Lemma overwritten_twice id ws p :
  preserve_ids ws → is_Some (find_id id (elems p)) →
  (∀ e, write_for id ws (write_for id ws e) = write_for id ws e) →
  is_Some (element_by_id id (apply_writes ws p))
  ∧ element_by_id id (apply_writes ws (apply_writes ws p))
    = element_by_id id (apply_writes ws p).
Proof.
  intros Hws Hid Hw. rewrite !element_by_id_apply_writes by done.
  destruct (is_Some_element_by_id _ _ Hid) as [e ->]. simpl.
  split; [by eexists|]. by rewrite Hw.
Qed.

Ltac write_twice :=
  intros [? ? ? ? ?]; lazy beta iota zeta delta
    [write_for fst snd app String.append String.eqb Ascii.eqb Bool.eqb
     page_writes comparison_writes chart_writes text_view_writes
     set_childNodes set_style elem_id classList dataset_view style childNodes];
  rewrite ?insert_insert_eq; reflexivity.

Ltac each_slot :=
  unfold statistic_ids; cbn [fmap list_fmap];
  repeat (apply Forall_cons; split;
          [ apply overwritten_twice; [assumption | slot_there | write_twice] | ]);
  apply Forall_nil_2.

(** X8: what a populator writes to its statistic slots it writes over what
    they held.  Run twice in a row on the same document, each of the three
    leaves every statistic slot, and the chart container, after the second
    run as after the first (unlike the word lists). *)
Theorem statistics_overwritten_on_rerun p d t0 t1 :
  analysisData p = Some d →
  Data.texts d !! 0%nat = Some t0 → Data.texts d !! 1%nat = Some t1 →
  has_ids page_ids p →
  overwrites_each_time (populateFolkardView toLocaleString) (statistic_ids "folkard") p
  ∧ overwrites_each_time (populateShakespeareView toLocaleString)
      (statistic_ids "shakespeare") p
  ∧ overwrites_each_time (populateComparisonView toLocaleString)
      ["overlap-percent"; "overlap-detail"; "overlap-chart"] p.
Proof.
  intros Hd H0 H1 (Hf & Hs & Hc)%has_ids_app_3.
  rewrite populateFolkardView_eq, populateShakespeareView_eq.
  pose proof (text_view_writes_preserve toLocaleString "folkard" t0) as Hp0.
  pose proof (text_view_writes_preserve toLocaleString "shakespeare" t1) as Hp1.
  pose proof (comparison_writes_preserve toLocaleString (Data.comparison d)) as Hpc.
  split_and!.
  - set (ws := text_view_writes toLocaleString "folkard" t0) in *.
    exists (apply_writes ws p), (apply_writes ws (apply_writes ws p)).
    split; [by apply (populateTextView_run _ _ _ _ d)|].
    split.
    { apply (populateTextView_run _ _ _ _ d); [by rewrite apply_writes_analysisData|done|].
      by apply has_ids_apply_writes. }
    subst ws. each_slot.
  - set (ws := text_view_writes toLocaleString "shakespeare" t1) in *.
    exists (apply_writes ws p), (apply_writes ws (apply_writes ws p)).
    split; [by apply (populateTextView_run _ _ _ _ d)|].
    split.
    { apply (populateTextView_run _ _ _ _ d); [by rewrite apply_writes_analysisData|done|].
      by apply has_ids_apply_writes. }
    subst ws. each_slot.
  - set (ws := comparison_writes toLocaleString (Data.comparison d)) in *.
    exists (apply_writes ws p), (apply_writes ws (apply_writes ws p)).
    split; [by apply populateComparisonView_run|].
    split.
    { apply populateComparisonView_run; [by rewrite apply_writes_analysisData|].
      by apply has_ids_apply_writes. }
    subst ws. each_slot.
Qed.

End rerun.

Section comparison_errors.
Variable toLocaleString : number → string.

(** X10: the comparison populator ends normally exactly when the page has the
    two overlap slots and the chart container and, unless there is no shared
    word to show, the shared-words container; otherwise it throws a
    TypeError. *)
Theorem comparison_populator_completes_iff_slots p d :
  analysisData p = Some d →
  let run := populateComparisonView toLocaleString p in
  let shared := Data.top_shared_words (Data.comparison d) in
  (run.1 = Normal () ∨ run.1 = Throw TypeError)
  ∧ (run.1 = Normal ()
     ↔ has_ids ["overlap-percent"; "overlap-detail"; "overlap-chart"] p
       ∧ (shared = [] ∨ is_Some (find_id "shared-words" (elems p)))).
Proof.
  intros Hd run shared. subst run shared.
  rewrite (populateComparisonView_trace toLocaleString p d Hd). cbv zeta.
  pose proof (slots_found_all ["overlap-percent"; "overlap-detail"; "overlap-chart"] p) as Hall.
  change (length _) with 3%nat in Hall.
  destruct (decide (slots_found _ (elems p) = 3%nat)) as [Hn|Hn].
  - apply Hall in Hn.
    destruct (find_id "shared-words" (elems p)) as [i|] eqn:Hi.
    + cbn [fst]. split; [by left|]. split; [|done]. intros _. split; [done|]. right. by eexists.
    + destruct (take 30 (Data.top_shared_words (Data.comparison d))) as [|item l] eqn:Hl;
        cbn [fst].
      * apply take_S_nil in Hl. split; [by left|]. split; [|done]. intros _. split; [done|by left].
      * split; [by right|]. split; [done|]. intros [_ [Hnil|[? ?]]]; [|done].
        by rewrite Hnil in Hl.
  - cbn [fst]. split; [by right|]. split; [done|]. intros [Hids _]. by apply Hall in Hids.
Qed.

(** X11: the chart is drawn between the overlap statistics and the shared
    words.  On a page with the two overlap slots but no chart container the
    populator throws a TypeError with both slots written and the shared-words
    container as it was. *)
Theorem comparison_populator_without_chart_container p d :
  analysisData p = Some d →
  has_ids ["overlap-percent"; "overlap-detail"] p →
  find_id "overlap-chart" (elems p) = None →
  let c := Data.comparison d in
  let run := populateComparisonView toLocaleString p in
  run.1 = Throw TypeError
  ∧ nodes_of "overlap-percent" run.2
    = Some [TextNode (toFixed (Data.overlap_percentage c) 2 +:+ "%")]
  ∧ nodes_of "overlap-detail" run.2 = Some [TextNode (overlap_detail toLocaleString c)]
  ∧ nodes_of "shared-words" run.2 = nodes_of "shared-words" p.
Proof.
  intros Hd Hids Hchart c run. subst run.
  rewrite (populateComparisonView_trace toLocaleString p d Hd). cbv zeta. fold c.
  pose proof Hids as Hids'. split_ids Hids'.
  destruct Hid as [i0 Hi0]. destruct Hid0 as [i1 Hi1].
  cbn [slots_found]. rewrite Hi0, Hi1, Hchart, decide_False by lia. cbn [fst snd].
  assert (Hp : preserve_ids (take 2 (comparison_writes toLocaleString c))).
  { apply preserve_ids_take, comparison_writes_preserve. }
  split_and!; [done|..].
  - apply nodes_of_written; [done | slot_there | slot_read].
  - apply nodes_of_written; [done | slot_there | slot_read].
  - unfold nodes_of. rewrite element_by_id_not_written; [done|done|].
    apply (bool_decide_unpack _). by vm_compute.
Qed.

End comparison_errors.

(** ** The loader, whatever the network answers *)

Section loader_outcomes.
Variable toLocaleString : number → string.

Lemma slot_write_only_find_id ids els els' id :
  Forall2 (slot_write_only ids) els els' → find_id id els' = find_id id els.
Proof.
  induction 1 as [|e e' els els' (He & _) _ IH]; simpl; [done|].
  rewrite He, IH. done.
Qed.

Lemma slot_write_only_element_by_id ids p q id :
  Forall2 (slot_write_only ids) (elems p) (elems q) → id ∉ ids →
  element_by_id id q = element_by_id id p.
Proof.
  intros HF Hid. unfold element_by_id. rewrite (slot_write_only_find_id ids _ _ id HF).
  destruct (find_id id (elems p)) as [i|] eqn:Hi; simpl; [|done].
  apply find_id_Some in Hi as (e & He & Hide).
  destruct (Forall2_lookup_l _ _ _ _ _ HF He) as (e' & He' & (_ & _ & _ & _ & Heq)).
  rewrite He', He. f_equal. apply Heq. rewrite Hide.
  intros (id' & [= <-] & Hin)%list_elem_of_fmap. done.
Qed.

Lemma initialise_populate p :
  initialise toLocaleString p
  = match populate toLocaleString p with
    | (Normal _, q) => setupNavigation q
    | (Throw e, q) => (Throw e, q)
    end.
Proof.
  unfold initialise, populate, mbind, Js_bind.
  destruct (populateFolkardView toLocaleString p) as [[[]|e] q0]; [|done].
  destruct (populateShakespeareView toLocaleString q0) as [[[]|e] q1]; [|done].
  by destruct (populateComparisonView toLocaleString q1) as [[[]|e] q2].
Qed.

Lemma same_session_trans p q r : same_session p q → same_session q r → same_session p r.
Proof. unfold same_session. intros (?&?&?&?&?) (?&?&?&?&?). split_and!; congruence. Qed.

Lemma populate_same_session p : same_session p (populate toLocaleString p).2.
Proof.
  unfold populate, mbind, Js_bind.
  rewrite populateFolkardView_eq, populateShakespeareView_eq.
  pose proof (populateTextView_slots_only toLocaleString "folkard" 0 p) as [_ H0].
  destruct (populateTextView toLocaleString "folkard" 0 p) as [[[]|e] q0]; [|exact H0].
  pose proof (populateTextView_slots_only toLocaleString "shakespeare" 1 q0) as [_ H1].
  destruct (populateTextView toLocaleString "shakespeare" 1 q0) as [[[]|e] q1];
    [|exact (same_session_trans _ _ _ H0 H1)].
  pose proof (populateComparisonView_slots_only toLocaleString q1) as [_ H2].
  destruct (populateComparisonView toLocaleString q1) as [[[]|e] q2];
    exact (same_session_trans _ _ _ H0 (same_session_trans _ _ _ H1 H2)).
Qed.

(** X1: every run of the loader ends normally (the catch block swallows
    whatever the try block throws) after exactly one request for
    analysis.json; and it ends in one of two ways: either the alert has been
    shown once, the exception is the last console line and no click listener
    has been attached, or no alert has been shown, the document is stored and
    logged and the navigation listeners of the final page have been
    attached. *)
Theorem loader_reports_or_installs_navigation net p :
  let run := onDOMContentLoaded toLocaleString net p in
  run.1 = Normal ()
  ∧ requests run.2 = requests p ++ ["analysis.json"]
  ∧ ((alerts run.2
      = alerts p ++ ["Failed to load analysis data. Please ensure analysis.json exists."]
      ∧ (∃ e, last (console run.2) = Some (ConsoleError "Error loading analysis data:" e))
      ∧ listeners run.2 = listeners p)
     ∨ (alerts run.2 = alerts p
        ∧ (∃ d, analysisData run.2 = Some d
                ∧ console run.2 = console p ++ [ConsoleLog "Analysis data loaded:" d])
        ∧ listeners run.2 = listeners p ++ nav_listeners (elems run.2))).
Proof.
  intros run. subst run. rewrite onDOMContentLoaded_unfold.
  destruct (net "analysis.json") as [|r].
  { cbn [fst snd failure_reported requests alerts console listeners].
    split_and!; try done. left. split_and!; try done. eexists. apply last_snoc. }
  destruct (body r) as [|d].
  { cbn [fst snd failure_reported requests alerts console listeners].
    split_and!; try done. left. split_and!; try done. eexists. apply last_snoc. }
  unfold try_catch. rewrite initialise_populate.
  pose proof (populate_same_session (loaded d p)) as (Hl & Hc & Ha & Hr & Hd).
  destruct (populate toLocaleString (loaded d p)) as [[[]|e] q]; cbn [snd] in *.
  - rewrite setupNavigation_run. cbn [fst snd add_listeners requests alerts console listeners
      analysisData elems].
    split_and!; try done. right. rewrite Ha, Hl, Hd, Hc. split_and!; try done.
    by eexists.
  - cbn [report]. unfold report, mbind, Js_bind, console_error, alert.
    cbn [fst snd requests alerts console listeners].
    split_and!; try done. left. rewrite Ha, Hl. split_and!; try done.
    eexists. apply last_snoc.
Qed.

End loader_outcomes.

Section claims_status.
Variable toLocaleString : number → string.

Lemma alerts_grow (l : list string) (x : string) : l ≠ l ++ [x].
Proof. intros H%(f_equal length). rewrite length_app in H. simpl in H. lia. Qed.

(** The run on a JSON document, by the outcome of the three populators. *)
Lemma onDOMContentLoaded_json net p r d :
  net "analysis.json" = Responded r → body r = Json d →
  let run := onDOMContentLoaded toLocaleString net p in
  match (populate toLocaleString (loaded d p)).1 with
  | Normal _ => alerts run.2 = alerts p
  | Throw e =>
      alerts run.2
      = alerts p ++ ["Failed to load analysis data. Please ensure analysis.json exists."]
      ∧ last (console run.2) = Some (ConsoleError "Error loading analysis data:" e)
  end.
Proof.
  intros Hnet Hbody run. subst run.
  rewrite onDOMContentLoaded_unfold, Hnet, Hbody. unfold try_catch.
  rewrite initialise_populate.
  pose proof (populate_same_session toLocaleString (loaded d p)) as (_ & _ & Ha & _).
  destruct (populate toLocaleString (loaded d p)) as [[[]|e] q]; cbn [fst snd] in *.
  - rewrite setupNavigation_run. cbn [snd add_listeners alerts]. by rewrite Ha.
  - unfold report, mbind, Js_bind, console_error, alert. cbn [snd alerts console].
    rewrite Ha. split; [done|apply last_snoc].
Qed.

(** C10 (as the code has it): the loader never looks at the response status.
    Two responses with the same body and different statuses give the same
    run, and a body that parses as JSON is stored as [analysisData] and logged
    as loaded, whatever the status.  The load is reported as failed when
    fetch rejects or the body does not parse as JSON, and also, the
    populators running inside the same try block, when one of them throws
    after the document was stored; in no other case is the alert shown.  A
    document with both texts on a page with every slot is never reported as
    failed. *)
Theorem response_status_never_inspected p :
  (∀ st st' b,
     onDOMContentLoaded toLocaleString (λ _, Responded {| status := st; body := b |}) p
     = onDOMContentLoaded toLocaleString (λ _, Responded {| status := st'; body := b |}) p)
  ∧ (∀ net r d,
       net "analysis.json" = Responded r → body r = Json d →
       let q := (onDOMContentLoaded toLocaleString net p).2 in
       analysisData q = Some d ∧ ConsoleLog "Analysis data loaded:" d ∈ console q)
  ∧ (∀ net,
       let q := (onDOMContentLoaded toLocaleString net p).2 in
       (reported_as_failed p q
        ↔ transport_or_parse_failure net ∨ populator_throws toLocaleString net p)
       ∧ (¬ reported_as_failed p q → alerts q = alerts p))
  ∧ (∀ net r d t0 t1,
       net "analysis.json" = Responded r → body r = Json d →
       Data.texts d !! 0%nat = Some t0 → Data.texts d !! 1%nat = Some t1 →
       has_ids page_ids p →
       ¬ reported_as_failed p (onDOMContentLoaded toLocaleString net p).2).
Proof.
  assert (Hfailed : ∀ net,
    transport_or_parse_failure net →
    reported_as_failed p (onDOMContentLoaded toLocaleString net p).2).
  { intros net Hfail. rewrite (onDOMContentLoaded_failure toLocaleString net p Hfail).
    unfold failure_reported, reported_as_failed. cbn [snd alerts console].
    split; [done|]. eexists. apply last_snoc. }
  split_and!.
  - intros st st' b. by rewrite !onDOMContentLoaded_unfold.
  - intros net r d Hnet Hbody q. subst q.
    rewrite onDOMContentLoaded_unfold, Hnet, Hbody.
    destruct (loaded_then_monotone toLocaleString d p) as [Hd Hc]. split; [by rewrite Hd|].
    eapply elem_of_prefix; [|exact Hc]. unfold loaded. cbn [console].
    apply elem_of_app. right. by left.
  - intros net q. subst q.
    destruct (net "analysis.json") as [|r] eqn:Hnet.
    { assert (Hfail : transport_or_parse_failure net).
      { unfold transport_or_parse_failure. by rewrite Hnet. }
      split; [split; [by left|intros _; by apply Hfailed]|].
      intros Hnot. destruct Hnot. by apply Hfailed. }
    destruct (body r) as [|d] eqn:Hbody.
    { assert (Hfail : transport_or_parse_failure net).
      { unfold transport_or_parse_failure. by rewrite Hnet. }
      split; [split; [by left|intros _; by apply Hfailed]|].
      intros Hnot. destruct Hnot. by apply Hfailed. }
    pose proof (onDOMContentLoaded_json net p r d Hnet Hbody) as Hrun. cbv zeta in Hrun.
    destruct (populate toLocaleString (loaded d p)).1 as [[]|e] eqn:Hpop.
    + split; [|done]. split.
      * intros [Ha _]. rewrite Hrun in Ha. by apply alerts_grow in Ha.
      * intros [Hfail|(r' & d' & e & Hnet' & Hbody' & Hthrow)].
        -- unfold transport_or_parse_failure in Hfail. rewrite Hnet in Hfail. congruence.
        -- assert (r' = r) as -> by congruence. assert (d' = d) as -> by congruence.
           congruence.
    + destruct Hrun as [Ha Hlast].
      assert (Hrep : reported_as_failed p (onDOMContentLoaded toLocaleString net p).2).
      { split; [done|by eexists]. }
      split; [split; [intros _; right; by exists r, d, e|done]|].
      intros Hnot. by destruct Hnot.
  - intros net r d t0 t1 Hnet Hbody H0 H1 Hids [Ha _].
    rewrite (loaded_run toLocaleString net p r d t0 t1) in Ha by done.
    cbn in Ha. by apply alerts_grow in Ha.
Qed.

End claims_status.

Section loader_short_document.
Variable toLocaleString : number → string.

Lemma populate_short_document q d :
  analysisData q = Some d → (length (Data.texts d) < 2)%nat →
  ∃ q', populate toLocaleString q = (Throw TypeError, q')
    ∧ same_session q q'
    ∧ Forall2 (slot_write_only (text_view_ids "folkard")) (elems q) (elems q')
    ∧ (Data.texts d = [] → q' = q).
Proof.
  intros Hd Hlen. unfold populate, mbind, Js_bind.
  rewrite populateFolkardView_eq, populateShakespeareView_eq.
  destruct (Data.texts d !! 0%nat) as [t0|] eqn:H0.
  - assert (H1 : Data.texts d !! 1%nat = None) by (apply lookup_ge_None; lia).
    pose proof (populateTextView_slots_only toLocaleString "folkard" 0 q) as [HF HS].
    destruct (populateTextView_completes toLocaleString "folkard" 0 q d t0 Hd H0) as [Hout _].
    destruct (populateTextView toLocaleString "folkard" 0 q) as [o q0]. cbn [fst snd] in *.
    assert (Hnil : Data.texts d = [] → q0 = q).
    { intros Hnil. by rewrite Hnil in H0. }
    destruct Hout as [-> | ->].
    + rewrite (populateTextView_no_text _ _ _ _ d);
        [by exists q0|by rewrite (proj2 (proj2 (proj2 (proj2 HS))))|done].
    + by exists q0.
  - rewrite (populateTextView_no_text _ _ _ _ d) by done. exists q. by split_and!.
Qed.

(** X3: a JSON document with fewer than two texts is stored and logged, and
    then reported as a failure: the alert is shown, the TypeError logged, no
    listener attached, and no slot of the Shakespeare view or of the
    comparison view written; with no text at all, no element is written. *)
Theorem document_without_both_corpora_is_reported net r d p :
  net "analysis.json" = Responded r → body r = Json d →
  (length (Data.texts d) < 2)%nat →
  let run := onDOMContentLoaded toLocaleString net p in
  run.1 = Normal ()
  ∧ alerts run.2
    = alerts p ++ ["Failed to load analysis data. Please ensure analysis.json exists."]
  ∧ console run.2
    = console p ++ [ConsoleLog "Analysis data loaded:" d;
                    ConsoleError "Error loading analysis data:" TypeError]
  ∧ listeners run.2 = listeners p
  ∧ analysisData run.2 = Some d
  ∧ (∀ id, id ∈ text_view_ids "shakespeare" ++ comparison_ids →
       element_by_id id run.2 = element_by_id id p)
  ∧ (Data.texts d = [] → elems run.2 = elems p).
Proof.
  intros Hnet Hbody Hlen run. subst run.
  rewrite onDOMContentLoaded_unfold, Hnet, Hbody. unfold try_catch.
  rewrite initialise_populate.
  destruct (populate_short_document (loaded d p) d eq_refl Hlen)
    as (q & -> & (Hl & Hc & Ha & Hr & Hd) & HF & Hnil).
  unfold report, mbind, Js_bind, console_error, alert.
  cbn [fst snd requests alerts console listeners analysisData elems].
  rewrite Ha, Hl, Hc, Hd. cbn [loaded requests alerts console listeners analysisData].
  split_and!; try done.
  - by rewrite <- app_assoc.
  - intros id Hid.
    transitivity (element_by_id id q); [done|].
    transitivity (element_by_id id (loaded d p)); [|done].
    apply (slot_write_only_element_by_id (text_view_ids "folkard")); [done|].
    revert id Hid. apply Forall_forall. apply (bool_decide_unpack _). by vm_compute.
  - intros Hd0. by rewrite (Hnil Hd0).
Qed.

End loader_short_document.

Section loader_frame.
Variable toLocaleString : number → string.

Lemma slot_write_only_mono ids ids' e e' :
  ids ⊆ ids' → slot_write_only ids e e' → slot_write_only ids' e e'.
Proof.
  intros Hsub (? & ? & ? & ? & He). split_and!; try done.
  intros Hn. apply He. intros (id & Hid & Hin)%list_elem_of_fmap.
  apply Hn. rewrite Hid. apply list_elem_of_fmap_2. by apply Hsub.
Qed.

Lemma Forall2_slot_write_only_mono ids ids' els els' :
  ids ⊆ ids' →
  Forall2 (slot_write_only ids) els els' → Forall2 (slot_write_only ids') els els'.
Proof.
  intros Hsub HF. eapply Forall2_impl; [exact HF|]. intros e e'. by apply slot_write_only_mono.
Qed.

Lemma populate_slots_only p :
  Forall2 (slot_write_only page_ids) (elems p) (elems (populate toLocaleString p).2).
Proof.
  unfold populate, mbind, Js_bind.
  rewrite populateFolkardView_eq, populateShakespeareView_eq.
  assert (Hf : text_view_ids "folkard" ⊆ page_ids).
  { intros id Hid. unfold page_ids. apply elem_of_app. by left. }
  assert (Hs : text_view_ids "shakespeare" ⊆ page_ids).
  { intros id Hid. unfold page_ids. rewrite !elem_of_app. right. by left. }
  assert (Hc : comparison_ids ⊆ page_ids).
  { intros id Hid. unfold page_ids. rewrite !elem_of_app. right. by right. }
  pose proof (populateTextView_slots_only toLocaleString "folkard" 0 p) as [H0 _].
  apply (Forall2_slot_write_only_mono _ _ _ _ Hf) in H0.
  destruct (populateTextView toLocaleString "folkard" 0 p) as [[[]|e] q0]; [|exact H0].
  pose proof (populateTextView_slots_only toLocaleString "shakespeare" 1 q0) as [H1 _].
  apply (Forall2_slot_write_only_mono _ _ _ _ Hs) in H1.
  destruct (populateTextView toLocaleString "shakespeare" 1 q0) as [[[]|e] q1];
    [|by etrans].
  pose proof (populateComparisonView_slots_only toLocaleString q1) as [H2 _].
  apply (Forall2_slot_write_only_mono _ _ _ _ Hc) in H2.
  destruct (populateComparisonView toLocaleString q1) as [[[]|e] q2];
    (etrans; [exact H0|]; etrans; [exact H1|exact H2]).
Qed.

Lemma find_class_offset c (g : nat → nat) ids els els' :
  Forall2 (slot_write_only ids) els els' →
  (filter (λ ie : nat * Element, c ∈ classList ie.2) (imap (λ i e, (g i, e)) els)).*1
  = (filter (λ ie : nat * Element, c ∈ classList ie.2) (imap (λ i e, (g i, e)) els')).*1.
Proof.
  intros HF. revert g. induction HF as [|e e' els els' (_ & Hc & _) _ IH]; intros g; [done|].
  cbn [imap]. rewrite !filter_cons. cbn [snd]. rewrite Hc.
  specialize (IH (g ∘ S)). unfold compose in *.
  case_decide; cbn [fmap list_fmap fst]; by rewrite IH.
Qed.

Lemma find_class_slot_write_only c ids els els' :
  Forall2 (slot_write_only ids) els els' → find_class c els' = find_class c els.
Proof. intros HF. symmetry. apply (find_class_offset c (λ i, i) ids els els' HF). Qed.

(** X2: whatever the network answers and whatever the page holds, the loader
    changes no element's id, classes or data-view and no style property but
    width, and it changes no element at all but those with a slot id of the
    three views: the view that was shown stays shown, the selector that was
    active stays active, and the selectors and view containers the
    navigation is installed over are those of the page as it was served. *)
Theorem loader_keeps_the_view_selection net p :
  let q := (onDOMContentLoaded toLocaleString net p).2 in
  Forall2 (slot_write_only page_ids) (elems p) (elems q)
  ∧ find_class "nav-btn" (elems q) = find_class "nav-btn" (elems p)
  ∧ find_class "text-view" (elems q) = find_class "text-view" (elems p)
  ∧ nav_listeners (elems q) = nav_listeners (elems p).
Proof.
  intros q.
  assert (HF : Forall2 (slot_write_only page_ids) (elems p) (elems q)).
  { subst q. rewrite onDOMContentLoaded_unfold.
    destruct (net "analysis.json") as [|r]; [reflexivity|].
    destruct (body r) as [|d]; [reflexivity|].
    unfold try_catch. rewrite initialise_populate.
    pose proof (populate_slots_only (loaded d p)) as HF.
    destruct (populate toLocaleString (loaded d p)) as [[[]|e] q0]; cbn [snd] in *.
    - by rewrite setupNavigation_run.
    - exact HF. }
  pose proof (find_class_slot_write_only "nav-btn" _ _ _ HF) as Hnb.
  pose proof (find_class_slot_write_only "text-view" _ _ _ HF) as Hvs.
  split_and!; try done. unfold nav_listeners. by rewrite Hnb, Hvs.
Qed.

End loader_frame.

(** ** The navigation beyond the selected view *)

Section navigation_extras.

Implicit Types (p q : Page) (els : list Element).

Lemma nav_effect_selection_only nb vs b t j e : selection_only e (nav_effect nb vs b t j e).
Proof.
  destruct e as [i cl dv st kids]. unfold selection_only, nav_effect, set_style, set_classList.
  cbn [elem_id dataset_view childNodes style classList]. split_and!; try done.
  - intros k Hk. repeat case_decide; by rewrite ?lookup_insert_ne.
  - intros c Hc.
    assert (Hrm : ∀ l : list string, c ∈ filter (λ x, x ≠ "active") l ↔ c ∈ l).
    { intros l. rewrite list_elem_of_filter. split; [by intros [_ ?]|by split]. }
    assert (Hadd : ∀ l : list string,
              c ∈ (if decide ("active" ∈ l) then l else l ++ ["active"]) ↔ c ∈ l).
    { intros l. case_decide; [done|]. rewrite elem_of_app, list_elem_of_singleton.
      split; [by intros [?|?]|by left]. }
    destruct (decide (j ∈ nb)), (decide (j = b)); by rewrite ?Hadd, ?Hrm.
Qed.

Lemma nav_effect_elsewhere nb vs b t j e :
  j ∉ nb → j ≠ b → j ∉ vs → t ≠ Some j → nav_effect nb vs b t j e = e.
Proof.
  intros. destruct e. unfold nav_effect, set_style, set_classList. simpl.
  by rewrite !decide_False by done.
Qed.

(** X17: a click changes the selection and nothing else on the page.
    Whatever element is clicked, every element keeps its id, its data-view,
    its children (the rendered data), every style property but display and
    every class but active; an element that is neither a selector nor a view
    container nor the target is left as it is; the listeners, the alerts, the
    requests and [analysisData] are untouched; the listener logs nothing, so
    that when it ends normally (the view container of the selector exists)
    the console is as it was; and a click on an element that is not a
    selector changes nothing at all. *)
Theorem navigation_changes_selection_only els0 q b :
  listeners q = nav_listeners els0 →
  let selectors := find_class "nav-btn" els0 in
  let views := find_class "text-view" els0 in
  let q' := click b q in
  Forall2 selection_only (elems q) (elems q')
  ∧ listeners q' = listeners q ∧ alerts q' = alerts q ∧ requests q' = requests q
  ∧ analysisData q' = analysisData q
  ∧ (is_Some (nav_target b (elems q)) → console q' = console q)
  ∧ (∀ j e, elems q !! j = Some e → j ∉ selectors → j ∉ views →
       nav_target b (elems q) ≠ Some j → elems q' !! j = Some e)
  ∧ (b ∉ selectors → q' = q).
Proof.
  intros Hls selectors views q'. subst q'.
  destruct (decide (b ∈ selectors)) as [Hb|Hb].
  - rewrite (click_nav_listener b q _ _ Hls) by (done || apply NoDup_find_class).
    rewrite navClick_run. cbn [snd]. rewrite elems_set_elements. fold selectors views.
    split_and!; try done.
    + apply Forall2_same_length_lookup_2; [by rewrite length_imap|].
      intros j e e' He. rewrite list_lookup_imap, He. intros [= <-].
      apply nav_effect_selection_only.
    + intros j e He Hs Hv Ht. rewrite list_lookup_imap, He. simpl. f_equal.
      apply nav_effect_elsewhere; try done. by intros ->.
  - rewrite (click_other b q _ _ Hls) by done. split_and!; try done.
    apply Forall_Forall2_diag, Forall_forall. intros e _. by split_and!.
Qed.

(** X18: a click on a selector whose view container the page lacks (the
    container view-V for its data-view V, view-undefined when it has none)
    makes the listener throw a TypeError on its last statement: by then that
    selector alone is marked active and every view container is hidden. *)
Theorem navigation_to_missing_view_hides_every_view els0 q b :
  listeners q = nav_listeners els0 →
  b ∈ find_class "nav-btn" els0 →
  find_id ("view-" +:+ default "undefined" (elems q !! b ≫= dataset_view)) (elems q) = None →
  let selectors := find_class "nav-btn" els0 in
  let views := find_class "text-view" els0 in
  let q' := click b q in
  (navClick selectors views b q).1 = Throw TypeError
  ∧ (∀ j e, j ∈ selectors → elems q' !! j = Some e → "active" ∈ classList e ↔ j = b)
  ∧ (∀ j e, j ∈ views → elems q' !! j = Some e → style e !! "display" = Some "none").
Proof.
  intros Hls Hb Hnone selectors views q'. subst q'.
  rewrite (click_nav_listener b q _ _ Hls) by (done || apply NoDup_find_class).
  unfold selectors, views. rewrite navClick_run. cbn [fst snd]. rewrite elems_set_elements.
  fold selectors views. unfold nav_target. rewrite Hnone.
  split_and!; [done|..].
  - intros j e Hj. rewrite list_lookup_imap.
    destruct (elems q !! j) as [[i cl dv st kids]|]; [|done]. intros [= <-].
    unfold nav_effect, set_style, set_classList. cbn [classList].
    rewrite (decide_True (P := j ∈ selectors)) by done.
    destruct (decide (j = b)) as [->|Hne].
    + split; [done|intros _]. case_decide; [done|]. apply elem_of_app. right. by left.
    + split; [|done]. by intros [? _]%list_elem_of_filter.
  - intros j e Hj. rewrite list_lookup_imap.
    destruct (elems q !! j) as [[i cl dv st kids]|]; [|done]. intros [= <-].
    unfold nav_effect, set_style, set_classList. cbn [style].
    rewrite decide_False by done. rewrite decide_True by done. apply lookup_insert_eq.
Qed.

End navigation_extras.

Section setup_extras.

Implicit Types (p q : Page) (els : list Element).

(** X16: [setupNavigation] never throws and touches nothing but the listeners:
    it attaches one click listener to each element of class nav-btn, none to
    any other element and no two to the same one; each listener is bound to
    its own button and closes over all the selectors and all the elements of
    class text-view. *)
Theorem setupNavigation_attaches_one_listener_per_selector p :
  ∃ added,
    setupNavigation p
    = (Normal (),
       mkPage (elems p) (listeners p ++ added) (console p) (alerts p) (requests p)
         (analysisData p))
    ∧ NoDup added.*1
    ∧ (∀ j, j ∈ added.*1 ↔ ∃ e, elems p !! j = Some e ∧ "nav-btn" ∈ classList e)
    ∧ (∀ j l, (j, l) ∈ added →
         nav_button l = j ∧ nav_buttons l = added.*1
         ∧ ∀ v, v ∈ nav_views l
                ↔ ∃ e, elems p !! v = Some e ∧ "text-view" ∈ classList e).
Proof.
  exists (nav_listeners (elems p)). rewrite setupNavigation_run.
  assert (Hfst : (nav_listeners (elems p)).*1 = find_class "nav-btn" (elems p)).
  { unfold nav_listeners. rewrite <- list_fmap_compose. apply list_fmap_id. }
  rewrite Hfst. split_and!.
  - done.
  - apply NoDup_find_class.
  - intros j. apply elem_of_find_class.
  - intros j l (b & [= -> ->] & Hb)%list_elem_of_fmap. cbn [nav_button nav_buttons nav_views].
    split_and!; try done. intros v. apply elem_of_find_class.
Qed.

Lemma navClick_elems nb vs b p q :
  elems q = elems p → elems (navClick nb vs b q).2 = elems (navClick nb vs b p).2.
Proof. intros H. rewrite !navClick_run. cbn [snd]. by rewrite !elems_set_elements, H. Qed.

(** X19: installing the navigation a second time is harmless.  Every selector
    then carries two listeners and a click runs both, with the same effect on
    the elements as the one listener of a single installation. *)
Theorem setupNavigation_twice_clicks_alike p b :
  listeners p = [] →
  let p1 := (setupNavigation p).2 in
  let p2 := (setupNavigation p1).2 in
  listeners p2 = listeners p1 ++ listeners p1
  ∧ elems (click b p2) = elems (click b p1).
Proof.
  intros Hnil p1 p2. subst p1 p2. rewrite !setupNavigation_run. cbn [snd].
  set (L := nav_listeners (elems p)).
  set (p1 := add_listeners L p).
  change (elems p1) with (elems p). fold L.
  set (p2 := add_listeners L p1).
  assert (H1 : listeners p1 = L) by (unfold p1, add_listeners; cbn; by rewrite Hnil).
  assert (H2 : listeners p2 = L ++ L) by (unfold p2, p1, add_listeners; cbn; by rewrite Hnil).
  split; [by rewrite H2, H1|].
  unfold click. rewrite H2, H1, foldl_app.
  set (nb := find_class "nav-btn" (elems p)).
  set (vs := find_class "text-view" (elems p)).
  set (g := λ b, {| nav_buttons := nb; nav_views := vs; nav_button := b |}).
  change L with ((λ h, (h, g h)) <$> nb).
  destruct (decide (b ∈ nb)) as [Hb|Hb].
  - rewrite !(click_fold_unique b nb g) by (done || apply NoDup_find_class).
    unfold run_listener. cbn [g nav_buttons nav_views nav_button].
    rewrite navClick_idempotent. by apply navClick_elems.
  - rewrite !click_fold_no_match; [done|..];
      rewrite <- list_fmap_compose; simpl; by rewrite list_fmap_id.
Qed.

End setup_extras.

(** ** The chart beyond its circles *)

Section chart_extras.
Variable toLocaleString : number → string.

(** X13: the chart renderer replaces the content of the chart container by the
    one svg and changes nothing else: every other element, and the
    container's own id, classes and style, stay as they are.  Without the
    container it throws a TypeError and leaves the page as it was. *)
Theorem createVennDiagram_replaces_container_content c p :
  createVennDiagram toLocaleString c p
  = match find_id "overlap-chart" (elems p) with
    | Some i =>
        (Normal (),
         set_elements (alter (set_childNodes (λ _, [vennSvg toLocaleString c])) i) p)
    | None => (Throw TypeError, p)
    end.
Proof.
  rewrite createVennDiagram_run.
  destruct (find_id "overlap-chart" (elems p)) as [i|] eqn:Hi; [|done].
  f_equal. unfold apply_writes, chart_writes. cbn [foldl fst snd].
  rewrite set_elements_compose. destruct p as [els ls co al rq ad].
  unfold set_elements. cbn [elems listeners console alerts requests analysisData] in *.
  f_equal. unfold compose.
  rewrite (write_found _ _ (write _ _ els) i) by (by rewrite find_id_write by apply _).
  rewrite (write_found _ _ els i) by done.
  rewrite list_alter_alter_eq. apply list_alter_ext; [|done]. by intros [] _.
Qed.

(** X14: the two labels.  The third and fourth children of the svg are the
    texts Folkard and Shakespeare, of class venn-label and anchored in the
    middle, at the x of their circle's count (150 and 450) and at y = 60,
    which is 20 above the top of the circles (200 - 120 - 20). *)
Theorem chart_labels_above_the_circles c p :
  is_Some (find_id "overlap-chart" (elems p)) →
  ∃ svg label1 label2,
    nodes_of "overlap-chart" (createVennDiagram toLocaleString c p).2 = Some [svg]
    ∧ children_of svg !! 2%nat = Some label1 ∧ children_of svg !! 3%nat = Some label2
    ∧ tag_of label1 = Some "text" ∧ tag_of label2 = Some "text"
    ∧ children_of label1 = [TextNode "Folkard"]
    ∧ children_of label2 = [TextNode "Shakespeare"]
    ∧ anchor label1 = (Some "150", Some "60") ∧ anchor label2 = (Some "450", Some "60")
    ∧ attr_of "class" label1 = Some "venn-label" ∧ attr_of "class" label2 = Some "venn-label"
    ∧ attr_of "text-anchor" label1 = Some "middle"
    ∧ attr_of "text-anchor" label2 = Some "middle"
    ∧ toString (200 - 120 - 20) = "60".
Proof.
  intros Hid. eexists _, _, _. split.
  { rewrite createVennDiagram_run. destruct Hid as [i Hi]. rewrite Hi. cbn [snd].
    apply nodes_of_written; [apply chart_writes_preserve|by rewrite Hi|].
    intros e. rewrite chart_node_written. by rewrite vennSvg_tree. }
  cbn [children_of]. split_and!; try reflexivity; by vm_compute.
Qed.

(** X15: the overlap.  The svg has eight children; the seventh is the shared
    count, the text of toLocaleString of total_shared_words, anchored at
    (300, 200), the centre of the canvas and the midpoint of the two circle
    centres, and filled in burgundy; the eighth is the label Shared, 30 below
    it, in 12px. *)
Theorem chart_overlap_count_at_the_centre c p :
  is_Some (find_id "overlap-chart" (elems p)) →
  ∃ svg count label,
    nodes_of "overlap-chart" (createVennDiagram toLocaleString c p).2 = Some [svg]
    ∧ length (children_of svg) = 8%nat
    ∧ children_of svg !! 6%nat = Some count ∧ children_of svg !! 7%nat = Some label
    ∧ children_of count = text_content (toLocaleString (Data.total_shared_words c))
    ∧ anchor count = (Some "300", Some "200")
    ∧ attr_of "class" count = Some "venn-count"
    ∧ css_of "fill" count = Some "#6B394A"
    ∧ children_of label = [TextNode "Shared"]
    ∧ anchor label = (Some "300", Some "230")
    ∧ attr_of "class" label = Some "venn-label"
    ∧ css_of "font-size" label = Some "12px"
    ∧ toString (600 / 2) = "300" ∧ toString (400 / 2) = "200"
    ∧ toString ((220 + 380) / 2) = "300" ∧ toString (400 / 2 + 30) = "230".
Proof.
  intros Hid. eexists _, _, _. split.
  { rewrite createVennDiagram_run. destruct Hid as [i Hi]. rewrite Hi. cbn [snd].
    apply nodes_of_written; [apply chart_writes_preserve|by rewrite Hi|].
    intros e. rewrite chart_node_written. by rewrite vennSvg_tree. }
  cbn [children_of]. split_and!; try reflexivity; by vm_compute.
Qed.

Lemma comparison_chart_written c e :
  childNodes (write_for "overlap-chart" (comparison_writes toLocaleString c) e)
  = [vennSvg toLocaleString c].
Proof. revert e. slot_read. Qed.

(** X12: the chart and the summary line agree.  After the comparison populator
    the three counts in the chart are the three strings the summary line is
    made of, in its order shared, Folkard, Shakespeare. *)
Theorem chart_counts_match_summary_line p d :
  analysisData p = Some d →
  has_ids comparison_ids p →
  ∃ q svg first second shared (a b s : string),
    populateComparisonView toLocaleString p = (Normal (), q)
    ∧ nodes_of "overlap-chart" q = Some [svg]
    ∧ children_of svg !! 4%nat = Some first ∧ children_of svg !! 5%nat = Some second
    ∧ children_of svg !! 6%nat = Some shared
    ∧ children_of first = text_content a ∧ children_of second = text_content b
    ∧ children_of shared = text_content s
    ∧ nodes_of "overlap-detail" q
      = Some [TextNode (s +:+ " shared words • " +:+ a +:+ " unique to Folkard • "
                        +:+ b +:+ " unique to Shakespeare")]
    ∧ a = toLocaleString (Data.unique_to_folkard (Data.comparison d))
    ∧ b = toLocaleString (Data.unique_to_shakespeare (Data.comparison d))
    ∧ s = toLocaleString (Data.total_shared_words (Data.comparison d)).
Proof.
  intros Hd Hids. set (c := Data.comparison d).
  pose proof (comparison_writes_preserve toLocaleString c) as Hp.
  eexists _, _, _, _, _, _, _, _.
  split; [by apply populateComparisonView_run|].
  split.
  { apply nodes_of_written; [done | slot_there |].
    intros e. by rewrite comparison_chart_written, vennSvg_tree. }
  cbn [children_of]. split_and!; try reflexivity.
  fold (overlap_detail toLocaleString c).
  apply nodes_of_written; [done | slot_there | slot_read].
Qed.

End chart_extras.

(** ** The loader and the navigation together *)

Section after_load.
Variable toLocaleString : number → string.

Lemma selection_only_find_id els els' id :
  Forall2 selection_only els els' → find_id id els' = find_id id els.
Proof.
  induction 1 as [|e e' els els' (He & _) _ IH]; simpl; [done|]. by rewrite He, IH.
Qed.

Lemma selection_only_nodes_of p q id :
  Forall2 selection_only (elems p) (elems q) → nodes_of id q = nodes_of id p.
Proof.
  intros HF. unfold nodes_of, element_by_id. rewrite (selection_only_find_id _ _ id HF).
  destruct (find_id id (elems p)) as [i|]; simpl; [|done].
  destruct (elems p !! i) as [e|] eqn:He.
  - destruct (Forall2_lookup_l _ _ _ _ _ HF He) as (e' & -> & (_ & _ & Hk & _)). simpl.
    by rewrite Hk.
  - apply Forall2_length in HF. apply lookup_ge_None in He.
    rewrite (proj2 (lookup_ge_None _ _)); [done|lia].
Qed.

(** X20: the loader and the navigation together.  On a page served without
    click listeners, whatever the loader did, the listeners it leaves are
    either none (after a failure) or those of [setupNavigation] over the
    page's own selectors; and no click, on any element, then changes what any
    slot holds: switching views never alters the rendered data. *)
Theorem clicks_after_load_keep_rendered_data net p :
  listeners p = [] →
  let q := (onDOMContentLoaded toLocaleString net p).2 in
  (listeners q = [] ∨ listeners q = nav_listeners (elems p))
  ∧ ∀ b id, nodes_of id (click b q) = nodes_of id q.
Proof.
  intros Hnil q.
  assert (Hls : listeners q = [] ∨ listeners q = nav_listeners (elems q)).
  { subst q. rewrite onDOMContentLoaded_unfold.
    destruct (net "analysis.json") as [|r]; [by left|].
    destruct (body r) as [|d]; [by left|].
    unfold try_catch. rewrite initialise_populate.
    pose proof (populate_same_session toLocaleString (loaded d p)) as (Hl & _).
    destruct (populate toLocaleString (loaded d p)) as [[[]|e] q0]; cbn [snd] in *.
    - right. rewrite setupNavigation_run. cbn [snd add_listeners listeners elems].
      rewrite Hl. change (listeners (loaded d p)) with (listeners p). by rewrite Hnil.
    - left. unfold report, mbind, Js_bind, console_error, alert. cbn [snd listeners].
      rewrite Hl. exact Hnil. }
  assert (Hnav : nav_listeners (elems q) = nav_listeners (elems p)).
  { unfold nav_listeners.
    assert (HF : Forall2 (slot_write_only page_ids) (elems p) (elems q)).
    { subst q. rewrite onDOMContentLoaded_unfold.
      destruct (net "analysis.json") as [|r]; [reflexivity|].
      destruct (body r) as [|d]; [reflexivity|].
      unfold try_catch. rewrite initialise_populate.
      pose proof (populate_slots_only toLocaleString (loaded d p)) as HF.
      destruct (populate toLocaleString (loaded d p)) as [[[]|e] q0]; cbn [snd] in *.
      - by rewrite setupNavigation_run.
      - exact HF. }
    by rewrite !(find_class_slot_write_only _ _ _ _ HF). }
  split; [destruct Hls as [?|?]; [by left|right; congruence]|].
  intros b id. destruct Hls as [Hls|Hls].
  - unfold click. by rewrite Hls.
  - apply selection_only_nodes_of.
    destruct (decide (b ∈ find_class "nav-btn" (elems q))) as [Hb|Hb].
    + rewrite (click_nav_listener b q _ _ Hls) by (done || apply NoDup_find_class).
      rewrite navClick_run. cbn [snd]. rewrite elems_set_elements.
      apply Forall2_same_length_lookup_2; [by rewrite length_imap|].
      intros j e e' He. rewrite list_lookup_imap, He. intros [= <-].
      apply nav_effect_selection_only.
    + rewrite (click_other b q _ _ Hls) by done.
      apply Forall_Forall2_diag, Forall_forall. intros e _. by split_and!.
Qed.

End after_load.

(** * The script on the sample page, under en-US formatting *)

Lemma sample_page_has_ids : has_ids page_ids Sample.page.
Proof. unfold has_ids. apply (bool_decide_unpack _). by vm_compute. Qed.

(** The worked example of the corpus view: the counts with thousands
    separators, the diversity with two decimals, the bar at 20% labelled
    20.0%, the compound score with three decimals, and one word-item. *)
Example folkard_view_example :
  let p := (populateFolkardView en_US_toLocaleString (loaded Sample.document Sample.page)).2 in
  nodes_of "folkard-total-words" p = Some [TextNode "150,000"]
  ∧ nodes_of "folkard-unique-words" p = Some [TextNode "12,000"]
  ∧ nodes_of "folkard-lexical-diversity" p = Some [TextNode "8.00%"]
  ∧ style_of "folkard-sent-pos" "width" p = Some "20%"
  ∧ nodes_of "folkard-sent-pos-val" p = Some [TextNode "20.0%"]
  ∧ nodes_of "folkard-sent-compound" p = Some [TextNode "0.150"]
  ∧ nodes_of "folkard-top-words" p = Some [word_item "rose" "500"].
Proof. vm_compute. by split_and!. Qed.

(** The worked example of the comparison view. *)
Example comparison_view_example :
  let p := (populateComparisonView en_US_toLocaleString
              (loaded Sample.document Sample.page)).2 in
  nodes_of "overlap-percent" p = Some [TextNode "33.33%"]
  ∧ nodes_of "overlap-detail" p
    = Some [TextNode
              "2,000 shared words • 5,000 unique to Folkard • 3,000 unique to Shakespeare"]
  ∧ ((λ svg, children_of <$> children_of svg !! 6%nat) <$> nodes_of "overlap-chart" p ≫= head)
    = Some (Some [TextNode "2,000"]).
Proof. vm_compute. by split_and!. Qed.

(** The product 0.07 · 100 is not 7: the bar is 7.000000000000001% wide and
    the label reads 7.0%. *)
Example shakespeare_positive_example :
  let p := (populateShakespeareView en_US_toLocaleString
              (loaded Sample.document Sample.page)).2 in
  style_of "shakespeare-sent-pos" "width" p = Some "7.000000000000001%"
  ∧ nodes_of "shakespeare-sent-pos-val" p = Some [TextNode "7.0%"].
Proof. vm_compute. by split_and!. Qed.

(** A response with status 404 and a JSON body is loaded like any other. *)
Example status_404_with_json_is_loaded :
  let q := (onDOMContentLoaded en_US_toLocaleString
              (Sample.serves 404 (Json Sample.document)) Sample.page) in
  q.1 = Normal () ∧ analysisData q.2 = Some Sample.document ∧ alerts q.2 = []
  ∧ nodes_of "folkard-total-words" q.2 = Some [TextNode "150,000"].
Proof. vm_compute. by split_and!. Qed.

(** C1, against the claim as stated: a body that parses as JSON but has one
    text only is not the expected document; the failure is reported, yet the
    first populator has run and its slots hold data. *)
Lemma misshapen_document_populates_first_view :
  let net := Sample.serves 200 (Json Sample.one_text) in
  let q := (onDOMContentLoaded en_US_toLocaleString net Sample.page).2 in
  load_failure net
  ∧ alerts q = ["Failed to load analysis data. Please ensure analysis.json exists."]
  ∧ console q
    = [ConsoleLog "Analysis data loaded:" Sample.one_text;
       ConsoleError "Error loading analysis data:" TypeError]
  ∧ nodes_of "folkard-total-words" Sample.page = Some []
  ∧ nodes_of "folkard-total-words" q = Some [TextNode "150,000"]
  ∧ nodes_of "folkard-top-words" q = Some [word_item "rose" "500"]
  ∧ nodes_of "shakespeare-total-words" q = Some []
  ∧ elems q ≠ elems Sample.page.
Proof.
  split.
  { unfold load_failure, well_formed. cbn. discriminate. }
  split_and!; by vm_compute.
Qed.

(** C2, against the claim as stated: the count of the first circle reads
    5,000 and is anchored at (150, 200), which is not the centre (220, 200)
    of that circle; likewise (450, 200) against (380, 200) for the second. *)
Lemma count_anchor_is_not_circle_centre :
  let svg := vennSvg en_US_toLocaleString Sample.comparison in
  (children_of <$> children_of svg !! 4%nat) = Some [TextNode "5,000"]
  ∧ (anchor <$> children_of svg !! 4%nat) = Some (Some "150", Some "200")
  ∧ (centre <$> children_of svg !! 0%nat) = Some (Some "220", Some "200")
  ∧ (anchor <$> children_of svg !! 4%nat) ≠ (centre <$> children_of svg !! 0%nat)
  ∧ (children_of <$> children_of svg !! 5%nat) = Some [TextNode "3,000"]
  ∧ (anchor <$> children_of svg !! 5%nat) = Some (Some "450", Some "200")
  ∧ (centre <$> children_of svg !! 1%nat) = Some (Some "380", Some "200")
  ∧ (anchor <$> children_of svg !! 5%nat) ≠ (centre <$> children_of svg !! 1%nat).
Proof. vm_compute. split_and!; (reflexivity || discriminate). Qed.

(** C10, against the claim as stated: in neither run does fetch reject, and
    both bodies parse as JSON and are stored, yet both loads are reported as
    failed.  A response with status 404 and a document of one text: the
    second populator throws.  A response with status 200 and the well-formed
    sample document, on a page without the shared-words container: the
    third populator throws. *)
Lemma parsed_document_reported_as_failed :
  let one := Sample.serves 404 (Json Sample.one_text) in
  let q1 := (onDOMContentLoaded en_US_toLocaleString one Sample.page).2 in
  let two := Sample.serves 200 (Json Sample.document) in
  let q2 := (onDOMContentLoaded en_US_toLocaleString two Broken.no_shared_words).2 in
  (¬ transport_or_parse_failure one
   ∧ analysisData q1 = Some Sample.one_text
   ∧ reported_as_failed Sample.page q1)
  ∧ (¬ transport_or_parse_failure two
     ∧ well_formed Sample.document
     ∧ analysisData q2 = Some Sample.document
     ∧ reported_as_failed Broken.no_shared_words q2
     ∧ console q2
       = [ConsoleLog "Analysis data loaded:" Sample.document;
          ConsoleError "Error loading analysis data:" TypeError]).
Proof.
  split.
  - split_and!; [by cbn|by vm_compute|].
    split; [by vm_compute|]. exists TypeError. by vm_compute.
  - split_and!; [by cbn|reflexivity|by vm_compute| |by vm_compute].
    split; [by vm_compute|]. exists TypeError. by vm_compute.
Qed.

(** ** The theorems at the sample page *)

Lemma load_failure_reported_offline :
  transport_or_parse_failure Sample.offline
  ∧ let run := onDOMContentLoaded en_US_toLocaleString Sample.offline Sample.page in
    run.1 = Normal ()
    ∧ alerts run.2
      = alerts Sample.page
        ++ ["Failed to load analysis data. Please ensure analysis.json exists."]
    ∧ console run.2
      = console Sample.page
        ++ [ConsoleError "Error loading analysis data:" (load_error Sample.offline)]
    ∧ requests run.2 = requests Sample.page ++ ["analysis.json"]
    ∧ elems run.2 = elems Sample.page
    ∧ listeners run.2 = listeners Sample.page
    ∧ analysisData run.2 = analysisData Sample.page.
Proof.
  split; [exact I|].
  exact (load_failure_reported_without_side_effects en_US_toLocaleString
           Sample.offline Sample.page I).
Defined.

Lemma counts_drawn_on_sample_page :
  is_Some (find_id "overlap-chart" (elems Sample.page))
  ∧ ∃ svg circle1 circle2 count1 count2,
      nodes_of "overlap-chart"
        (createVennDiagram en_US_toLocaleString Sample.comparison Sample.page).2
      = Some [svg]
      ∧ children_of svg !! 0%nat = Some circle1 ∧ children_of svg !! 1%nat = Some circle2
      ∧ children_of svg !! 4%nat = Some count1 ∧ children_of svg !! 5%nat = Some count2
      ∧ children_of count1
        = text_content (en_US_toLocaleString (Data.unique_to_folkard Sample.comparison))
      ∧ children_of count2
        = text_content (en_US_toLocaleString (Data.unique_to_shakespeare Sample.comparison))
      ∧ centre circle1 = (Some "220", Some "200") ∧ anchor count1 = (Some "150", Some "200")
      ∧ centre circle2 = (Some "380", Some "200") ∧ anchor count2 = (Some "450", Some "200")
      ∧ toString (220 - 70) = "150" ∧ toString (380 + 70) = "450".
Proof.
  assert (H : is_Some (find_id "overlap-chart" (elems Sample.page))).
  { vm_compute. by eexists. }
  split; [exact H|].
  exact (counts_drawn_beside_circle_centres en_US_toLocaleString Sample.comparison
           Sample.page H).
Defined.

Lemma top_words_rendered_on_sample_page :
  has_ids page_ids Sample.page
  ∧ sample_run.1 = Normal () ∧ alerts sample_run.2 = alerts Sample.page
  ∧ appended "folkard-top-words" (word_nodes (take 30 (Data.top_words Sample.folkard)))
      Sample.page sample_run.2
  ∧ appended "shakespeare-top-words"
      (word_nodes (take 30 (Data.top_words Sample.shakespeare))) Sample.page sample_run.2
  ∧ appended "shared-words"
      (shared_nodes (take 30 (Data.top_shared_words Sample.comparison)))
      Sample.page sample_run.2
  ∧ nodes_of "shakespeare-top-words" sample_run.2
    = Some [word_item "flower" "300"; word_item "garden" "120"].
Proof.
  split; [exact sample_page_has_ids|].
  destruct (top_words_rendered_in_given_order en_US_toLocaleString
              (Sample.serves 200 (Json Sample.document)) Sample.page
              {| status := 200; body := Json Sample.document |} Sample.document
              Sample.folkard Sample.shakespeare eq_refl eq_refl eq_refl eq_refl
              sample_page_has_ids)
    as (Hrun & Halerts & Hf & Hs & Hc & _).
  split_and!; [exact Hrun|exact Halerts|exact Hf|exact Hs|exact Hc|exact Hs].
Defined.

Lemma sentiment_agrees_on_sample_page :
  has_ids page_ids Sample.page
  ∧ ∃ p0 p1,
      populateFolkardView en_US_toLocaleString (loaded Sample.document Sample.page)
      = (Normal (), p0)
      ∧ populateShakespeareView en_US_toLocaleString (loaded Sample.document Sample.page)
        = (Normal (), p1)
      ∧ bar_and_label "folkard-sent-pos" "folkard-sent-pos-val" 0.2 p0
      ∧ bar_and_label "shakespeare-sent-pos" "shakespeare-sent-pos-val" 0.07 p1.
Proof.
  split; [exact sample_page_has_ids|].
  destruct (sentiment_width_and_label_agree en_US_toLocaleString
              (loaded Sample.document Sample.page) Sample.document
              Sample.folkard Sample.shakespeare eq_refl eq_refl eq_refl
              sample_page_has_ids)
    as (p0 & p1 & H0 & H1 & Hfp & _ & _ & Hsp & _).
  exists p0, p1. by split_and!.
Defined.

Lemma overlap_rendered_on_sample_page :
  has_ids comparison_ids Sample.page
  ∧ (0 <=? Data.overlap_percentage Sample.comparison)%float = true
  ∧ (Data.overlap_percentage Sample.comparison <=? 100)%float = true
  ∧ ∃ p1,
      populateComparisonView en_US_toLocaleString (loaded Sample.document Sample.page)
      = (Normal (), p1)
      ∧ nodes_of "overlap-percent" p1
        = Some [TextNode (toFixed (Data.overlap_percentage Sample.comparison) 2 +:+ "%")]
      ∧ two_decimals (toFixed (Data.overlap_percentage Sample.comparison) 2).
Proof.
  assert (Hids : has_ids comparison_ids Sample.page).
  { unfold has_ids. apply (bool_decide_unpack _). by vm_compute. }
  split; [exact Hids|]. split; [reflexivity|]. split; [reflexivity|].
  destruct (overlap_statistics_rendered en_US_toLocaleString
              (loaded Sample.document Sample.page) Sample.document eq_refl Hids)
    as (p1 & Hrun & Hpct & _ & Hdec).
  exists p1. split_and!; [exact Hrun|exact Hpct|]. by apply Hdec.
Defined.

Lemma navigation_on_sample_page :
  let p := (setupNavigation Sample.page).2 in
  listeners p = nav_listeners (elems Sample.page)
  ∧ click 1 (click 1 p) = click 1 p
  ∧ click 1 (click 1 (click 0 (click 2 p))) = click 1 (click 0 (click 2 p))
  ∧ (classList <$> elems (click 1 p) !! 0%nat) = Some ["nav-btn"]
  ∧ (classList <$> elems (click 1 p) !! 1%nat) = Some ["nav-btn"; "active"]
  ∧ ∃ e, elems (click 1 p) !! 4%nat = Some e ∧ style e !! "display" = Some "block".
Proof.
  intros p.
  assert (Hls : listeners p = nav_listeners (elems Sample.page)).
  { by apply setupNavigation_listeners. }
  destruct (navigation_selects_one_view (elems Sample.page) p Hls) as [Hidem Hsel].
  assert (Hls' : listeners (click 0 (click 2 p)) = nav_listeners (elems Sample.page)).
  { rewrite <- Hls.
    destruct (navigation_selects_one_view (elems Sample.page) (click 2 p)) as [H _].
    { by rewrite (proj1 (Hidem 2%nat)). }
    rewrite (proj1 (H 0%nat)). apply Hidem. }
  split_and!.
  - exact Hls.
  - exact (proj2 (Hidem 1%nat)).
  - exact (proj2 (proj1 (navigation_selects_one_view (elems Sample.page) _ Hls') 1%nat)).
  - by vm_compute.
  - by vm_compute.
  - destruct (Hsel 1%nat "shakespeare" 4%nat) as (_ & Hshown & _);
      [apply (bool_decide_unpack _); by vm_compute|reflexivity|reflexivity|exact Hshown].
Defined.

Lemma populators_append_on_sample_page :
  has_ids page_ids Sample.page
  ∧ appends_each_time (populateFolkardView en_US_toLocaleString) "folkard-top-words"
      (word_nodes (take 30 (Data.top_words Sample.folkard)))
      (loaded Sample.document Sample.page)
  ∧ appends_each_time (populateComparisonView en_US_toLocaleString) "shared-words"
      (shared_nodes (take 30 (Data.top_shared_words Sample.comparison)))
      (loaded Sample.document Sample.page).
Proof.
  split; [exact sample_page_has_ids|].
  destruct (populators_append_without_clearing en_US_toLocaleString
              (loaded Sample.document Sample.page) Sample.document
              Sample.folkard Sample.shakespeare eq_refl eq_refl eq_refl
              sample_page_has_ids)
    as (Hf & _ & Hc & _).
  by split.
Defined.

(** Twice the entries: the Folkard container after two runs. *)
Example folkard_populated_twice :
  let p := loaded Sample.document Sample.page in
  let p1 := (populateFolkardView en_US_toLocaleString p).2 in
  let p2 := (populateFolkardView en_US_toLocaleString p1).2 in
  nodes_of "folkard-top-words" p2 = Some [word_item "rose" "500"; word_item "rose" "500"]
  ∧ nodes_of "folkard-total-words" p2 = Some [TextNode "150,000"].
Proof. vm_compute. by split. Qed.

(** ** The further properties at the sample pages *)

Lemma corpus_populators_complete_on_sample_pages :
  let p := loaded Sample.document Sample.page in
  (completes_iff_slots (populateFolkardView en_US_toLocaleString) "folkard" Sample.folkard p
   ∧ completes_iff_slots (populateShakespeareView en_US_toLocaleString) "shakespeare"
       Sample.shakespeare p)
  ∧ (populateFolkardView en_US_toLocaleString p).1 = Normal ()
  ∧ completes_iff_slots (populateFolkardView en_US_toLocaleString) "folkard" Sample.folkard
      Broken.two_slots
  ∧ (populateFolkardView en_US_toLocaleString Broken.two_slots).1 = Throw TypeError.
Proof.
  intros p.
  pose proof (corpus_populators_complete_iff_slots en_US_toLocaleString p Sample.document
                Sample.folkard Sample.shakespeare eq_refl eq_refl eq_refl) as H.
  pose proof (corpus_populators_complete_iff_slots en_US_toLocaleString Broken.two_slots
                Sample.document Sample.folkard Sample.shakespeare eq_refl eq_refl eq_refl)
    as [H' _].
  split; [exact H|]. split; [by vm_compute|]. split; [exact H'|by vm_compute].
Defined.

Lemma corpus_populator_stops_on_two_slots :
  let run := populateFolkardView en_US_toLocaleString Broken.two_slots in
  slots_found (statistic_ids "folkard") (elems Broken.two_slots) = 2%nat
  ∧ run.1 = Throw TypeError
  ∧ run.2 = apply_writes (take 2 (text_view_writes en_US_toLocaleString "folkard" Sample.folkard))
              Broken.two_slots
  ∧ nodes_of "folkard-unique-words" run.2 = Some [TextNode "12,000"].
Proof.
  intros run.
  destruct (corpus_populators_stop_at_first_missing_slot en_US_toLocaleString
              Broken.two_slots Sample.document Sample.folkard Sample.shakespeare
              eq_refl eq_refl eq_refl) as [[_ Hthrow] _].
  assert (Hout : run.1 = Throw TypeError) by (by vm_compute).
  destruct (Hthrow Hout) as [Hrun _].
  split; [reflexivity|]. split; [exact Hout|]. split; [exact Hrun|by vm_compute].
Defined.

Lemma comparison_populator_completes_on_sample_page :
  let p := loaded Sample.document Sample.page in
  let run := populateComparisonView en_US_toLocaleString p in
  (run.1 = Normal ()
   ↔ has_ids ["overlap-percent"; "overlap-detail"; "overlap-chart"] p
     ∧ (Data.top_shared_words Sample.comparison = []
        ∨ is_Some (find_id "shared-words" (elems p)))).
Proof.
  exact (proj2 (comparison_populator_completes_iff_slots en_US_toLocaleString
                  (loaded Sample.document Sample.page) Sample.document eq_refl)).
Defined.

Lemma comparison_populator_on_page_without_chart :
  has_ids ["overlap-percent"; "overlap-detail"] Broken.no_chart
  ∧ find_id "overlap-chart" (elems Broken.no_chart) = None
  ∧ let run := populateComparisonView en_US_toLocaleString Broken.no_chart in
    run.1 = Throw TypeError
    ∧ nodes_of "overlap-percent" run.2 = Some [TextNode "33.33%"]
    ∧ nodes_of "shared-words" run.2 = Some [].
Proof.
  assert (Hids : has_ids ["overlap-percent"; "overlap-detail"] Broken.no_chart).
  { unfold has_ids. apply (bool_decide_unpack _). by vm_compute. }
  split; [exact Hids|]. split; [reflexivity|].
  destruct (comparison_populator_without_chart_container en_US_toLocaleString
              Broken.no_chart Sample.document eq_refl Hids eq_refl)
    as (Hout & Hpct & _ & Hshared).
  split_and!; [exact Hout|exact Hpct|exact Hshared].
Defined.

Lemma statistics_rendered_on_sample_page :
  let p := loaded Sample.document Sample.page in
  has_ids (statistic_ids "folkard") p ∧ has_ids (statistic_ids "shakespeare") p
  ∧ statistics_rendered en_US_toLocaleString "folkard" Sample.folkard
      (populateFolkardView en_US_toLocaleString p).2
  ∧ statistics_rendered en_US_toLocaleString "shakespeare" Sample.shakespeare
      (populateShakespeareView en_US_toLocaleString p).2.
Proof.
  intros p.
  assert (Hf : has_ids (statistic_ids "folkard") p).
  { unfold has_ids. apply (bool_decide_unpack _). by vm_compute. }
  assert (Hs : has_ids (statistic_ids "shakespeare") p).
  { unfold has_ids. apply (bool_decide_unpack _). by vm_compute. }
  split; [exact Hf|]. split; [exact Hs|].
  exact (statistics_rendered_in_their_slots en_US_toLocaleString p Sample.document
           Sample.folkard Sample.shakespeare eq_refl eq_refl eq_refl Hf Hs).
Defined.

Lemma statistics_overwritten_on_sample_page :
  let p := loaded Sample.document Sample.page in
  has_ids page_ids p
  ∧ overwrites_each_time (populateFolkardView en_US_toLocaleString)
      (statistic_ids "folkard") p
  ∧ overwrites_each_time (populateShakespeareView en_US_toLocaleString)
      (statistic_ids "shakespeare") p
  ∧ overwrites_each_time (populateComparisonView en_US_toLocaleString)
      ["overlap-percent"; "overlap-detail"; "overlap-chart"] p.
Proof.
  intros p. split; [exact sample_page_has_ids|].
  exact (statistics_overwritten_on_rerun en_US_toLocaleString p Sample.document
           Sample.folkard Sample.shakespeare eq_refl eq_refl eq_refl sample_page_has_ids).
Defined.

Lemma one_text_document_is_reported :
  let net := Sample.serves 200 (Json Sample.one_text) in
  let run := onDOMContentLoaded en_US_toLocaleString net Sample.page in
  (length (Data.texts Sample.one_text) < 2)%nat
  ∧ run.1 = Normal ()
  ∧ alerts run.2 = ["Failed to load analysis data. Please ensure analysis.json exists."]
  ∧ listeners run.2 = []
  ∧ analysisData run.2 = Some Sample.one_text
  ∧ element_by_id "shakespeare-total-words" run.2
    = element_by_id "shakespeare-total-words" Sample.page
  ∧ element_by_id "overlap-chart" run.2 = element_by_id "overlap-chart" Sample.page.
Proof.
  intros net run.
  assert (Hlen : (length (Data.texts Sample.one_text) < 2)%nat) by (cbn; lia).
  destruct (document_without_both_corpora_is_reported en_US_toLocaleString net
              {| status := 200; body := Json Sample.one_text |} Sample.one_text Sample.page
              eq_refl eq_refl Hlen) as (Hout & Hal & _ & Hls & Hd & Hid & _).
  split_and!; [exact Hlen|exact Hout|exact Hal|exact Hls|exact Hd|..].
  - apply Hid. apply (bool_decide_unpack _). by vm_compute.
  - apply Hid. apply (bool_decide_unpack _). by vm_compute.
Defined.

Lemma navigation_changes_selection_only_on_sample_page :
  let p := (setupNavigation Sample.page).2 in
  listeners p = nav_listeners (elems Sample.page)
  ∧ Forall2 selection_only (elems p) (elems (click 1 p))
  ∧ alerts (click 1 p) = alerts p
  ∧ console (click 1 p) = console p
  ∧ click 7 p = p.
Proof.
  intros p.
  assert (Hls : listeners p = nav_listeners (elems Sample.page)).
  { by apply setupNavigation_listeners. }
  destruct (navigation_changes_selection_only (elems Sample.page) p 1 Hls)
    as (HF & _ & Ha & _ & _ & Hc & _ & _).
  destruct (navigation_changes_selection_only (elems Sample.page) p 7 Hls)
    as (_ & _ & _ & _ & _ & _ & _ & Hother).
  split_and!; [exact Hls|exact HF|exact Ha| |].
  - apply Hc. vm_compute. by eexists.
  - apply Hother. apply (bool_decide_unpack _). by vm_compute.
Defined.

Lemma navigation_to_missing_view_on_orphan_page :
  let p := (setupNavigation Broken.orphan).2 in
  listeners p = nav_listeners (elems Broken.orphan)
  ∧ find_id "view-glossary" (elems p) = None
  ∧ (navClick [0; 1]%nat [2]%nat 0 p).1 = Throw TypeError
  ∧ (classList <$> elems (click 0 p) !! 0%nat) = Some ["nav-btn"; "active"]
  ∧ (classList <$> elems (click 0 p) !! 1%nat) = Some ["nav-btn"]
  ∧ ∃ e, elems (click 0 p) !! 2%nat = Some e ∧ style e !! "display" = Some "none".
Proof.
  intros p.
  assert (Hls : listeners p = nav_listeners (elems Broken.orphan)).
  { by apply setupNavigation_listeners. }
  assert (Hb : 0%nat ∈ find_class "nav-btn" (elems Broken.orphan)).
  { apply (bool_decide_unpack _). by vm_compute. }
  destruct (navigation_to_missing_view_hides_every_view (elems Broken.orphan) p 0 Hls Hb
              eq_refl) as (Hout & _ & Hhidden).
  split_and!; [exact Hls|reflexivity|exact Hout|by vm_compute|by vm_compute|].
  eexists. split; [reflexivity|]. eapply (Hhidden 2%nat); [|reflexivity].
  apply (bool_decide_unpack _). by vm_compute.
Defined.

Lemma setupNavigation_twice_on_sample_page :
  let p1 := (setupNavigation Sample.page).2 in
  let p2 := (setupNavigation p1).2 in
  listeners Sample.page = []
  ∧ length (listeners p2) = 6%nat
  ∧ elems (click 2 p2) = elems (click 2 p1).
Proof.
  intros p1 p2.
  destruct (setupNavigation_twice_clicks_alike Sample.page 2 eq_refl) as [Hls Hel].
  split_and!; [reflexivity|by vm_compute|exact Hel].
Defined.

Lemma chart_labels_on_sample_page :
  is_Some (find_id "overlap-chart" (elems Sample.page))
  ∧ ∃ svg label1 label2,
      nodes_of "overlap-chart"
        (createVennDiagram en_US_toLocaleString Sample.comparison Sample.page).2
      = Some [svg]
      ∧ children_of svg !! 2%nat = Some label1 ∧ children_of svg !! 3%nat = Some label2
      ∧ children_of label1 = [TextNode "Folkard"]
      ∧ children_of label2 = [TextNode "Shakespeare"]
      ∧ anchor label1 = (Some "150", Some "60") ∧ anchor label2 = (Some "450", Some "60").
Proof.
  assert (H : is_Some (find_id "overlap-chart" (elems Sample.page))).
  { vm_compute. by eexists. }
  split; [exact H|].
  destruct (chart_labels_above_the_circles en_US_toLocaleString Sample.comparison
              Sample.page H)
    as (svg & l1 & l2 & Hsvg & H2 & H3 & _ & _ & Hc1 & Hc2 & Ha1 & Ha2 & _).
  exists svg, l1, l2. by split_and!.
Defined.

Lemma chart_overlap_count_on_sample_page :
  is_Some (find_id "overlap-chart" (elems Sample.page))
  ∧ ∃ svg count label,
      nodes_of "overlap-chart"
        (createVennDiagram en_US_toLocaleString Sample.comparison Sample.page).2
      = Some [svg]
      ∧ children_of svg !! 6%nat = Some count ∧ children_of svg !! 7%nat = Some label
      ∧ children_of count = [TextNode "2,000"]
      ∧ anchor count = (Some "300", Some "200")
      ∧ children_of label = [TextNode "Shared"]
      ∧ anchor label = (Some "300", Some "230").
Proof.
  assert (H : is_Some (find_id "overlap-chart" (elems Sample.page))).
  { vm_compute. by eexists. }
  split; [exact H|].
  destruct (chart_overlap_count_at_the_centre en_US_toLocaleString Sample.comparison
              Sample.page H)
    as (svg & n & l & Hsvg & _ & H6 & H7 & Hc & Ha & _ & _ & Hl & Hal & _).
  exists svg, n, l. split_and!; [exact Hsvg|exact H6|exact H7|rewrite Hc; by vm_compute|
    exact Ha|exact Hl|exact Hal].
Defined.

Lemma chart_counts_match_summary_on_sample_page :
  let p := loaded Sample.document Sample.page in
  has_ids comparison_ids p
  ∧ ∃ q,
      populateComparisonView en_US_toLocaleString p = (Normal (), q)
      ∧ nodes_of "overlap-detail" q
        = Some [TextNode
                  "2,000 shared words • 5,000 unique to Folkard • 3,000 unique to Shakespeare"].
Proof.
  intros p.
  assert (Hids : has_ids comparison_ids p).
  { unfold has_ids. apply (bool_decide_unpack _). by vm_compute. }
  split; [exact Hids|].
  destruct (chart_counts_match_summary_line en_US_toLocaleString p Sample.document
              eq_refl Hids)
    as (q & svg & n1 & n2 & n3 & a & b & s & Hrun & _ & _ & _ & _ & _ & _ & _ & Hd
        & -> & -> & ->).
  exists q. split; [exact Hrun|]. rewrite Hd. by vm_compute.
Defined.

Lemma clicks_after_load_on_sample_page :
  listeners Sample.page = []
  ∧ listeners sample_run.2 = nav_listeners (elems Sample.page)
  ∧ nodes_of "folkard-total-words" (click 1 sample_run.2) = Some [TextNode "150,000"].
Proof.
  destruct (clicks_after_load_keep_rendered_data en_US_toLocaleString
              (Sample.serves 200 (Json Sample.document)) Sample.page eq_refl) as [_ H].
  split_and!; [reflexivity|by vm_compute|].
  unfold sample_run. rewrite H. by vm_compute.
Defined.
